(** * Website-Downloader: the resource resolution and rewriting pipeline

    A shallow embedding of [downloader.py] (class [WebsiteDownloader]) and of
    the job entry point of [app.py], with the properties of the
    specification stated and proved over it.

    Conventions.
    - A Python [str] is a [string]; its characters are the code points
      below 256.  [bytes] payloads are strings as well.
    - A method that returns [str] or [None] returns [option string].
    - The job object, the output directory and the log of requests sent
      through [self.session] form one state record, threaded through a
      state-and-exception monad.
    - Library functions whose result depends on the machine or on the network
      ([mimetypes.guess_extension], [requests.Session.get], the browser) are
      fields of an environment class. *)

From Stdlib Require Import ZArith Lia Ascii.
From Stdlib Require String.
From stdpp Require Import base option list gmap strings.
From Equations Require Import Equations.

Local Open Scope Z_scope.

(* ===================================================================== *)
(** * Python strings *)
(* ===================================================================== *)

Module Py.

Definition chars (s : string) : list ascii := String.list_ascii_of_string s.
Definition str (l : list ascii) : string := String.string_of_list_ascii l.

Definition code (c : ascii) : Z := Z.of_N (N_of_ascii c).
Definition chr (z : Z) : ascii := ascii_of_N (Z.to_N z).

Definition len (s : string) : nat := length (chars s).

(** [bool(s)]: a string is true when it is not empty. *)
Definition truthy (s : string) : bool :=
  match s with EmptyString => false | String _ _ => true end.

(** [l[:len(p)] == p] on character lists *)
Fixpoint starts (p l : list ascii) : bool :=
  match p, l with
  | [], _ => true
  | a :: p', b :: l' => if decide (a = b) then starts p' l' else false
  | _ :: _, [] => false
  end.

(** [s.startswith(p)] *)
Definition startswith (p s : string) : bool := starts (chars p) (chars s).

(** [s.endswith(p)] *)
Definition endswith (p s : string) : bool :=
  starts (rev (chars p)) (rev (chars s)).

(** [s[:n]] *)
Definition slice_to (n : nat) (s : string) : string := str (take n (chars s)).

(** [s[n:]] *)
Definition slice_from (n : nat) (s : string) : string := str (drop n (chars s)).

(** [s[1:-1]] *)
Definition strip_ends (s : string) : string :=
  str (take (length (chars s) - 2) (drop 1 (chars s))).

(** [sub in s] on character lists *)
Fixpoint occurs (sub l : list ascii) : bool :=
  starts sub l || match l with [] => false | _ :: l' => occurs sub l' end.

Definition contains (sub s : string) : bool := occurs (chars sub) (chars s).

(** [c.isspace()] on the code points below 256; the class [\s] of [re] on
    [str] patterns is the same set. *)
Definition isspace (c : ascii) : bool :=
  let n := code c in
  ((9 <=? n) && (n <=? 13)) || ((28 <=? n) && (n <=? 32))
  || (n =? 133) || (n =? 160).

Fixpoint lstrip_chars (l : list ascii) : list ascii :=
  match l with
  | c :: l' => if isspace c then lstrip_chars l' else l
  | [] => []
  end.

Definition strip_chars (l : list ascii) : list ascii :=
  rev (lstrip_chars (rev (lstrip_chars l))).

(** [s.strip()] *)
Definition strip (s : string) : string := str (strip_chars (chars s)).

(** [s.split(sep)[0]] for a one-character separator: the text before the
    first separator, the whole string when there is none. *)
Fixpoint before (sep : ascii) (l : list ascii) : list ascii :=
  match l with
  | [] => []
  | c :: l' => if decide (c = sep) then [] else c :: before sep l'
  end.

Definition split_head (sep : ascii) (s : string) : string :=
  str (before sep (chars s)).

(** The text after the first separator, empty when there is none. *)
Fixpoint after (sep : ascii) (l : list ascii) : list ascii :=
  match l with
  | [] => []
  | c :: l' => if decide (c = sep) then l' else after sep l'
  end.

(** The text after the last occurrence of [sep], the whole list when there
    is none: [l[l.rfind(sep)+1:]]. *)
Definition after_last (sep : ascii) (l : list ascii) : list ascii :=
  rev (before sep (rev l)).

(** The text before the last occurrence of [sep]: [l[:l.rfind(sep)]] when
    [sep] occurs. *)
Definition before_last (sep : ascii) (l : list ascii) : list ascii :=
  rev (after sep (rev l)).

(** [s.split(sep)] for a one-character separator *)
Fixpoint split_chars (sep : ascii) (l : list ascii) : list (list ascii) :=
  match l with
  | [] => [[]]
  | c :: l' =>
      if decide (c = sep) then [] :: split_chars sep l'
      else match split_chars sep l' with
           | w :: ws => (c :: w) :: ws
           | [] => [[c]]
           end
  end.

(** [sep.join(parts)] *)
Fixpoint join_chars (sep : list ascii) (parts : list (list ascii)) : list ascii :=
  match parts with
  | [] => []
  | [w] => w
  | w :: ws => w ++ sep ++ join_chars sep ws
  end.

(** [c.lower()] on the code points below 256 *)
Definition lower_char (c : ascii) : ascii :=
  let n := code c in
  if ((65 <=? n) && (n <=? 90))
     || ((192 <=? n) && (n <=? 222) && negb (n =? 215))
  then chr (n + 32) else c.

(** [s.lower()] *)
Definition lower (s : string) : string := str (lower_char <$> chars s).

Definition is_ascii_alpha (c : ascii) : bool :=
  let n := code c in
  ((65 <=? n) && (n <=? 90)) || ((97 <=? n) && (n <=? 122)).

Definition is_digit (c : ascii) : bool :=
  let n := code c in (48 <=? n) && (n <=? 57).

End Py.

(* ===================================================================== *)
(** * [hashlib.md5] (RFC 1321) on 32-bit words held in [Z] *)
(* ===================================================================== *)

Module MD5.

Definition w32 (x : Z) : Z := Z.land x 4294967295.

Definition add32 (x y : Z) : Z := w32 (x + y).

Definition not32 (x : Z) : Z := Z.lxor x 4294967295.

Definition rotl32 (x s : Z) : Z :=
  w32 (Z.lor (Z.shiftl x s) (Z.shiftr x (32 - s))).

(** floor(2^32 * abs(sin(i + 1))) *)
Definition K : list Z :=
  [ 0xd76aa478; 0xe8c7b756; 0x242070db; 0xc1bdceee;
    0xf57c0faf; 0x4787c62a; 0xa8304613; 0xfd469501;
    0x698098d8; 0x8b44f7af; 0xffff5bb1; 0x895cd7be;
    0x6b901122; 0xfd987193; 0xa679438e; 0x49b40821;
    0xf61e2562; 0xc040b340; 0x265e5a51; 0xe9b6c7aa;
    0xd62f105d; 0x02441453; 0xd8a1e681; 0xe7d3fbc8;
    0x21e1cde6; 0xc33707d6; 0xf4d50d87; 0x455a14ed;
    0xa9e3e905; 0xfcefa3f8; 0x676f02d9; 0x8d2a4c8a;
    0xfffa3942; 0x8771f681; 0x6d9d6122; 0xfde5380c;
    0xa4beea44; 0x4bdecfa9; 0xf6bb4b60; 0xbebfbc70;
    0x289b7ec6; 0xeaa127fa; 0xd4ef3085; 0x04881d05;
    0xd9d4d039; 0xe6db99e5; 0x1fa27cf8; 0xc4ac5665;
    0xf4292244; 0x432aff97; 0xab9423a7; 0xfc93a039;
    0x655b59c3; 0x8f0ccc92; 0xffeff47d; 0x85845dd1;
    0x6fa87e4f; 0xfe2ce6e0; 0xa3014314; 0x4e0811a1;
    0xf7537e82; 0xbd3af235; 0x2ad7d2bb; 0xeb86d391 ].

Definition shifts : list Z :=
  [ 7; 12; 17; 22; 7; 12; 17; 22; 7; 12; 17; 22; 7; 12; 17; 22;
    5; 9; 14; 20; 5; 9; 14; 20; 5; 9; 14; 20; 5; 9; 14; 20;
    4; 11; 16; 23; 4; 11; 16; 23; 4; 11; 16; 23; 4; 11; 16; 23;
    6; 10; 15; 21; 6; 10; 15; 21; 6; 10; 15; 21; 6; 10; 15; 21 ].

(** [url.encode()]: UTF-8 of code points below 256 *)
Definition utf8 (c : ascii) : list Z :=
  let n := Py.code c in
  if n <? 128 then [n]
  else [Z.lor 192 (Z.shiftr n 6); Z.lor 128 (Z.land n 63)].

Definition encode (s : string) : list Z := Py.chars s ≫= utf8.

(** The 64-bit length in bits, least significant byte first. *)
Definition length_bytes (bits : Z) : list Z :=
  (fun i => Z.land (Z.shiftr bits (8 * Z.of_nat i)) 255) <$> seq 0 8.

Definition padding (msg : list Z) : list Z :=
  let n := Z.of_nat (length msg) in
  let zeros := Z.to_nat ((55 - n) mod 64) in
  msg ++ [128] ++ replicate zeros 0 ++ length_bytes (8 * n).

(** Four bytes, least significant first, to one word. *)
Definition word_le (bs : list Z) : Z :=
  foldr (fun b acc => b + 256 * acc) 0 bs.

Fixpoint words (n : nat) (bs : list Z) : list Z :=
  match n with
  | O => []
  | S n' => word_le (take 4 bs) :: words n' (drop 4 bs)
  end.

Record regs := Regs { rA : Z; rB : Z; rC : Z; rD : Z }.

Definition round (M : list Z) (r : regs) (i : nat) : regs :=
  let '(Regs a b c d) := r in
  let zi := Z.of_nat i in
  let '(f, g) :=
    if zi <? 16 then (Z.lor (Z.land b c) (Z.land (not32 b) d), zi)
    else if zi <? 32 then
      (Z.lor (Z.land d b) (Z.land (not32 d) c), (5 * zi + 1) mod 16)
    else if zi <? 48 then (Z.lxor (Z.lxor b c) d, (3 * zi + 5) mod 16)
    else (Z.lxor c (Z.lor b (not32 d)), (7 * zi) mod 16) in
  let f' := w32 (f + a + K !!! i + M !!! Z.to_nat g) in
  Regs d (add32 b (rotl32 f' (shifts !!! i))) b c.

Definition block (r : regs) (bs : list Z) : regs :=
  let M := words 16 bs in
  let '(Regs a b c d) := foldl (round M) r (seq 0 64) in
  Regs (add32 (rA r) a) (add32 (rB r) b) (add32 (rC r) c) (add32 (rD r) d).

Fixpoint blocks (n : nat) (r : regs) (bs : list Z) : regs :=
  match n with
  | O => r
  | S n' => blocks n' (block r (take 64 bs)) (drop 64 bs)
  end.

Definition init : regs := Regs 0x67452301 0xefcdab89 0x98badcfe 0x10325476.

Definition bytes_le (w : Z) : list Z :=
  (fun i => Z.land (Z.shiftr w (8 * Z.of_nat i)) 255) <$> seq 0 4.

Definition digest (msg : list Z) : list Z :=
  let p := padding msg in
  let '(Regs a b c d) := blocks (length p / 64)%nat init p in
  bytes_le a ++ bytes_le b ++ bytes_le c ++ bytes_le d.

Definition hexdigit (n : Z) : ascii :=
  if n <? 10 then Py.chr (48 + n) else Py.chr (87 + n).

Definition hexbyte (b : Z) : list ascii :=
  [hexdigit (Z.shiftr b 4 mod 16); hexdigit (b mod 16)].

(** [hashlib.md5(s.encode()).hexdigest()] *)
Definition hexdigest (s : string) : string :=
  Py.str (digest (encode s) ≫= hexbyte).

End MD5.

(* ===================================================================== *)
(** * [ipaddress]: which texts are addresses *)
(* ===================================================================== *)

Module Ipaddress.

Import Py.

Definition is_hex (c : ascii) : bool :=
  is_digit c || ((97 <=? code c) && (code c <=? 102))
  || ((65 <=? code c) && (code c <=? 70)).

(** [int(s, 10)] on decimal digits *)
Definition decimal (l : list ascii) : Z :=
  foldl (fun acc c => 10 * acc + (code c - 48)) 0 l.

(** [_parse_octet] returns: one to three ASCII digits, no leading zero, at
    most 255 *)
Definition octet_ok (o : list ascii) : bool :=
  match o with
  | [] => false
  | c :: rest =>
      forallb is_digit o && (length o <=? 3)%nat
      && (negb (bool_decide (c = "0"%char)) || bool_decide (rest = []))
      && (decimal o <=? 255)
  end.

(** [IPv4Address(s)] returns *)
Definition ipv4_ok (s : list ascii) : bool :=
  match s with
  | [] => false
  | _ =>
      negb (bool_decide ("/"%char ∈ s))
      && (length (split_chars "." s) =? 4)%nat
      && forallb octet_ok (split_chars "." s)
  end.

(** [_parse_hextet] returns: one to four hexadecimal digits *)
Definition hextet_ok (h : list ascii) : bool :=
  negb (bool_decide (h = [])) && forallb is_hex h && (length h <=? 4)%nat.

(** the indices from 1 to [len - 2] at which [parts] is empty *)
Definition inner_empties (parts : list (list ascii)) : list nat :=
  List.filter (fun i => bool_decide (parts !! i = Some []))
    (seq 1 (length parts - 2)).

(** [_ip_int_from_string] of [IPv6Address] returns *)
Definition ipv6_groups_ok (s : list ascii) : bool :=
  match s with
  | [] => false
  | _ =>
      let parts := split_chars ":" s in
      if (length parts <? 3)%nat then false
      else
        let last_part := List.last parts [] in
        let with_suffix := bool_decide ("."%char ∈ last_part) in
        (* an IPv4 suffix is replaced by two hextets *)
        let parts :=
          if with_suffix
          then removelast parts ++ [chars "0"; chars "0"] else parts in
        if with_suffix && negb (ipv4_ok last_part) then false
        else if (9 <? length parts)%nat then false
        else
          let first_empty := bool_decide (parts !! 0%nat = Some []) in
          let last_empty := bool_decide (List.last parts [] = []) in
          match inner_empties parts with
          | _ :: _ :: _ => false
          | [skip_index] =>
              let parts_hi :=
                if first_empty then (skip_index - 1)%nat else skip_index in
              let parts_lo :=
                if last_empty then (length parts - skip_index - 1 - 1)%nat
                else (length parts - skip_index - 1)%nat in
              if first_empty && negb (parts_hi =? 0)%nat then false
              else if last_empty && negb (parts_lo =? 0)%nat then false
              else if (8 <=? parts_hi + parts_lo)%nat then false
              else forallb hextet_ok (take parts_hi parts)
                   && forallb hextet_ok (drop (length parts - parts_lo) parts)
          | [] =>
              (length parts =? 8)%nat && negb first_empty && negb last_empty
              && forallb hextet_ok parts
          end
  end.

(** [IPv6Address(s)] returns: an optional scope after [%], not empty and
    free of [%], and the groups before it *)
Definition ipv6_ok (s : list ascii) : bool :=
  negb (bool_decide ("/"%char ∈ s))
  && (if bool_decide ("%"%char ∈ s)
      then negb (bool_decide (after "%" s = []))
           && negb (bool_decide ("%"%char ∈ after "%" s))
      else true)
  && ipv6_groups_ok (before "%" s).

End Ipaddress.

(* ===================================================================== *)
(** * [urllib.parse]: [urlparse] and [urljoin]

    The model follows the code of the library (CPython 3.11 with the check
    of bracketed hosts of its later releases).  The library raises
    [ValueError] on a host part with one square bracket and not the other,
    or with brackets around something that is no IPv6 or IPvFuture literal;
    the functions below return [None] there.  (Its third check, of host
    parts that change under NFKC normalisation, never raises on code points
    below 256.) *)
(* ===================================================================== *)

Module Urllib.

Import Py.

Definition uses_relative : list string :=
  [ ""; "ftp"; "http"; "gopher"; "nntp"; "imap"; "wais"; "file"; "https";
    "shttp"; "mms"; "prospero"; "rtsp"; "rtspu"; "sftp"; "svn"; "svn+ssh";
    "ws"; "wss" ].

Definition uses_netloc : list string :=
  [ ""; "ftp"; "http"; "gopher"; "nntp"; "telnet"; "imap"; "wais"; "file";
    "mms"; "https"; "shttp"; "snews"; "prospero"; "rtsp"; "rtspu"; "rsync";
    "svn"; "svn+ssh"; "sftp"; "nfs"; "git"; "git+ssh"; "ws"; "wss" ].

Definition uses_params : list string :=
  [ ""; "ftp"; "hdl"; "prospero"; "http"; "imap"; "https"; "shttp"; "rtsp";
    "rtspu"; "sip"; "sips"; "mms"; "sftp"; "tel" ].

Definition scheme_char (c : ascii) : bool :=
  is_ascii_alpha c || is_digit c
  || bool_decide (c = "+"%char) || bool_decide (c = "-"%char)
  || bool_decide (c = "."%char).

(** the characters [urlsplit] strips on the left: C0 controls and space *)
Definition c0_or_space (c : ascii) : bool := code c <=? 32.

Fixpoint lstrip_c0 (l : list ascii) : list ascii :=
  match l with
  | c :: l' => if c0_or_space c then lstrip_c0 l' else l
  | [] => []
  end.

(** tab, line feed and carriage return are removed wherever they stand *)
Definition unsafe_char (c : ascii) : bool :=
  (code c =? 9) || (code c =? 10) || (code c =? 13).

Record SplitResult := {
  scheme : string;
  netloc : string;
  path : string;
  query : string;
  fragment : string
}.

(** the longest run of hexadecimal digits at the head *)
Fixpoint take_while_hex (l : list ascii) : list ascii :=
  match l with
  | c :: l' => if Ipaddress.is_hex c then c :: take_while_hex l' else []
  | [] => []
  end.

(** [_splitnetloc(url, 2)] on the text after the two slashes: the host part
    ends at the first of [/], [?] and [#]. *)
Fixpoint splitnetloc (l : list ascii) : list ascii * list ascii :=
  match l with
  | [] => ([], [])
  | c :: l' =>
      if bool_decide (c = "/"%char) || bool_decide (c = "?"%char)
         || bool_decide (c = "#"%char)
      then ([], l)
      else let '(n, r) := splitnetloc l' in (c :: n, r)
  end.

(** [_check_bracketed_host] returns: an IPvFuture literal
    ([\Av[a-fA-F0-9]+\..+\Z]) or an IPv6 address *)
Definition check_bracketed_host (hostname : list ascii) : bool :=
  match hostname with
  | "v"%char :: rest =>
      let hexrun := take_while_hex rest in
      negb (bool_decide (hexrun = []))
      && match drop (length hexrun) rest with
         | "."%char :: c :: tail => forallb (fun x => negb (code x =? 10)) (c :: tail)
         | _ => false
         end
  | _ => Ipaddress.ipv6_ok hostname
  end.

(** [_check_bracketed_netloc] returns *)
Definition check_bracketed_netloc (nl : list ascii) : bool :=
  let hostname_and_port := after_last "@" nl in
  if bool_decide ("["%char ∈ hostname_and_port) then
    if negb (bool_decide (before "[" hostname_and_port = [])) then false
    else
      let bracketed := after "[" hostname_and_port in
      let port := after "]" bracketed in
      if negb (bool_decide (port = [])) && negb (starts (chars ":") port)
      then false
      else check_bracketed_host (before "]" bracketed)
  else check_bracketed_host (before ":" hostname_and_port).

(** the checks [urlsplit] makes of the host part *)
Definition netloc_ok (nl : list ascii) : bool :=
  let opens := bool_decide ("["%char ∈ nl) in
  let closes := bool_decide ("]"%char ∈ nl) in
  if (opens && negb closes) || (closes && negb opens) then false
  else if opens && closes then check_bracketed_netloc nl
  else true.

(** [urlsplit(url, scheme)]; [None] when it raises [ValueError] *)
Definition urlsplit (url default_scheme : string) : option SplitResult :=
  let u := filter (fun c => negb (unsafe_char c)) (lstrip_c0 (chars url)) in
  let '(sch, u) :=
    match u with
    | c :: _ =>
        let cand := before ":" u in
        if bool_decide (":"%char ∈ u) && is_ascii_alpha c
           && forallb scheme_char cand
        then (lower (str cand), after ":" u)
        else (default_scheme, u)
    | [] => (default_scheme, u)
    end in
  let '(nl, u) :=
    match u with
    | "/"%char :: "/"%char :: rest => splitnetloc rest
    | _ => ([], u)
    end in
  if negb (netloc_ok nl) then None
  else
    let '(u, frag) :=
      if bool_decide ("#"%char ∈ u) then (before "#" u, after "#" u)
      else (u, []) in
    let '(u, q) :=
      if bool_decide ("?"%char ∈ u) then (before "?" u, after "?" u)
      else (u, []) in
    Some {| scheme := sch; netloc := str nl; path := str u;
            query := str q; fragment := str frag |}.

Record ParseResult := {
  p_scheme : string;
  p_netloc : string;
  p_path : string;
  p_params : string;
  p_query : string;
  p_fragment : string
}.

(** [_splitparams]: cut at the first [;] of the last path segment. *)
Definition splitparams (u : list ascii) : list ascii * list ascii :=
  let last := after_last "/" u in
  if bool_decide (";"%char ∈ last)
  then (take (length u - length last) u ++ before ";" last, after ";" last)
  else (u, []).

(** [urlparse(url, scheme)]; [None] when it raises [ValueError] *)
Definition urlparse (url default_scheme : string) : option ParseResult :=
  r ← urlsplit url default_scheme;
  let u := chars (path r) in
  let '(u, params) :=
    if bool_decide (scheme r ∈ uses_params) && bool_decide (";"%char ∈ u)
    then splitparams u else (u, []) in
  Some {| p_scheme := scheme r; p_netloc := netloc r; p_path := str u;
          p_params := str params; p_query := query r;
          p_fragment := fragment r |}.

Definition urlunsplit (sch nl u q frag : string) : string :=
  let u :=
    if truthy nl
       || (truthy sch && bool_decide (sch ∈ uses_netloc)
           && negb (startswith "//" u))
    then "//" +:+ nl +:+ (if truthy u && negb (startswith "/" u)
                          then "/" +:+ u else u)
    else u in
  let u := if truthy sch then sch +:+ ":" +:+ u else u in
  let u := if truthy q then u +:+ "?" +:+ q else u in
  if truthy frag then u +:+ "#" +:+ frag else u.

Definition urlunparse (r : ParseResult) : string :=
  let u := if truthy (p_params r) then p_path r +:+ ";" +:+ p_params r
           else p_path r in
  urlunsplit (p_scheme r) (p_netloc r) u (p_query r) (p_fragment r).

(** [segments[1:-1] = filter(None, segments[1:-1])] *)
Definition drop_inner_empty (segs : list (list ascii)) : list (list ascii) :=
  match segs with
  | s0 :: rest =>
      match reverse rest with
      | sl :: mid_rev =>
          s0 :: filter (fun s => s <> []) (reverse mid_rev) ++ [sl]
      | [] => segs
      end
  | [] => []
  end.

(** the loop over the segments: [..] pops, [.] is skipped *)
Definition resolve_segments (segs : list (list ascii)) : list (list ascii) :=
  foldl (fun acc seg =>
           if bool_decide (seg = chars "..") then take (length acc - 1) acc
           else if bool_decide (seg = chars ".") then acc
           else acc ++ [seg]) [] segs.

(** [urljoin(base, url)]; [None] when it raises [ValueError] *)
Definition urljoin (base url : string) : option string :=
  if negb (truthy base) then Some url
  else if negb (truthy url) then Some base
  else
    b ← urlparse base "";
    r ← urlparse url (p_scheme b);
    Some
      (if negb (bool_decide (p_scheme r = p_scheme b))
          || negb (bool_decide (p_scheme r ∈ uses_relative))
       then url
       else if bool_decide (p_scheme r ∈ uses_netloc) && truthy (p_netloc r)
       then urlunparse r
       else
         let nl := if bool_decide (p_scheme r ∈ uses_netloc)
                   then p_netloc b else p_netloc r in
         if negb (truthy (p_path r)) && negb (truthy (p_params r)) then
           urlunparse {| p_scheme := p_scheme r; p_netloc := nl;
                         p_path := p_path b; p_params := p_params b;
                         p_query := if truthy (p_query r) then p_query r
                                    else p_query b;
                         p_fragment := p_fragment r |}
         else
           let base_parts := split_chars "/" (chars (p_path b)) in
           let base_parts :=
             match reverse base_parts with
             | [] :: _ => base_parts
             | _ => take (length base_parts - 1) base_parts
             end in
           let segments :=
             if startswith "/" (p_path r)
             then split_chars "/" (chars (p_path r))
             else drop_inner_empty
                    (base_parts ++ split_chars "/" (chars (p_path r))) in
           let resolved := resolve_segments segments in
           let resolved :=
             match reverse segments with
             | s :: _ =>
                 if bool_decide (s = chars ".") || bool_decide (s = chars "..")
                 then resolved ++ [[]] else resolved
             | [] => resolved
             end in
           let joined := str (join_chars (chars "/") resolved) in
           urlunparse {| p_scheme := p_scheme r; p_netloc := nl;
                         p_path := if truthy joined then joined else "/";
                         p_params := p_params r; p_query := p_query r;
                         p_fragment := p_fragment r |}).

End Urllib.

(* ===================================================================== *)
(** * [os.path] (POSIX) *)
(* ===================================================================== *)

Module OsPath.

Import Py.

(** [os.path.basename(p)]: the text after the last slash *)
Definition basename (p : string) : string := str (after_last "/" (chars p)).

(** The second component of [os.path.splitext(p)]: the text from the last
    dot of the last path component, provided some character other than a
    dot stands before that dot in the component; empty otherwise. *)
Definition splitext_ext (p : string) : string :=
  let b := after_last "/" (chars p) in
  if bool_decide ("."%char ∈ b) then
    if forallb (fun c => bool_decide (c = "."%char)) (before_last "." b)
    then ""
    else str ("."%char :: after_last "." b)
  else "".

End OsPath.

(* ===================================================================== *)
(** * Exceptions *)
(* ===================================================================== *)

Inductive exn :=
  | BrowserError     (* raised by the browser-automation library *)
  | RequestError     (* raised by [self.session.get] *)
  | OSError          (* raised by the file system *)
  | ValueError.      (* raised by [urljoin] and [urlparse] *)

(** What a call gives: the value it returns or the exception it raises. *)
Inductive res (A : Type) :=
  | Ret (a : A)
  | Raise (e : exn).
Arguments Ret {A} a.
Arguments Raise {A} e.

Global Instance res_ret : MRet res := @Ret.
Global Instance res_bind : MBind res :=
  fun A B k r => match r with Ret a => k a | Raise e => Raise e end.

(* ===================================================================== *)
(** * The environment of a job *)
(* ===================================================================== *)

(** What [self.session.get(url, timeout=15, verify=False)] hands back. *)
Record Response := {
  status_code : Z;
  content : string;        (* [response.content], the payload *)
  text : string;           (* [response.text], the payload decoded *)
  resp_content_type : string   (* [response.headers.get('content-type', '')] *)
}.

Class Env := {
  (** [urllib.parse.urljoin(base, url)]; [None] when it raises
      [ValueError] *)
  urljoin : string -> string -> option string;
  (** [urllib.parse.urlparse(url)]; [None] when it raises [ValueError] *)
  urlparse : string -> option Urllib.ParseResult;
  (** [mimetypes.guess_extension]; the table is the machine's.  An
      extension it gives carries its leading dot. *)
  guess_extension : string -> option string;
  (** [bytes.decode('utf-8', errors='ignore')] *)
  decode_utf8 : string -> string;
  (** [str.encode('utf-8')] *)
  encode_utf8 : string -> string;
  (** The answer to the [n]-th request sent through [self.session] (counting
      from 0) when it asks for [url]; [None] when the call raises (timeout,
      transport error, no session yet). *)
  session_get : nat -> string -> option Response
}.

(* ===================================================================== *)
(** * Filenames: [_get_extension] and [_generate_filename] *)
(* ===================================================================== *)

Section Filenames.

Context {E : Env}.

(** [urlparse(url)] as the code calls it *)
Definition parse (url : string) : res Urllib.ParseResult :=
  match urlparse url with
  | Some parsed => Ret parsed
  | None => Raise ValueError
  end.

Definition _get_extension (url content_type : string) : res string :=
  parsed ← parse url;
  let path := Urllib.p_path parsed in
  let ext := OsPath.splitext_ext path in
  if Py.truthy ext && (Py.len ext <=? 6)%nat then Ret ext
  else
    if Py.truthy content_type then
      let mime := Py.strip (Py.split_head ";" content_type) in
      match guess_extension mime with
      | Some guessed => if Py.truthy guessed then Ret guessed else Ret ""
      | None => Ret ""
      end
    else Ret "".

(** the class [[a-zA-Z0-9_-]] *)
Definition name_char (c : ascii) : bool :=
  Py.is_ascii_alpha c || Py.is_digit c
  || bool_decide (c = "_"%char) || bool_decide (c = "-"%char).

(** [re.sub(r'[^a-zA-Z0-9_-]', '_', s)] *)
Definition sanitize (s : string) : string :=
  Py.str ((fun c => if name_char c then c else "_"%char) <$> Py.chars s).

(** a lower-case hexadecimal digit *)
Definition hex_char (c : ascii) : bool :=
  Py.is_digit c || ((97 <=? Py.code c) && (Py.code c <=? 102)).

(** [hashlib.md5(url.encode()).hexdigest()[:12]] *)
Definition url_hash (url : string) : string :=
  Py.slice_to 12 (MD5.hexdigest url).

(** the [name] part of [_generate_filename], from the path of the URL *)
Definition base_name (path : string) : string :=
  let name := OsPath.basename path in
  if Py.truthy name then Py.slice_to 30 (sanitize (Py.split_head "." name))
  else "resource".

Definition _generate_filename (url content_type : string) : res string :=
  ext ← _get_extension url content_type;
  let url_hash := url_hash url in
  parsed ← parse url;
  let name := base_name (Urllib.p_path parsed) in
  Ret (name +:+ "_" +:+ url_hash +:+ ext).

End Filenames.

(* ===================================================================== *)
(** * The job: state, effects, exceptions *)
(* ===================================================================== *)

(** An entry of [self.network_resources]. *)
Record NetEntry := { body : string; content_type : string }.

(** The output directory tree: a path is the list of its components. *)
Inductive fnode := FDir | FFile (data : string).

(** Lines of the progress log ([self.log]); the text of a caught exception
    is left out. *)
Inductive message :=
  | MsgStartBrowser
  | MsgLoading (u : string)
  | MsgLoadWarning
  | MsgScrolling
  | MsgScrollContainer (sel : string)
  | MsgScrollError
  | MsgUsingIframe
  | MsgCaptured (n : nat)
  | MsgProcessing
  | MsgStylesheets
  | MsgInlineStyles
  | MsgScripts
  | MsgImages
  | MsgStyleAttributes
  | MsgNavigation
  | MsgDone (n : nat).

(** What the job does to the world, in order. *)
Inductive event :=
  | EvGet (u : string)                       (* a request through the session *)
  | EvWrite (p : list string) (data : string) (* a file written *)
  | EvLog (m : message).

Record Job := {
  url : string;
  output_dir : list string;
  assets_dir : list string;
  resource_cache : gmap string string;
  network_resources : gmap string NetEntry;
  base_url : string;
  fs : gmap (list string) fnode;
  trace : list event
}.

Definition set_cache (f : gmap string string -> gmap string string) (j : Job) : Job :=
  {| url := url j; output_dir := output_dir j; assets_dir := assets_dir j;
     resource_cache := f (resource_cache j);
     network_resources := network_resources j; base_url := base_url j;
     fs := fs j; trace := trace j |}.

Definition set_fs (f : gmap (list string) fnode -> gmap (list string) fnode) (j : Job) : Job :=
  {| url := url j; output_dir := output_dir j; assets_dir := assets_dir j;
     resource_cache := resource_cache j;
     network_resources := network_resources j; base_url := base_url j;
     fs := f (fs j); trace := trace j |}.

Definition set_base_url (b : string) (j : Job) : Job :=
  {| url := url j; output_dir := output_dir j; assets_dir := assets_dir j;
     resource_cache := resource_cache j;
     network_resources := network_resources j; base_url := b;
     fs := fs j; trace := trace j |}.

Definition set_network (f : gmap string NetEntry -> gmap string NetEntry) (j : Job) : Job :=
  {| url := url j; output_dir := output_dir j; assets_dir := assets_dir j;
     resource_cache := resource_cache j;
     network_resources := f (network_resources j); base_url := base_url j;
     fs := fs j; trace := trace j |}.

Definition emit (e : event) (j : Job) : Job :=
  {| url := url j; output_dir := output_dir j; assets_dir := assets_dir j;
     resource_cache := resource_cache j;
     network_resources := network_resources j; base_url := base_url j;
     fs := fs j; trace := trace j ++ [e] |}.

(** A method of the job: it reads and updates the job and either returns or
    raises; what it did before raising stays done. *)
Definition M (A : Type) : Type := Job -> res A * Job.

Definition ret {A} (a : A) : M A := fun j => (Ret a, j).

Definition raise {A} (e : exn) : M A := fun j => (Raise e, j).

Definition bind {A B} (c : M A) (k : A -> M B) : M B :=
  fun j => match c j with
           | (Ret a, j') => k a j'
           | (Raise e, j') => (Raise e, j')
           end.

Definition get : M Job := fun j => (Ret j, j).

Definition modify (f : Job -> Job) : M unit := fun j => (Ret tt, f j).

(** [try: c  except Exception: h] *)
Definition try_except {A} (c : M A) (h : M A) : M A :=
  fun j => match c j with
           | (Ret a, j') => (Ret a, j')
           | (Raise _, j') => h j'
           end.

Global Instance M_ret : MRet M := @ret.
Global Instance M_bind : MBind M := fun A B k c => bind c k.

(** a call that does not touch the job: a library function, the browser *)
Definition lift {A} (r : res A) : M A := fun j => (r, j).

(** [self.log(message)] *)
Definition log (m : message) : M unit := modify (emit (EvLog m)).

Definition is_get (e : event) : bool :=
  match e with EvGet _ => true | _ => false end.

Definition is_write (e : event) : bool :=
  match e with EvWrite _ _ => true | _ => false end.

(** the requests sent so far *)
Definition requests (j : Job) : list event := List.filter is_get (trace j).

(** the files written so far *)
Definition writes (j : Job) : list event := List.filter is_write (trace j).

(** the parent directory of a path *)
Definition parent (p : list string) : list string := take (length p - 1) p.

(** a directory is there: the root of relative paths always is *)
Definition is_dir (t : gmap (list string) fnode) (p : list string) : bool :=
  match p with
  | [] => true
  | _ => match t !! p with Some FDir => true | _ => false end
  end.

(** [with open(filepath, 'wb') as f: f.write(content)]: the directory must
    be there and the name must not be a directory's. *)
Definition write_file (p : list string) (data : string) : M unit :=
  j ← get;
  if is_dir (fs j) (parent p) && negb (is_dir (fs j) p)
  then modify (fun j => emit (EvWrite p data) (set_fs <[p := FFile data]> j))
  else raise OSError.

Section Resolver.

Context {E : Env}.

(** [self.session.get(url, timeout=15, verify=False)] *)
Definition http_get (u : string) : M Response :=
  j ← get;
  modify (emit (EvGet u));;
  match session_get (length (requests j)) u with
  | Some r => ret r
  | None => raise RequestError
  end.

Definition _save_resource (url content content_type : string) : M (option string) :=
  j ← get;
  match resource_cache j !! url with
  | Some p => ret (Some p)
  | None =>
      if negb (Py.truthy content) then ret None
      else
        filename ← lift (_generate_filename url content_type);
        let filepath := assets_dir j ++ [filename] in
        write_file filepath content;;
        let rel_path := "assets/" +:+ filename in
        modify (set_cache <[url := rel_path]>);;
        ret (Some rel_path)
  end.

(** [not url or url.startswith('data:') or url.startswith('blob:') or
    url.startswith('#')] *)
Definition not_fetchable (url : string) : bool :=
  negb (Py.truthy url) || Py.startswith "data:" url
  || Py.startswith "blob:" url || Py.startswith "#" url.

Definition _download_fallback (url : string) : M (option string) :=
  j ← get;
  match resource_cache j !! url with
  | Some p => ret (Some p)
  | None =>
      if not_fetchable url then ret (Some url)
      else
        try_except
          (response ← http_get url;
           if status_code response =? 200 then
             _save_resource url (content response) (resp_content_type response)
           else ret None)
          (ret None)
  end.

(** [base or self.base_url] *)
Definition base_or (base : option string) (j : Job) : string :=
  match base with
  | Some b => if Py.truthy b then b else base_url j
  | None => base_url j
  end.

(** [urljoin(base, url)] as the code calls it *)
Definition join (base url : string) : M string :=
  match urljoin base url with
  | Some abs_url => ret abs_url
  | None => raise ValueError
  end.

Definition _get_resource (url : string) (base : option string) : M (option string) :=
  if not_fetchable url then ret (Some url)
  else
    j ← get;
    abs_url ← join (base_or base j) url;
    match resource_cache j !! abs_url with
    | Some p => ret (Some p)
    | None =>
        match network_resources j !! abs_url with
        | Some res => _save_resource abs_url (body res) (content_type res)
        | None =>
            local_path ← _download_fallback abs_url;
            match local_path with
            | Some p => if Py.truthy p then ret (Some p) else ret (Some url)
            | None => ret (Some url)
            end
        end
    end.

End Resolver.

(* ===================================================================== *)
(** * Runs of the resolver *)
(* ===================================================================== *)

Global Instance message_eq_dec : EqDecision message.
Proof. solve_decision. Defined.

Global Instance event_eq_dec : EqDecision event.
Proof. solve_decision. Defined.

Global Instance fnode_eq_dec : EqDecision fnode.
Proof. solve_decision. Defined.

(** The job after [_save_resource] has written [data] for [u] under the
    name [f]. *)
Definition stored (u f data : string) (j : Job) : Job :=
  set_cache <[u := "assets/" +:+ f]>
    (emit (EvWrite (assets_dir j ++ [f]) data)
       (set_fs <[assets_dir j ++ [f] := FFile data]> j)).

(** The file [f] can be written into the assets directory. *)
Definition writable (j : Job) (f : string) : bool :=
  is_dir (fs j) (parent (assets_dir j ++ [f]))
  && negb (is_dir (fs j) (assets_dir j ++ [f])).

(** [j'] continues [j]: the trace grows, what the cache holds stays, no
    request is sent for a URL the cache held, and every cache entry gained is
    matched by one file written. *)
Definition extends (j j' : Job) : Prop :=
  exists evs,
    trace j' = trace j ++ evs
    /\ resource_cache j ⊆ resource_cache j'
    /\ (forall u, EvGet u ∈ evs -> resource_cache j !! u = None)
    /\ size (resource_cache j') =
       (size (resource_cache j) + length (List.filter is_write evs))%nat
    /\ network_resources j' = network_resources j
    /\ base_url j' = base_url j
    /\ assets_dir j' = assets_dir j.

(** The third tier fails: the request raises or its status is not 200. *)
Definition fetch_fails (r : option Response) : Prop :=
  match r with
  | None => True
  | Some resp => status_code resp <> 200
  end.

(** A method that only ever continues the job it is given. *)
Definition steady {A} (c : M A) : Prop := forall j, extends j (snd (c j)).

(** [j'] is a later state of the job [j]: the trace grows, what the cache
    holds stays, and every cache entry gained is matched by one file
    written. *)
Definition grows (j j' : Job) : Prop :=
  exists evs,
    trace j' = trace j ++ evs
    /\ resource_cache j ⊆ resource_cache j'
    /\ size (resource_cache j') =
       (size (resource_cache j) + length (List.filter is_write evs))%nat
    /\ assets_dir j' = assets_dir j.

(** A method that takes the job to a later state, however it ends. *)
Definition keeps {A} (c : M A) : Prop := forall j, grows j (snd (c j)).

Section Runs.

Context {E : Env}.

(** One reference after the other, as the passes over the document do. *)
Fixpoint resolve_all (refs : list (string * option string)) : M (list (option string)) :=
  match refs with
  | [] => mret []
  | (u, b) :: rest =>
      r ← _get_resource u b;
      rs ← resolve_all rest;
      mret (r :: rs)
  end.

(** The payload the tiers below the cache can obtain for an absolute URL,
    with its declared content type: a captured response that is not empty,
    else the answer to a request when it has status 200 and is not empty. *)
Definition obtainable (j : Job) (abs_url : string) : option (string * string) :=
  match network_resources j !! abs_url with
  | Some e =>
      if Py.truthy (body e) then Some (body e, content_type e) else None
  | None =>
      if not_fetchable abs_url then None
      else match session_get (length (requests j)) abs_url with
           | Some resp =>
               if (status_code resp =? 200) && Py.truthy (content resp)
               then Some (content resp, resp_content_type resp)
               else None
           | None => None
           end
  end.

End Runs.

(** How many requests for [u] a trace holds. *)
Definition fetches (u : string) (t : list event) : nat :=
  length (List.filter (fun e => bool_decide (e = EvGet u)) t).

(* ===================================================================== *)
(** * The output directory: [os.path.exists], [shutil.rmtree],
      [os.makedirs] and the constructor *)
(* ===================================================================== *)

(** [os.path.exists(p)]; the empty path names nothing. *)
Definition path_exists (t : gmap (list string) fnode) (p : list string) : bool :=
  match p with
  | [] => false
  | _ => bool_decide (is_Some (t !! p))
  end.

(** [shutil.rmtree(p)]: a directory goes with all that is below it;
    anything else raises. *)
Definition rmtree (t : gmap (list string) fnode) (p : list string)
  : res (gmap (list string) fnode) :=
  match t !! p with
  | Some FDir => Ret (filter (fun kv => ~ p `prefix_of` kv.1) t)
  | _ => Raise OSError
  end.

(** [os.makedirs(p)] below the directory [above]: missing directories are
    made from the top; a file on the way, or the last component being there
    already, raises. *)
Fixpoint makedirs_from (t : gmap (list string) fnode) (above todo : list string)
  : res (gmap (list string) fnode) :=
  match todo with
  | [] => Ret t
  | c :: rest =>
      let p := above ++ [c] in
      match t !! p, rest with
      | Some FDir, _ :: _ => makedirs_from t p rest
      | Some _, _ => Raise OSError
      | None, _ => makedirs_from (<[p := FDir]> t) p rest
      end
  end.

Definition makedirs (t : gmap (list string) fnode) (p : list string)
  : res (gmap (list string) fnode) :=
  match p with
  | [] => Raise OSError
  | _ => makedirs_from t [] p
  end.

(** [WebsiteDownloader.__init__(url, output_dir)], run on the directory
    tree [t]: the job it makes, or the exception it raises. *)
Definition __init__ (url : string) (output_dir : list string)
    (t : gmap (list string) fnode) : res Job :=
  let assets_dir := output_dir ++ ["assets"] in
  match (if path_exists t output_dir then rmtree t output_dir else Ret t) with
  | Raise e => Raise e
  | Ret t1 =>
      match makedirs t1 assets_dir with
      | Raise e => Raise e
      | Ret t2 =>
          Ret {| url := url; output_dir := output_dir;
                 assets_dir := assets_dir;
                 resource_cache := ∅; network_resources := ∅;
                 base_url := url; fs := t2; trace := [] |}
      end
  end.

(** Every entry of the tree lies in a directory. *)
Definition tree_wf (t : gmap (list string) fnode) : Prop :=
  map_Forall (fun p _ => is_dir t (parent p) = true) t.

Global Instance tree_wf_dec t : Decision (tree_wf t).
Proof. unfold tree_wf. apply _. Defined.

(* ===================================================================== *)
(** * A concrete environment and sample jobs *)
(* ===================================================================== *)

(** A few lines of the [mimetypes] table that every machine has. *)
Definition mime_table : list (string * string) :=
  [ ("text/css", ".css"); ("text/html", ".html"); ("image/png", ".png");
    ("image/jpeg", ".jpg"); ("image/gif", ".gif") ].

Definition table_guess (mime : string) : option string :=
  snd <$> List.find (fun kv => bool_decide (kv.1 = Py.lower mime)) mime_table.

(** The library models of this file with the network [net]; payloads are
    ASCII text, on which encoding and decoding change nothing. *)
Definition library_env (net : nat -> string -> option Response) : Env :=
  {| urljoin := Urllib.urljoin;
     urlparse := fun u => Urllib.urlparse u "";
     guess_extension := table_guess;
     decode_utf8 := fun s => s;
     encode_utf8 := fun s => s;
     session_get := net |}.

(** no server answers *)
Definition offline : nat -> string -> option Response := fun _ _ => None.

(** every request is answered 404 *)
Definition not_found : nat -> string -> option Response :=
  fun _ _ => Some {| status_code := 404; content := "gone"; text := "gone";
                     resp_content_type := "text/plain" |}.

(** one PNG is served, everything else is missing *)
Definition one_image : nat -> string -> option Response :=
  fun _ u =>
    if bool_decide (u = "https://a.test/img/y.png")
    then Some {| status_code := 200; content := "PNGDATA"; text := "PNGDATA";
                 resp_content_type := "image/png" |}
    else not_found 0%nat u.

(** the job [__init__] makes for [page] in [downloads/job] *)
Definition new_job (page : string) : Job :=
  {| url := page; output_dir := ["downloads"; "job"];
     assets_dir := ["downloads"; "job"; "assets"];
     resource_cache := ∅; network_resources := ∅; base_url := page;
     fs := <[ ["downloads"; "job"; "assets"] := FDir ]>
             (<[ ["downloads"; "job"] := FDir ]>
                (<[ ["downloads"] := FDir ]> ∅));
     trace := [] |}.

(** the same job after the browser captured [entries] *)
Definition captured_job (page : string) (entries : list (string * NetEntry)) : Job :=
  set_network (fun _ => list_to_map entries) (new_job page).

(* ===================================================================== *)
(** * Stylesheet text: [_rewrite_css_urls] *)
(* ===================================================================== *)

(** [f] on every element of a list, left to right *)
Fixpoint mapM {A B} (f : A -> M B) (l : list A) : M (list B) :=
  match l with
  | [] => mret []
  | a :: l' =>
      b ← f a;
      bs ← mapM f l';
      mret (b :: bs)
  end.

(** the double quote *)
Definition dquote : ascii := "034"%char.

(** A stylesheet text cut at the matches of [url\(\s*([^)]+)\s*\)]: a
    character outside every match, or a match with the text that stands
    between its parentheses. *)
Inductive piece :=
  | Lit (c : ascii)
  | UrlToken (inner : list ascii).

(** The text up to the first closing parenthesis, when there is one. *)
Fixpoint upto_paren (l : list ascii) : option (list ascii) :=
  match l with
  | [] => None
  | c :: l' =>
      if decide (c = ")"%char) then Some []
      else match upto_paren l' with
           | Some x => Some (c :: x)
           | None => None
           end
  end.

(** A match that starts at the head of [l]: [url(], at least one character
    other than a closing parenthesis, and the closing parenthesis. *)
Definition url_match (l : list ascii) : option (list ascii) :=
  if Py.starts (Py.chars "url(") l then
    match upto_paren (drop 4 l) with
    | Some [] => None
    | Some inner => Some inner
    | None => None
    end
  else None.

(** [re.sub] goes through the text from the left and resumes after each
    match; [skip] counts the characters of the last match still to pass. *)
Fixpoint css_pieces (skip : nat) (l : list ascii) : list piece :=
  match l with
  | [] => []
  | c :: l' =>
      match skip with
      | S k => css_pieces k l'
      | O =>
          match url_match l with
          | Some inner => UrlToken inner :: css_pieces (length inner + 4) l'
          | None => Lit c :: css_pieces 0 l'
          end
      end
  end.

(** [match.group(0)] *)
Definition full_match (inner : list ascii) : list ascii :=
  Py.chars "url(" ++ inner ++ Py.chars ")".

(** a single or a double quote *)
Definition quote_char (c : ascii) : bool :=
  bool_decide (c = "'"%char) || bool_decide (c = dquote).

(** The target of a token: [match.group(1).strip()] without its quotes.
    ([group(1)] is [inner] less its leading blanks, or one blank when
    [inner] is blank; stripped, both are [inner] stripped.) *)
Definition token_target (inner : list ascii) : string :=
  let url_content := Py.strip (Py.str inner) in
  if (Py.startswith "'" url_content || Py.starts [dquote] (Py.chars url_content))
     && (Py.endswith "'" url_content
         || Py.starts [dquote] (rev (Py.chars url_content)))
  then Py.strip_ends url_content
  else url_content.

Section Css.

Context {E : Env}.

(** the function [replacer] of [_rewrite_css_urls] *)
Definition replacer (css_url : string) (inner : list ascii) : M (list ascii) :=
  let url_content := token_target inner in
  if negb (Py.truthy url_content) || Py.startswith "data:" url_content
  then mret (full_match inner)
  else
    abs_url ← join css_url url_content;
    local_path ← _get_resource abs_url None;
    match local_path with
    | Some p =>
        if Py.truthy p && Py.startswith "assets/" p
        then mret (Py.chars "url(" ++ [dquote] ++ Py.chars (OsPath.basename p)
                   ++ [dquote] ++ Py.chars ")")
        else mret (full_match inner)
    | None => mret (full_match inner)
    end.

Definition rewrite_piece (css_url : string) (p : piece) : M (list ascii) :=
  match p with
  | Lit c => mret [c]
  | UrlToken inner => replacer css_url inner
  end.

Definition _rewrite_css_urls (css_content css_url : string) : M string :=
  parts ← mapM (rewrite_piece css_url) (css_pieces 0 (Py.chars css_content));
  mret (Py.str (concat parts)).

End Css.

(* ===================================================================== *)
(** * The document tree *)
(* ===================================================================== *)

(** A parsed document: tags with their attributes in the order the
    dictionary keeps them, and text.  Names are lower-case, as the parser
    makes them; the value of a multi-valued attribute such as [rel] is kept
    as written and split where it is read. *)
#[warnings="-register-all"]
Inductive node :=
  | Tag (name : string) (attrs : list (string * string)) (children : list node)
  | Text (s : string).

(** [elem.get(k)] *)
Fixpoint attr_get (k : string) (attrs : list (string * string)) : option string :=
  match attrs with
  | [] => None
  | (k', v) :: rest => if decide (k' = k) then Some v else attr_get k rest
  end.

(** [elem[k] = v]: in place when the key is there, at the end otherwise *)
Fixpoint attr_set (k v : string) (attrs : list (string * string)) : list (string * string) :=
  match attrs with
  | [] => [(k, v)]
  | (k', v') :: rest =>
      if decide (k' = k) then (k, v) :: rest else (k', v') :: attr_set k v rest
  end.

(** [del elem[k]] *)
Definition attr_del (k : string) (attrs : list (string * string)) : list (string * string) :=
  filter (fun kv => kv.1 <> k) attrs.

(** [elem.get(k)] taken as a condition: there and not empty *)
Definition attr_truthy (k : string) (attrs : list (string * string)) : option string :=
  match attr_get k attrs with
  | Some v => if Py.truthy v then Some v else None
  | None => None
  end.

(** [s.split()]: the words between blanks *)
Fixpoint words_from (cur : list ascii) (l : list ascii) : list (list ascii) :=
  match l with
  | [] => match cur with [] => [] | _ => [rev cur] end
  | c :: l' =>
      if Py.isspace c
      then match cur with
           | [] => words_from [] l'
           | _ => rev cur :: words_from [] l'
           end
      else words_from (c :: cur) l'
  end.

Definition words (s : string) : list string := Py.str <$> words_from [] (Py.chars s).

(** The element at a position: the path of child indices from the root. *)
Fixpoint element_at (n : node) (pos : list nat) : option (string * list (string * string)) :=
  match n, pos with
  | Tag nm at_ _, [] => Some (nm, at_)
  | Tag _ _ ch, i :: pos' =>
      match ch !! i with
      | Some c => element_at c pos'
      | None => None
      end
  | Text _, _ => None
  end.

(** A pass that rewrites attributes, element by element in document
    order. *)
Fixpoint visit (f : string -> list (string * string) -> M (list (string * string)))
    (n : node) : M node :=
  match n with
  | Text s => mret (Text s)
  | Tag nm at_ ch =>
      at' ← f nm at_;
      ch' ← (fix go (l : list node) : M (list node) :=
               match l with
               | [] => mret []
               | c :: l' =>
                   c' ← visit f c;
                   l'' ← go l';
                   mret (c' :: l'')
               end) ch;
      mret (Tag nm at' ch')
  end.

(** The same for a pass that needs no job. *)
Fixpoint map_elements (f : string -> list (string * string) -> list (string * string))
    (n : node) : node :=
  match n with
  | Text s => Text s
  | Tag nm at_ ch => Tag nm (f nm at_) (map_elements f <$> ch)
  end.

(* ===================================================================== *)
(** * The passes of [process] over the document *)
(* ===================================================================== *)

(** [local_path and local_path != original]: the path to write, if any *)
Definition resolved_to (local_path : option string) (original : string) : option string :=
  match local_path with
  | Some p =>
      if Py.truthy p && negb (bool_decide (p = original)) then Some p else None
  | None => None
  end.

Definition lazy_attrs : list string :=
  [ "data-src"; "data-original"; "data-lazy-src"; "data-url"; "data-image";
    "data-bg" ].

Definition media_tags : list string :=
  [ "img"; "source"; "video"; "audio"; "picture"; "input" ].

(** pass 9: navigation links *)
Definition fix_anchor (nm : string) (attrs : list (string * string)) : list (string * string) :=
  if decide (nm = "a") then
    match attr_get "href" attrs with
    | Some href =>
        if decide (href = "/") then attr_set "href" "#" attrs
        else if Py.startswith "/" href && negb (Py.startswith "//" href)
             then attr_set "href" "#" attrs
             else attrs
    | None => attrs
    end
  else attrs.

Definition fix_navigation (doc : node) : node := map_elements fix_anchor doc.

Section Passes.

Context {E : Env}.

(** Resolve the value of [attr] and write the path over it when the
    resolution gave one: the pattern of passes 3, 4, 6, 7 and 8. *)
Definition rewrite_attr (attr value : string) (attrs : list (string * string))
  : M (list (string * string)) :=
  local_path ← _get_resource value None;
  match resolved_to local_path value with
  | Some p => mret (attr_set attr p attrs)
  | None => mret attrs
  end.

(** pass 1: external stylesheets *)
Definition process_stylesheet (nm : string) (attrs : list (string * string))
  : M (list (string * string)) :=
  if bool_decide (nm = "link")
     && bool_decide ("stylesheet" ∈ from_option words [] (attr_get "rel" attrs))
  then
    match attr_truthy "href" attrs with
    | None => mret attrs
    | Some href =>
        if Py.startswith "data:" href then mret attrs
        else
          j ← get;
          abs_url ← join (base_url j) href;
          let captured :=
            match network_resources j !! abs_url with
            | Some e => Some (decode_utf8 (body e))
            | None => None
            end in
          css_content ←
            (if Py.truthy (default "" captured) then mret captured
             else try_except
                    (response ← http_get abs_url;
                     if status_code response =? 200
                     then mret (Some (text response)) else mret captured)
                    (mret captured));
          match css_content with
          | Some css =>
              if Py.truthy css then
                css' ← _rewrite_css_urls css abs_url;
                local_path ← _save_resource abs_url (encode_utf8 css') "text/css";
                match local_path with
                | Some p =>
                    if Py.truthy p then mret (attr_set "href" p attrs)
                    else mret attrs
                | None => mret attrs
                end
              else mret attrs
          | None => mret attrs
          end
    end
  else mret attrs.

(** pass 2: [<style>] elements; the text of such an element is its one
    child *)
Fixpoint process_style_tags (n : node) : M node :=
  match n with
  | Text s => mret (Text s)
  | Tag nm at_ ch =>
      match bool_decide (nm = "style"), ch with
      | true, [Text s] =>
          if Py.truthy s then
            j ← get;
            s' ← _rewrite_css_urls s (base_url j);
            mret (Tag nm at_ [Text s'])
          else mret n
      | _, _ =>
          ch' ← (fix go (l : list node) : M (list node) :=
                   match l with
                   | [] => mret []
                   | c :: l' =>
                       c' ← process_style_tags c;
                       l'' ← go l';
                       mret (c' :: l'')
                   end) ch;
          mret (Tag nm at_ ch')
      end
  end.

(** pass 3: scripts *)
Definition process_script (nm : string) (attrs : list (string * string))
  : M (list (string * string)) :=
  if bool_decide (nm = "script") then
    match attr_truthy "src" attrs with
    | None => mret attrs
    | Some src =>
        if Py.startswith "data:" src then mret attrs
        else
          local_path ← _get_resource src None;
          match resolved_to local_path src with
          | Some p =>
              mret (attr_del "nonce"
                      (attr_del "crossorigin"
                         (attr_del "integrity" (attr_set "src" p attrs))))
          | None => mret attrs
          end
    end
  else mret attrs.

(** pass 4, lines 612-620: the loop over the lazy-loading attributes; it
    ends at the first one that is there with a value.  The second component
    is the variable [src]. *)
Fixpoint lazy_loop (names : list string) (attrs : list (string * string))
    (src : option string) : M (list (string * string) * option string) :=
  match names with
  | [] => mret (attrs, src)
  | attr :: rest =>
      match attr_truthy attr attrs with
      | Some lazy_src =>
          local_path ← _get_resource lazy_src None;
          match resolved_to local_path lazy_src with
          | Some p => mret (attr_del attr (attr_set "src" p attrs), None)
          | None => mret (attrs, src)
          end
      | None => lazy_loop rest attrs src
      end
  end.

(** pass 4, lines 609-625: [src] and the lazy-loading attributes *)
Definition process_src (attrs : list (string * string)) : M (list (string * string)) :=
  r ← lazy_loop lazy_attrs attrs (attr_get "src" attrs);
  match r.2 with
  | Some src =>
      if Py.truthy src && negb (Py.startswith "data:" src)
      then rewrite_attr "src" src r.1
      else mret r.1
  | None => mret r.1
  end.

(** one candidate of a [srcset] *)
Definition process_candidate (base : option string) (part : list ascii)
  : M (option (list ascii)) :=
  let part := Py.strip_chars part in
  match words_from [] part with
  | [] => mret None
  | url :: descriptor =>
      if Py.starts (Py.chars "data:") url then mret (Some part)
      else
        local_path ← _get_resource (Py.str url) base;
        match resolved_to local_path (Py.str url) with
        | Some p =>
            mret (Some (Py.strip_chars
                          (Py.chars p ++ Py.chars " "
                           ++ Py.join_chars (Py.chars " ") descriptor)))
        | None => mret (Some part)
        end
  end.

Definition _process_srcset (srcset : string) (base : option string) : M string :=
  if negb (Py.truthy srcset) then mret srcset
  else
    parts ← mapM (process_candidate base) (Py.split_chars "," (Py.chars srcset));
    match omap id parts with
    | [] => mret srcset
    | new_parts => mret (Py.str (Py.join_chars (Py.chars ", ") new_parts))
    end.

Definition process_srcset_attr (attr : string) (attrs : list (string * string))
  : M (list (string * string)) :=
  match attr_truthy attr attrs with
  | Some v =>
      v' ← _process_srcset v None;
      mret (attr_set attr v' attrs)
  | None => mret attrs
  end.

(** pass 4: media elements *)
Definition process_media (nm : string) (attrs : list (string * string))
  : M (list (string * string)) :=
  if bool_decide (nm ∈ media_tags) then
    attrs ← process_src attrs;
    attrs ← process_srcset_attr "srcset" attrs;
    attrs ← process_srcset_attr "data-srcset" attrs;
    if bool_decide (nm = "video") then
      match attr_truthy "poster" attrs with
      | Some poster => rewrite_attr "poster" poster attrs
      | None => mret attrs
      end
    else mret attrs
  else mret attrs.

(** pass 5: inline [style] attributes *)
Definition process_style_attr (nm : string) (attrs : list (string * string))
  : M (list (string * string)) :=
  match attr_get "style" attrs with
  | Some style =>
      if Py.contains "url(" style then
        j ← get;
        style' ← _rewrite_css_urls style (base_url j);
        mret (attr_set "style" style' attrs)
      else mret attrs
  | None => mret attrs
  end.

(** pass 6: icons and manifests *)
Definition process_icon_link (nm : string) (attrs : list (string * string))
  : M (list (string * string)) :=
  if bool_decide (nm = "link") then
    match attr_truthy "href" attrs, from_option words [] (attr_get "rel" attrs) with
    | Some href, (_ :: _) as rels =>
        let rel := Py.lower (Py.str (Py.join_chars (Py.chars " ") (Py.chars <$> rels))) in
        if (Py.contains "icon" rel || Py.contains "apple-touch" rel
            || Py.contains "manifest" rel)
           && negb (Py.startswith "data:" href)
        then rewrite_attr "href" href attrs
        else mret attrs
    | _, _ => mret attrs
    end
  else mret attrs.

(** pass 7: [<meta>] elements that name an image *)
Definition process_meta (nm : string) (attrs : list (string * string))
  : M (list (string * string)) :=
  if bool_decide (nm = "meta") then
    match attr_get "content" attrs with
    | Some content =>
        let prop :=
          match attr_truthy "property" attrs with
          | Some p => p
          | None => default "" (attr_get "name" attrs)
          end in
        if Py.contains "image" (Py.lower prop) && Py.truthy content
           && negb (Py.startswith "data:" content)
           && (Py.contains "http" content || Py.startswith "/" content)
        then rewrite_attr "content" content attrs
        else mret attrs
    | None => mret attrs
    end
  else mret attrs.

(** pass 8: [data-background] *)
Definition process_background (nm : string) (attrs : list (string * string))
  : M (list (string * string)) :=
  match attr_truthy "data-background" attrs with
  | Some bg =>
      if negb (Py.startswith "data:" bg)
      then rewrite_attr "data-background" bg attrs
      else mret attrs
  | None => mret attrs
  end.

(** what the passes 1 and 3 to 8 do to one element *)
Definition element_passes
  : list (string -> list (string * string) -> M (list (string * string))) :=
  [ process_stylesheet; process_script; process_media; process_style_attr;
    process_icon_link; process_meta; process_background ].

End Passes.

(* ===================================================================== *)
(** * The scroll probe: [_scroll_page] *)
(* ===================================================================== *)

(** What the live page answers to the probe.  Every call may raise. *)
Record Page := {
  (** the script that switches smooth scrolling off *)
  pg_disable_smooth : res unit;
  (** the selector of a custom scroll container, or [null] *)
  pg_scroll_container : res (option string);
  (** the [n]-th measurement of
      [Math.max(document.body.scrollHeight, document.documentElement.scrollHeight)]:
      [0] before the loop, [k] at the end of the [k]-th iteration *)
  pg_scroll_height : nat -> res Z;
  (** [window.innerHeight] *)
  pg_inner_height : res Z;
  (** the scroll to [pos] in the iteration numbered [k] (from 0) *)
  pg_scroll_to : nat -> Z -> res unit;
  (** [page.wait_for_timeout(600)] in the iteration numbered [k] *)
  pg_wait : nat -> res unit;
  (** the scroll back to the top and the wait after it *)
  pg_scroll_top : res unit;
  pg_wait_top : res unit
}.

Definition max_iterations : nat := 20.

(** the variables of the loop *)
Record scroll_state := {
  current : Z;
  total_height : Z;
  iteration : nat
}.

(** What the loop did: the positions it scrolled to, one per iteration it
    began, the variables at its end, and the exception that ended it, if
    any. *)
Record scroll_run := {
  positions : list Z;
  final : scroll_state;
  raised : option exn
}.

Definition began (pos : Z) (r : scroll_run) : scroll_run :=
  {| positions := pos :: positions r; final := final r; raised := raised r |}.

(** [while current < total_height and iteration < max_iterations: ...] *)
Equations scroll_loop (pg : Page) (viewport_height : Z) (s : scroll_state)
  : scroll_run by wf (max_iterations - iteration s)%nat lt :=
scroll_loop pg viewport_height s
  with decide (current s < total_height s /\ (iteration s < max_iterations)%nat) := {
  | right _ => {| positions := []; final := s; raised := None |}
  | left _ with pg_scroll_to pg (iteration s) (current s) := {
    | Raise e => {| positions := [current s]; final := s; raised := Some e |}
    | Ret _ with pg_wait pg (iteration s) := {
      | Raise e => {| positions := [current s]; final := s; raised := Some e |}
      | Ret _ with pg_scroll_height pg (S (iteration s)) := {
        | Raise e =>
            {| positions := [current s];
               final := {| current := current s + viewport_height;
                           total_height := total_height s;
                           iteration := S (iteration s) |};
               raised := Some e |}
        | Ret new_height =>
            began (current s)
              (scroll_loop pg viewport_height
                 {| current := current s + viewport_height;
                    total_height := if new_height >? total_height s
                                    then new_height else total_height s;
                    iteration := S (iteration s) |}) } } } }.
Next Obligation. cbn. unfold max_iterations in *. lia. Qed.

(** the body of the [try] block of [_scroll_page] *)
Definition scroll_probe (pg : Page) : M unit :=
  lift (pg_disable_smooth pg);;
  scroll_container ← lift (pg_scroll_container pg);
  match scroll_container with
  | Some sel => if Py.truthy sel then log (MsgScrollContainer sel) else mret tt
  | None => mret tt
  end;;
  total_height ← lift (pg_scroll_height pg 0);
  viewport_height ← lift (pg_inner_height pg);
  match raised (scroll_loop pg viewport_height
                  {| current := 0; total_height := total_height;
                     iteration := 0 |}) with
  | Some e => raise e
  | None => mret tt
  end;;
  lift (pg_scroll_top pg);;
  lift (pg_wait_top pg).

Definition _scroll_page (pg : Page) : M unit :=
  try_except (scroll_probe pg) (log MsgScrollError).

(** a page that is [h0] high at first and [grow] higher at every
    measurement *)
Definition growing_page (h0 grow viewport : Z) : Page :=
  {| pg_disable_smooth := Ret tt;
     pg_scroll_container := Ret None;
     pg_scroll_height := fun n => Ret (h0 + grow * Z.of_nat n);
     pg_inner_height := Ret viewport;
     pg_scroll_to := fun _ _ => Ret tt;
     pg_wait := fun _ => Ret tt;
     pg_scroll_top := Ret tt;
     pg_wait_top := Ret tt |}.

(* ===================================================================== *)
(** * [process] *)
(* ===================================================================== *)

(** A response the browser reports to [capture_response]; [c_body] is
    [None] when [response.body()] raises. *)
Record Captured := {
  c_url : string;
  c_request_url : string;
  c_status : Z;
  c_body : option string;
  c_content_type : string
}.

(** What the browser does when [process] drives it.  A field of type [res]
    is a call that may raise. *)
Record Browser := {
  (** [sync_playwright()]: entering the [with] block *)
  br_start : res unit;
  (** [p.chromium.launch], [new_context], [new_page], [page.on] *)
  br_launch : res unit;
  (** the responses reported while the page loads *)
  br_responses : list Captured;
  (** [page.goto(url, wait_until='networkidle', timeout=120000)] *)
  br_goto : res unit;
  (** [page.url] after the navigation *)
  br_url : string;
  (** [page.wait_for_timeout(2000)] *)
  br_settle : res unit;
  (** [_extract_iframe_content(page)]: the pair it returns and the base URL
      it sets, if it sets one; its queries of the frames are the browser's *)
  br_frames : res (option string * bool * option string);
  (** the page under the scroll probe *)
  br_page : Page;
  (** the responses reported while the probe scrolls *)
  br_late_responses : list Captured;
  (** [page.wait_for_timeout(3000)] *)
  br_settle_scroll : res unit;
  (** [context.cookies()] *)
  br_cookies : res unit;
  (** [page.content()] *)
  br_content : res string;
  (** [browser.close()] and leaving the [with] block *)
  br_close : res unit
}.

(** The handling of markup that [process] relies on and that touches
    neither the resolver nor the disk. *)
Class Markup := {
  (** [BeautifulSoup(html_content, 'html.parser')] *)
  parse_html : string -> node;
  (** [str(soup)] *)
  serialize : node -> string;
  (** [_fix_scroll_blocking(soup)] *)
  fix_scroll_blocking : node -> node;
  (** the removal of wrapper iframes *)
  remove_wrapper_iframes : node -> node;
  (** step 10: the removal of framework scripts and preloads *)
  remove_framework_scripts : node -> node
}.

(** The function [capture_response] inside [process]. *)
Definition capture_response (r : Captured) : M unit :=
  if (c_status r =? 200)
     && negb (Py.startswith "data:" (c_url r) || Py.startswith "blob:" (c_url r))
  then
    match c_body r with
    | Some b =>
        let resource_data := {| body := b; content_type := c_content_type r |} in
        modify (set_network <[c_url r := resource_data]>);;
        if bool_decide (c_request_url r <> c_url r)
        then modify (set_network <[c_request_url r := resource_data]>)
        else mret tt
    | None => mret tt
    end
  else mret tt.

Section Process.

Context {E : Env} {K : Markup}.

Definition _extract_iframe_content (br : Browser) : M (option string * bool) :=
  r ← lift (br_frames br);
  match r.2 with
  | Some b => modify (set_base_url b)
  | None => mret tt
  end;;
  mret r.1.

(** the part of [process] that drives the browser: it returns
    [html_content] *)
Definition render (br : Browser) : M string :=
  lift (br_start br);;
  log MsgStartBrowser;;
  lift (br_launch br);;
  j ← get;
  log (MsgLoading (url j));;
  mapM capture_response (br_responses br);;
  try_except (lift (br_goto br)) (log MsgLoadWarning);;
  modify (set_base_url (br_url br));;
  lift (br_settle br);;
  frame ← _extract_iframe_content br;
  (if negb frame.2 then
     log MsgScrolling;;
     _scroll_page (br_page br);;
     mapM capture_response (br_late_responses br);;
     lift (br_settle_scroll br)
   else mret tt);;
  lift (br_cookies br);;
  html_content ←
    (if frame.2 && Py.truthy (default "" frame.1)
     then log MsgUsingIframe;; mret (default "" frame.1)
     else lift (br_content br));
  j ← get;
  log (MsgCaptured (size (network_resources j)));;
  lift (br_close br);;
  mret html_content.

(** passes 1 to 8 of [process]: the passes that resolve references *)
Definition passes (soup : node) : M node :=
  log MsgStylesheets;;
  soup ← visit process_stylesheet soup;
  log MsgInlineStyles;;
  soup ← process_style_tags soup;
  log MsgScripts;;
  soup ← visit process_script soup;
  log MsgImages;;
  soup ← visit process_media soup;
  log MsgStyleAttributes;;
  soup ← visit process_style_attr soup;
  soup ← visit process_icon_link soup;
  soup ← visit process_meta soup;
  visit process_background soup.

(** the part of [process] that rewrites the document and writes it *)
Definition rewrite (html_content : string) : M bool :=
  log MsgProcessing;;
  let soup := parse_html html_content in
  let soup := fix_scroll_blocking soup in
  let soup := remove_wrapper_iframes soup in
  soup ← passes soup;
  log MsgNavigation;;
  let soup := fix_navigation soup in
  let soup := remove_framework_scripts soup in
  j ← get;
  write_file (output_dir j ++ ["index.html"]) (serialize soup);;
  j ← get;
  log (MsgDone (size (resource_cache j)));;
  mret true.

Definition process (br : Browser) : M bool :=
  html_content ← render br;
  rewrite html_content.

End Process.

(* ===================================================================== *)
(** * [get_site_name] *)
(* ===================================================================== *)

(** [s.replace(old, '')]: every occurrence of [old], found from the left
    and not overlapping, is removed; [skip] counts the characters of the
    last occurrence still to pass. *)
Fixpoint remove_all (old : list ascii) (skip : nat) (l : list ascii) : list ascii :=
  match l with
  | [] => []
  | c :: l' =>
      match skip with
      | S k => remove_all old k l'
      | O =>
          if Py.starts old l
          then remove_all old (length old - 1) l'
          else c :: remove_all old 0 l'
      end
  end.

(** [s.strip('/')] *)
Fixpoint lstrip_slash (l : list ascii) : list ascii :=
  match l with
  | c :: l' => if decide (c = "/"%char) then lstrip_slash l' else l
  | [] => []
  end.

Definition strip_slash (l : list ascii) : list ascii :=
  rev (lstrip_slash (rev (lstrip_slash l))).

(** the class [[a-zA-Z0-9.-]] *)
Definition domain_char (c : ascii) : bool :=
  Py.is_ascii_alpha c || Py.is_digit c
  || bool_decide (c = "."%char) || bool_decide (c = "-"%char).

(** the class [[a-zA-Z0-9]] *)
Definition alnum_char (c : ascii) : bool := Py.is_ascii_alpha c || Py.is_digit c.

Section SiteName.

Context {E : Env}.

Definition get_site_name (url : string) : res string :=
  parsed ← parse url;
  let domain := remove_all (Py.chars "www.") 0 (Py.chars (Urllib.p_netloc parsed)) in
  let clean_name :=
    (fun c => if domain_char c then c else "_"%char) <$> domain in
  if Py.truthy (Urllib.p_path parsed)
     && negb (bool_decide (Urllib.p_path parsed = "/"))
  then
    let path_part :=
      take 30 ((fun c => if alnum_char c then c else "_"%char)
                 <$> strip_slash (Py.chars (Urllib.p_path parsed))) in
    Ret (Py.str (clean_name ++ Py.chars "_" ++ path_part))
  else Ret (Py.str clean_name).

End SiteName.

(** a character a file name may hold: [[a-zA-Z0-9._-]] *)
Definition file_char (c : ascii) : bool :=
  domain_char c || bool_decide (c = "_"%char).

(* ===================================================================== *)
(** * [process_download] of [app.py] *)
(* ===================================================================== *)

(** What [download_results[session_id]] holds when the job ends: the status
    and, for a job that is complete, the name of the archive *)
Inductive status := Complete (filename : string) | Failed.

Section Download.

Context {E : Env} {K : Markup}.

(** [process_download(session_id, url)] on the directory tree [t], with
    [zipped] the outcome of [zip_directory]: what it records.  Every
    exception raised inside its [try] block ends in the [except] branch. *)
Definition process_download (br : Browser) (zipped : res unit) (url : string)
    (download_dir : list string) (t : gmap (list string) fnode) : status :=
  match __init__ url download_dir t with
  | Raise _ => Failed
  | Ret downloader =>
      match process br downloader with
      | (Ret true, j) =>
          match get_site_name url with
          | Raise _ => Failed
          | Ret site_name =>
              match zipped with
              | Raise _ => Failed
              | Ret _ =>
                  match rmtree (fs j) download_dir with
                  | Ret _ => Complete (site_name +:+ ".zip")
                  | Raise _ => Failed
                  end
              end
          end
      | (Ret false, _) => Failed
      | (Raise _, _) => Failed
      end
  end.

End Download.

(** a tree in which the output directory of an earlier job is still there *)
Definition used_tree : gmap (list string) fnode :=
  list_to_map
    [ (["downloads"], FDir);
      (["downloads"; "other.zip"], FFile "PK");
      (["downloads"; "job"], FDir);
      (["downloads"; "job"; "index.html"], FFile "old");
      (["downloads"; "job"; "assets"], FDir);
      (["downloads"; "job"; "assets"; "a_000000000000.png"], FFile "old") ].

(** a page with a stylesheet, a lazily loaded image and three links *)
Definition sample_page : node :=
  Tag "html" []
    [ Tag "head" []
        [ Tag "link" [("rel", "stylesheet"); ("href", "css/x.css")] [] ];
      Tag "body" []
        [ Tag "img" [("class", "hero"); ("data-src", "img/lazy.jpg");
                     ("src", "placeholder.gif")] [];
          Tag "a" [("href", "/about"); ("class", "nav")] [Text "About"];
          Tag "a" [("href", "/")] [Text "Home"];
          Tag "a" [("href", "https://other.test/page")] [Text "Elsewhere"] ] ].

(** a server with one stylesheet and two images *)
Definition sample_site : nat -> string -> option Response :=
  fun _ u =>
    if bool_decide (u = "https://a.test/css/x.css")
    then Some {| status_code := 200;
                 content := "body{background:url(../img/y.png)}";
                 text := "body{background:url(../img/y.png)}";
                 resp_content_type := "text/css" |}
    else if bool_decide (u = "https://a.test/img/y.png")
    then Some {| status_code := 200; content := "PNGDATA"; text := "PNGDATA";
                 resp_content_type := "image/png" |}
    else if bool_decide (u = "https://a.test/img/lazy.jpg")
    then Some {| status_code := 200; content := "JPGDATA"; text := "JPGDATA";
                 resp_content_type := "image/jpeg" |}
    else not_found 0%nat u.

(** [url("name")] *)
Definition quoted_url (name : string) : list ascii :=
  Py.chars "url(" ++ [dquote] ++ Py.chars name ++ [dquote] ++ Py.chars ")".

(** the stylesheet of [sample_site] once its token is rewritten *)
Definition rewritten_sheet : string :=
  Py.str (Py.chars "body{background:" ++ quoted_url "y_49c3b8b8ed8f.png"
          ++ Py.chars "}").

(* ===================================================================== *)
(** * What [process] lets through *)
(* ===================================================================== *)

(** [c] only adds to the trace, and an exception it raises satisfies [P]. *)
Definition behaved {A} (P : exn -> Prop) (c : M A) : Prop :=
  forall j,
    trace j `prefix_of` trace (c j).2
    /\ forall e, (c j).1 = Raise e -> P e.

(** [e] is raised by one of the browser calls that [process] does not
    guard. *)
Definition fatal_raises (br : Browser) (e : exn) : Prop :=
  br_start br = Raise e \/ br_launch br = Raise e \/ br_settle br = Raise e
  \/ br_frames br = Raise e
  \/ br_settle_scroll br = Raise e \/ br_cookies br = Raise e
  \/ br_content br = Raise e \/ br_close br = Raise e.

(** a page that cannot be scrolled: every call of the probe raises *)
Definition broken_page : Page :=
  {| pg_disable_smooth := Raise BrowserError;
     pg_scroll_container := Raise BrowserError;
     pg_scroll_height := fun _ => Raise BrowserError;
     pg_inner_height := Raise BrowserError;
     pg_scroll_to := fun _ _ => Raise BrowserError;
     pg_wait := fun _ => Raise BrowserError;
     pg_scroll_top := Raise BrowserError;
     pg_wait_top := Raise BrowserError |}.

(** a browser whose navigation times out and whose page cannot be scrolled,
    but which hands over the document *)
Definition flaky_browser : Browser :=
  {| br_start := Ret tt;
     br_launch := Ret tt;
     br_responses := [];
     br_goto := Raise BrowserError;
     br_url := "https://a.test/index.html";
     br_settle := Ret tt;
     br_frames := Ret (None, false, None);
     br_page := broken_page;
     br_late_responses := [];
     br_settle_scroll := Ret tt;
     br_cookies := Ret tt;
     br_content := Ret "<html></html>";
     br_close := Ret tt |}.

(** a browser that cannot hand over the document: [page.content()] raises *)
Definition dead_browser : Browser :=
  {| br_start := Ret tt;
     br_launch := Ret tt;
     br_responses := [];
     br_goto := Raise BrowserError;
     br_url := "about:blank";
     br_settle := Ret tt;
     br_frames := Ret (None, false, None);
     br_page := broken_page;
     br_late_responses := [];
     br_settle_scroll := Ret tt;
     br_cookies := Ret tt;
     br_content := Raise BrowserError;
     br_close := Ret tt |}.

(** a markup handler for the examples: every document parses to the sample
    page, and the passes it stands for change nothing *)
Definition sample_markup : Markup :=
  {| parse_html := fun _ => sample_page;
     serialize := fun _ => "<html>sample</html>";
     fix_scroll_blocking := fun n => n;
     remove_wrapper_iframes := fun n => n;
     remove_framework_scripts := fun n => n |}.

(** a page with one image, whose address opens a square bracket that is
    never closed *)
Definition bad_link_page : node :=
  Tag "html" [] [ Tag "body" [] [ Tag "img" [("src", "//[bad/y.png")] [] ] ].

(** a markup handler for which every document parses to that page *)
Definition bad_link_markup : Markup :=
  {| parse_html := fun _ => bad_link_page;
     serialize := fun _ => "<html>bad link</html>";
     fix_scroll_blocking := fun n => n;
     remove_wrapper_iframes := fun n => n;
     remove_framework_scripts := fun n => n |}.

(** a browser in which every call returns *)
Definition calm_browser : Browser :=
  {| br_start := Ret tt;
     br_launch := Ret tt;
     br_responses := [];
     br_goto := Ret tt;
     br_url := "https://a.test/index.html";
     br_settle := Ret tt;
     br_frames := Ret (None, false, None);
     br_page := growing_page 1000 0 500;
     br_late_responses := [];
     br_settle_scroll := Ret tt;
     br_cookies := Ret tt;
     br_content := Ret "<html></html>";
     br_close := Ret tt |}.

(** [c] ends by returning, whatever the job. *)
Definition returns {A} (c : M A) : Prop :=
  forall j, exists a j', c j = (Ret a, j').

(** the event [x] is in the trace when [c] ends *)
Definition leaves {A} (x : event) (c : M A) : Prop :=
  forall j, x ∈ trace (c j).2.

(** when [c] returns, it returns [true] *)
Definition returns_true (c : M bool) : Prop :=
  forall j b j', c j = (Ret b, j') -> b = true.

(** [c] ends by raising [e], whatever the job. *)
Definition raises {A} (e : exn) (c : M A) : Prop :=
  forall j, (c j).1 = Raise e.


(* ===================================================================== *)
(** * Properties *)
(* ===================================================================== *)

(** ** Strings *)

Lemma chars_str l : Py.chars (Py.str l) = l.
Proof. apply String.list_ascii_of_string_of_list_ascii. Qed.

Lemma str_chars s : Py.str (Py.chars s) = s.
Proof. apply String.string_of_list_ascii_of_string. Qed.

Lemma chars_app s t : Py.chars (s +:+ t) = Py.chars s ++ Py.chars t.
Proof.
  induction s as [|c s IH]; [done|].
  change (String c s +:+ t) with (String c (s +:+ t)).
  unfold Py.chars in *. cbn. by rewrite IH.
Qed.

Lemma chars_inj s t : Py.chars s = Py.chars t -> s = t.
Proof. intros H. rewrite <- (str_chars s), <- (str_chars t). by rewrite H. Qed.

Lemma truthy_false s : Py.truthy s = false <-> s = "".
Proof. destruct s; cbn; split; congruence. Qed.

(** ** The library models agree with the library on sample inputs *)

Example md5_empty : MD5.hexdigest "" = "d41d8cd98f00b204e9800998ecf8427e".
Proof. vm_compute. reflexivity. Qed.

Example md5_abc : MD5.hexdigest "abc" = "900150983cd24fb0d6963f7d28e17f72".
Proof. vm_compute. reflexivity. Qed.

Example md5_two_blocks :
  MD5.hexdigest "12345678901234567890123456789012345678901234567890123456789012345678901234567890"
  = "57edf4a22be3c955ac49da2e2107b67a".
Proof. vm_compute. reflexivity. Qed.

Example urljoin_sheet :
  Urllib.urljoin "https://a.test/css/x.css" "../img/y.png"
  = Some "https://a.test/img/y.png".
Proof. vm_compute. reflexivity. Qed.

Example urljoin_absolute :
  Urllib.urljoin "https://b.test/page/index.html" "https://a.test/img/y.png"
  = Some "https://a.test/img/y.png".
Proof. vm_compute. reflexivity. Qed.

Example urljoin_root_relative :
  Urllib.urljoin "https://b.test/page/index.html?x=1" "/img/y.png"
  = Some "https://b.test/img/y.png".
Proof. vm_compute. reflexivity. Qed.

Example urljoin_open_bracket :
  Urllib.urljoin "https://a.test/index.html" "//[bad/y.png" = None.
Proof. vm_compute. reflexivity. Qed.

Example urljoin_no_address :
  Urllib.urljoin "https://a.test/index.html" "//[bad]/y.png" = None.
Proof. vm_compute. reflexivity. Qed.

Example urljoin_ipv6 :
  Urllib.urljoin "https://a.test/index.html" "//[2001:db8::1]:8080/y.png"
  = Some "https://[2001:db8::1]:8080/y.png".
Proof. vm_compute. reflexivity. Qed.

Example urljoin_empty_base :
  Urllib.urljoin "" "//[bad/y.png" = Some "//[bad/y.png".
Proof. reflexivity. Qed.

Example urlparse_path_query :
  Urllib.p_path <$> Urllib.urlparse "https://a.test/img/y.png?v=3#top" ""
  = Some "/img/y.png".
Proof. vm_compute. reflexivity. Qed.

Example urlparse_close_bracket : Urllib.urlparse "http://bad]/x" "" = None.
Proof. vm_compute. reflexivity. Qed.

Example splitext_png : OsPath.splitext_ext "/img/y.png" = ".png".
Proof. reflexivity. Qed.

Example splitext_hidden : OsPath.splitext_ext "/etc/.bashrc" = "".
Proof. reflexivity. Qed.

Example splitext_dir_dot : OsPath.splitext_ext "/a.b/c" = "".
Proof. reflexivity. Qed.

Example splitext_two : OsPath.splitext_ext "/x/archive.tar.gz" = ".gz".
Proof. reflexivity. Qed.

(** ** The resolver *)

Ltac run_M :=
  unfold mbind, M_bind, mret, M_ret, bind, ret, get, modify, raise,
    try_except in *.

Lemma lift_bind_ret {A B} (r : res A) (k : A -> M B) j :
  (lift r ≫= k) j = match r with Ret a => k a j | Raise e => (Raise e, j) end.
Proof. unfold lift. run_M. by destruct r. Qed.

Section ResolverFacts.

Context {E : Env}.

Lemma parse_cases u :
  (exists parsed, urlparse u = Some parsed /\ parse u = Ret parsed)
  \/ (urlparse u = None /\ parse u = Raise ValueError).
Proof. unfold parse. destruct (urlparse u); eauto. Qed.

Lemma join_ok base u abs_url j :
  urljoin base u = Some abs_url -> join base u j = (Ret abs_url, j).
Proof. unfold join. by intros ->. Qed.

Lemma join_fails base u j :
  urljoin base u = None -> join base u j = (Raise ValueError, j).
Proof. unfold join. by intros ->. Qed.

(** What [_get_extension] gives once the URL is parsed. *)
Lemma get_extension_parsed u ct parsed :
  urlparse u = Some parsed ->
  exists ext,
    _get_extension u ct = Ret ext
    /\ ext = (let own := OsPath.splitext_ext (Urllib.p_path parsed) in
              if Py.truthy own && (Py.len own <=? 6)%nat then own
              else if Py.truthy ct
                   then default "" (guess_extension
                                      (Py.strip (Py.split_head ";" ct)))
                   else "").
Proof.
  intros Hp. unfold _get_extension, parse. rewrite Hp. cbn.
  destruct (Py.truthy (OsPath.splitext_ext _) && _); [eauto|].
  destruct (Py.truthy ct); [|eauto].
  destruct (guess_extension _) as [g|]; [|eauto].
  destruct g; cbn; eauto.
Qed.

(** [_generate_filename] raises exactly when the URL does not parse. *)
Lemma generate_filename_cases u ct :
  (exists parsed ext,
      urlparse u = Some parsed
      /\ _get_extension u ct = Ret ext
      /\ _generate_filename u ct
         = Ret (base_name (Urllib.p_path parsed) +:+ "_" +:+ url_hash u +:+ ext))
  \/ (urlparse u = None /\ _generate_filename u ct = Raise ValueError).
Proof.
  destruct (urlparse u) as [parsed|] eqn:Hp.
  - left. destruct (get_extension_parsed u ct parsed Hp) as (ext & He & _).
    exists parsed, ext. split_and!; [done..|].
    unfold _generate_filename. rewrite He. unfold parse. by rewrite Hp.
  - right. split; [done|].
    unfold _generate_filename, _get_extension, parse. by rewrite Hp.
Qed.

(** A cached URL is answered from the cache and the job is left as it was. *)
Lemma get_resource_hit u base j abs_url p :
  not_fetchable u = false ->
  urljoin (base_or base j) u = Some abs_url ->
  resource_cache j !! abs_url = Some p ->
  _get_resource u base j = (Ret (Some p), j).
Proof.
  intros Hf Hj Hc. unfold _get_resource. rewrite Hf. run_M.
  rewrite (join_ok _ _ _ _ Hj). by rewrite Hc.
Qed.

(** A reference that cannot be joined to its base raises. *)
Lemma get_resource_unjoinable u base j :
  not_fetchable u = false ->
  urljoin (base_or base j) u = None ->
  _get_resource u base j = (Raise ValueError, j).
Proof.
  intros Hf Hj. unfold _get_resource. rewrite Hf. run_M.
  by rewrite (join_fails _ _ _ Hj).
Qed.

(** [_get_resource] once the reference is joined. *)
Lemma get_resource_joined u base j abs_url :
  not_fetchable u = false ->
  urljoin (base_or base j) u = Some abs_url ->
  _get_resource u base j
  = match resource_cache j !! abs_url with
    | Some p => (Ret (Some p), j)
    | None =>
        match network_resources j !! abs_url with
        | Some e => _save_resource abs_url (body e) (content_type e) j
        | None =>
            match _download_fallback abs_url j with
            | (Ret (Some p), j') =>
                if Py.truthy p then (Ret (Some p), j') else (Ret (Some u), j')
            | (Ret None, j') => (Ret (Some u), j')
            | (Raise e, j') => (Raise e, j')
            end
        end
    end.
Proof.
  intros Hf Hj. unfold _get_resource. rewrite Hf. run_M.
  rewrite (join_ok _ _ _ _ Hj).
  destruct (resource_cache j !! abs_url); [done|].
  destruct (network_resources j !! abs_url); [done|].
  destruct (_download_fallback abs_url j) as [[[p|]|e] j']; try done.
  by destruct (Py.truthy p).
Qed.

Lemma save_resource_cached u c ct j p :
  resource_cache j !! u = Some p ->
  _save_resource u c ct j = (Ret (Some p), j).
Proof. intros Hc. unfold _save_resource. run_M. by rewrite Hc. Qed.

Lemma save_resource_empty u ct j :
  resource_cache j !! u = None ->
  _save_resource u "" ct j = (Ret None, j).
Proof. intros Hc. unfold _save_resource. run_M. by rewrite Hc. Qed.

End ResolverFacts.

Section ResolverCases.

Context {E : Env}.

Lemma parent_snoc (p : list string) f : parent (p ++ [f]) = p.
Proof.
  unfold parent. rewrite length_app. simpl.
  replace (length p + 1 - 1)%nat with (length p) by lia.
  by rewrite take_app_length.
Qed.

Lemma write_file_ok p data j :
  is_dir (fs j) (parent p) && negb (is_dir (fs j) p) = true ->
  write_file p data j
  = (Ret tt, emit (EvWrite p data) (set_fs <[p := FFile data]> j)).
Proof. intros H. unfold write_file. run_M. by rewrite H. Qed.

Lemma write_file_fails p data j :
  is_dir (fs j) (parent p) && negb (is_dir (fs j) p) = false ->
  write_file p data j = (Raise OSError, j).
Proof. intros H. unfold write_file. run_M. by rewrite H. Qed.

(** The five ways [_save_resource] ends. *)
Lemma save_resource_cases u c ct j :
  (exists p, resource_cache j !! u = Some p
             /\ _save_resource u c ct j = (Ret (Some p), j))
  \/ (resource_cache j !! u = None /\ c = ""
      /\ _save_resource u c ct j = (Ret None, j))
  \/ (resource_cache j !! u = None /\ c <> ""
      /\ _generate_filename u ct = Raise ValueError
      /\ _save_resource u c ct j = (Raise ValueError, j))
  \/ (resource_cache j !! u = None /\ c <> ""
      /\ exists f, _generate_filename u ct = Ret f
                   /\ writable j f = false
                   /\ _save_resource u c ct j = (Raise OSError, j))
  \/ (resource_cache j !! u = None /\ c <> ""
      /\ exists f, _generate_filename u ct = Ret f
                   /\ writable j f = true
                   /\ _save_resource u c ct j
                      = (Ret (Some ("assets/" +:+ f)), stored u f c j)).
Proof.
  destruct (resource_cache j !! u) as [p|] eqn:Hc.
  { left. exists p. split; [done|]. by apply save_resource_cached. }
  right. destruct c as [|a c].
  { left. split_and!; try done. by apply save_resource_empty. }
  right.
  destruct (generate_filename_cases u ct)
    as [(parsed & ext & _ & _ & Hname)|[_ Hname]].
  - right. set (f := base_name (Urllib.p_path parsed) +:+ "_" +:+ url_hash u +:+ ext)
      in Hname.
    destruct (writable j f) eqn:Hw; [right|left];
      (split; [done|]); (split; [done|]); exists f;
      (split; [done|]); (split; [done|]).
    + unfold _save_resource. run_M. rewrite Hc. cbn [Py.truthy negb].
      rewrite Hname. cbn [lift]. rewrite write_file_ok by exact Hw. reflexivity.
    + unfold _save_resource. run_M. rewrite Hc. cbn [Py.truthy negb].
      rewrite Hname. cbn [lift]. rewrite write_file_fails by exact Hw.
      reflexivity.
  - left. split_and!; try done.
    unfold _save_resource. run_M. rewrite Hc. cbn [Py.truthy negb].
    rewrite Hname. reflexivity.
Qed.

End ResolverCases.

(** ** Continuations of a job *)

Lemma extends_refl j : extends j j.
Proof.
  exists []. rewrite app_nil_r. split_and!; try done.
  intros u Hu. by apply elem_of_nil in Hu.
Qed.

Lemma extends_trans j1 j2 j3 : extends j1 j2 -> extends j2 j3 -> extends j1 j3.
Proof.
  intros (e1 & Ht1 & Hs1 & Hg1 & Hn1 & Hw1 & Hb1 & Ha1)
         (e2 & Ht2 & Hs2 & Hg2 & Hn2 & Hw2 & Hb2 & Ha2).
  exists (e1 ++ e2). split_and!.
  - by rewrite Ht2, Ht1, app_assoc.
  - by etrans.
  - intros u [Hu|Hu]%elem_of_app; [by apply Hg1|].
    eapply lookup_weaken_None; [by apply Hg2|done].
  - rewrite List.filter_app, length_app. lia.
  - congruence.
  - congruence.
  - congruence.
Qed.

Lemma extends_emit_log j m : extends j (emit (EvLog m) j).
Proof.
  exists [EvLog m]. split_and!; try done.
  intros u Hu. apply list_elem_of_singleton in Hu. done.
Qed.

Lemma extends_emit_get j u :
  resource_cache j !! u = None -> extends j (emit (EvGet u) j).
Proof.
  intros Hc. exists [EvGet u]. split_and!; try done.
  intros u' Hu. apply list_elem_of_singleton in Hu. congruence.
Qed.

Lemma extends_stored j u f data :
  resource_cache j !! u = None -> extends j (stored u f data j).
Proof.
  intros Hc. exists [EvWrite (assets_dir j ++ [f]) data]. split_and!; try done.
  - cbn. by apply insert_subseteq.
  - intros u' Hu. apply list_elem_of_singleton in Hu. done.
  - cbn [stored set_cache resource_cache].
    rewrite map_size_insert_None by done. cbn. lia.
Qed.

Lemma steady_ret {A} (a : A) : steady (mret a).
Proof. intros j. apply extends_refl. Qed.

Lemma steady_bind {A B} (c : M A) (k : A -> M B) :
  steady c -> (forall a, steady (k a)) -> steady (c ≫= k).
Proof.
  intros Hc Hk j. run_M. specialize (Hc j).
  destruct (c j) as [[a|e] j1]; cbn in *; [|done].
  eapply extends_trans; [exact Hc|]. apply Hk.
Qed.

Lemma steady_try {A} (c h : M A) : steady c -> steady h -> steady (try_except c h).
Proof.
  intros Hc Hh j. run_M. specialize (Hc j).
  destruct (c j) as [[a|e] j1]; cbn in *; [done|].
  eapply extends_trans; [exact Hc|]. apply Hh.
Qed.

Lemma steady_lift {A} (r : res A) : steady (lift r).
Proof. intros j. apply extends_refl. Qed.

Section ResolverSteady.

Context {E : Env}.

Lemma steady_join base u : steady (join base u).
Proof. intros j. unfold join. destruct (urljoin base u); apply extends_refl. Qed.

Lemma steady_save_resource u c ct : steady (_save_resource u c ct).
Proof.
  intros j.
  destruct (save_resource_cases u c ct j)
    as [(p & _ & ->)|[(_ & _ & ->)|[(_ & _ & _ & ->)
        |[(_ & _ & f & _ & _ & ->)|(Hc & _ & f & _ & _ & ->)]]]];
    cbn; try apply extends_refl.
  by apply extends_stored.
Qed.

(** [_download_fallback] asked for a URL the cache does not hold. *)
Lemma download_fallback_cases u j :
  (exists p, resource_cache j !! u = Some p
             /\ _download_fallback u j = (Ret (Some p), j))
  \/ (resource_cache j !! u = None /\ not_fetchable u = true
      /\ _download_fallback u j = (Ret (Some u), j))
  \/ (resource_cache j !! u = None /\ not_fetchable u = false
      /\ exists r j',
           _download_fallback u j = (Ret r, j')
           /\ match session_get (length (requests j)) u with
              | Some resp =>
                  if status_code resp =? 200 then
                    match _save_resource u (content resp) (resp_content_type resp)
                            (emit (EvGet u) j) with
                    | (Ret v, j1) => r = v /\ j' = j1
                    | (Raise _, j1) => r = None /\ j' = j1
                    end
                  else r = None /\ j' = emit (EvGet u) j
              | None => r = None /\ j' = emit (EvGet u) j
              end).
Proof.
  destruct (resource_cache j !! u) as [p|] eqn:Hc.
  { left. exists p. split; [done|]. unfold _download_fallback. run_M.
    by rewrite Hc. }
  right. destruct (not_fetchable u) eqn:Hf.
  { left. split_and!; try done. unfold _download_fallback. run_M.
    by rewrite Hc, Hf. }
  right. split; [done|]. split; [done|].
  unfold _download_fallback, http_get. run_M. rewrite Hc, Hf.
  destruct (session_get (length (requests j)) u) as [resp|]; cbn.
  - destruct (status_code resp =? 200); cbn.
    + destruct (_save_resource u (content resp) (resp_content_type resp)
                  (emit (EvGet u) j)) as [[v|e] j1]; cbn; eauto.
    + eauto.
  - eauto.
Qed.

Lemma steady_download_fallback u : steady (_download_fallback u).
Proof.
  intros j.
  destruct (download_fallback_cases u j)
    as [(p & _ & ->)|[(_ & _ & ->)|(Hc & _ & r & j' & -> & H)]];
    cbn; try apply extends_refl.
  assert (Hg : extends j (emit (EvGet u) j)) by by apply extends_emit_get.
  destruct (session_get (length (requests j)) u) as [resp|].
  - destruct (status_code resp =? 200).
    + pose proof (steady_save_resource u (content resp) (resp_content_type resp)
                    (emit (EvGet u) j)) as Hs.
      destruct (_save_resource u (content resp) (resp_content_type resp)
                  (emit (EvGet u) j)) as [[v|e] j1]; cbn in Hs;
        destruct H as [_ ->]; by eapply extends_trans.
    + by destruct H as [_ ->].
  - by destruct H as [_ ->].
Qed.

Lemma steady_get_resource u base : steady (_get_resource u base).
Proof.
  intros j. destruct (not_fetchable u) eqn:Hf.
  { unfold _get_resource. rewrite Hf. apply extends_refl. }
  destruct (urljoin (base_or base j) u) as [abs_url|] eqn:Hj.
  2:{ rewrite (get_resource_unjoinable u base j Hf Hj). apply extends_refl. }
  rewrite (get_resource_joined u base j abs_url Hf Hj).
  destruct (resource_cache j !! abs_url); [apply extends_refl|].
  destruct (network_resources j !! abs_url) as [e|].
  { apply steady_save_resource. }
  pose proof (steady_download_fallback abs_url j) as Hd.
  destruct (_download_fallback abs_url j) as [[[p|]|e] j1];
    cbn in *; try done.
  by destruct (Py.truthy p).
Qed.

Lemma steady_resolve_all refs : steady (resolve_all refs).
Proof.
  induction refs as [|[u b] refs IH]; [apply steady_ret|].
  cbn [resolve_all]. apply steady_bind; [apply steady_get_resource|].
  intros r. apply steady_bind; [exact IH|]. intros rs. apply steady_ret.
Qed.

End ResolverSteady.

(** ** C9: an empty captured payload *)

Section EmptyCapture.

Context {E : Env}.

(** C9, as the code has it.  When the reference joins to the absolute URL
    [abs_url] and the captured network entry of [abs_url] has an empty
    payload, [_get_resource] sends no request and leaves the job as it was
    (nothing is written, nothing is recorded in the cache).  What it returns
    is the cache's answer for [abs_url]: [None] -- not the original
    reference -- for a URL the cache does not hold, and the cached path for
    a URL the cache holds. *)
Theorem empty_capture_returns_none url base j abs_url e :
  not_fetchable url = false ->
  urljoin (base_or base j) url = Some abs_url ->
  network_resources j !! abs_url = Some e ->
  body e = "" ->
  _get_resource url base j = (Ret (resource_cache j !! abs_url), j)
  /\ (resource_cache j !! abs_url = None ->
      exists j',
        _get_resource url base j = (Ret None, j')
        /\ requests j' = requests j
        /\ resource_cache j' !! abs_url = None
        /\ fs j' = fs j)
  /\ (forall p, resource_cache j !! abs_url = Some p ->
                _get_resource url base j = (Ret (Some p), j)).
Proof.
  intros Hf Hj Hn Hb.
  assert (Hr : _get_resource url base j = (Ret (resource_cache j !! abs_url), j)).
  { rewrite (get_resource_joined url base j abs_url Hf Hj).
    destruct (resource_cache j !! abs_url) as [p|] eqn:Hc; [done|].
    rewrite Hn, Hb. by apply save_resource_empty. }
  split; [exact Hr|]. split.
  - intros Hc. exists j. rewrite Hr, Hc. done.
  - intros p Hc. by rewrite Hr, Hc.
Qed.

End EmptyCapture.

(** C9 at a captured stylesheet whose body is empty. *)
Lemma empty_capture_returns_none_witness :
  let E := library_env one_image in
  let j := captured_job "https://a.test/index.html"
             [("https://a.test/css/x.css", {| body := ""; content_type := "text/css" |})] in
  _get_resource "css/x.css" None j = (Ret None, j).
Proof.
  intros E j.
  pose proof (@empty_capture_returns_none E "css/x.css" None j
                "https://a.test/css/x.css"
                {| body := ""; content_type := "text/css" |}
                eq_refl eq_refl eq_refl eq_refl) as [H _].
  exact H.
Defined.

(** C9 as stated fails for a URL the cache holds.  The capture recorded an
    empty body for a stylesheet; the stylesheet pass fetched the sheet
    itself and saved it; a reference to the sheet is then answered with the
    saved path, not with [None]. *)
Lemma cached_empty_capture_counterexample :
  let E := library_env sample_site in
  let sheet := "https://a.test/css/x.css" in
  let j0 := captured_job "https://a.test/index.html"
              [(sheet, {| body := ""; content_type := "text/css" |})] in
  let j := (process_stylesheet "link"
              [("rel", "stylesheet"); ("href", "css/x.css")] j0).2 in
  network_resources j !! sheet = Some {| body := ""; content_type := "text/css" |}
  /\ _get_resource "css/x.css" None j = (Ret (Some "assets/x_416d361a3f07.css"), j)
  /\ (_get_resource "css/x.css" None j).1 <> Ret None.
Proof.
  intros E sheet j0 j.
  assert (Hrun : _get_resource "css/x.css" None j
                 = (Ret (Some "assets/x_416d361a3f07.css"), j)).
  { apply (@get_resource_hit E "css/x.css" None j sheet); [reflexivity|..].
    - vm_compute. reflexivity.
    - vm_compute. reflexivity. }
  split_and!.
  - vm_compute. reflexivity.
  - exact Hrun.
  - rewrite Hrun. discriminate.
Qed.

(** ** The tiers of [_get_resource] *)

Section Tiers.

Context {E : Env}.

Lemma writable_emit j ev f : writable (emit ev j) f = writable j f.
Proof. reflexivity. Qed.

(** All three tiers fail: the reference comes back, one request was sent. *)
Lemma get_resource_all_tiers_fail url base j abs_url :
  not_fetchable url = false ->
  urljoin (base_or base j) url = Some abs_url ->
  resource_cache j !! abs_url = None ->
  network_resources j !! abs_url = None ->
  not_fetchable abs_url = false ->
  fetch_fails (session_get (length (requests j)) abs_url) ->
  _get_resource url base j = (Ret (Some url), emit (EvGet abs_url) j).
Proof.
  intros Hf Hj Hc Hn Hfa Hfail.
  rewrite (get_resource_joined url base j abs_url Hf Hj), Hc, Hn.
  unfold _download_fallback, http_get. run_M. rewrite Hc, Hfa.
  destruct (session_get (length (requests j)) abs_url) as [resp|]; cbn in *.
  - apply Z.eqb_neq in Hfail. by rewrite Hfail.
  - done.
Qed.

(** A payload that can be obtained and written is saved, recorded and
    returned. *)
Lemma get_resource_stores url base j abs_url data ct f :
  not_fetchable url = false ->
  urljoin (base_or base j) url = Some abs_url ->
  resource_cache j !! abs_url = None ->
  obtainable j abs_url = Some (data, ct) ->
  _generate_filename abs_url ct = Ret f ->
  writable j f = true ->
  exists j',
    _get_resource url base j = (Ret (Some ("assets/" +:+ f)), j')
    /\ resource_cache j' = <[abs_url := "assets/" +:+ f]> (resource_cache j)
    /\ fs j' = <[assets_dir j ++ [f] := FFile data]> (fs j).
Proof.
  intros Hf Hj Hc Ho Hname Hw. unfold obtainable in Ho.
  rewrite (get_resource_joined url base j abs_url Hf Hj), Hc.
  destruct (network_resources j !! abs_url) as [e|] eqn:Hn.
  - destruct (Py.truthy (body e)) eqn:Hb; [|done]. injection Ho as <- <-.
    destruct (save_resource_cases abs_url (body e) (content_type e) j)
      as [(p & Hp & _)|[(_ & Hd & _)|[(_ & _ & Hv & _)
          |[(_ & _ & f' & Hf' & Hw' & _)|(_ & _ & f' & Hf' & _ & ->)]]]].
    + congruence.
    + rewrite Hd in Hb. done.
    + congruence.
    + congruence.
    + assert (f' = f) as -> by congruence.
      eexists. split; [reflexivity|]. done.
  - destruct (not_fetchable abs_url) eqn:Hfa; [done|].
    unfold _download_fallback, http_get. run_M. rewrite Hc, Hfa.
    destruct (session_get (length (requests j)) abs_url) as [resp|]; [|done].
    cbn. destruct (status_code resp =? 200); [|done]. cbn in Ho |- *.
    destruct (Py.truthy (content resp)) eqn:Hb; [|done]. injection Ho as <- <-.
    destruct (save_resource_cases abs_url (content resp) (resp_content_type resp)
                (emit (EvGet abs_url) j))
      as [(p & Hp & _)|[(_ & Hd & _)|[(_ & _ & Hv & _)
          |[(_ & _ & f' & Hf' & Hw' & _)|(_ & _ & f' & Hf' & _ & ->)]]]].
    + cbn in Hp. congruence.
    + rewrite Hd in Hb. done.
    + congruence.
    + rewrite writable_emit in Hw'. congruence.
    + assert (f' = f) as -> by congruence.
      cbn. eexists. split; [reflexivity|]. done.
Qed.

(** What the cache holds for the URL after a call is what the call
    returned. *)
Lemma get_resource_returns_stored url base j abs_url r j' p :
  not_fetchable url = false ->
  urljoin (base_or base j) url = Some abs_url ->
  _get_resource url base j = (r, j') ->
  resource_cache j' !! abs_url = Some p ->
  r = Ret (Some p).
Proof.
  intros Hf Hj Hrun Hp.
  rewrite (get_resource_joined url base j abs_url Hf Hj) in Hrun.
  destruct (resource_cache j !! abs_url) as [p0|] eqn:Hc.
  { injection Hrun as <- <-. congruence. }
  destruct (network_resources j !! abs_url) as [e|] eqn:Hn.
  - destruct (save_resource_cases abs_url (body e) (content_type e) j)
      as [(p1 & Hp1 & _)|[(_ & _ & Hs)|[(_ & _ & _ & Hs)
          |[(_ & _ & f & _ & _ & Hs)|(_ & _ & f & _ & _ & Hs)]]]];
      [congruence|..]; rewrite Hs in Hrun; injection Hrun as <- <-.
    + congruence.
    + congruence.
    + congruence.
    + cbn in Hp. rewrite lookup_insert_eq in Hp. congruence.
  - destruct (download_fallback_cases abs_url j)
      as [(p1 & Hp1 & _)|[(_ & _ & Hs)|(_ & _ & r1 & j1 & Hs & Hcase)]];
      [congruence|..]; rewrite Hs in Hrun.
    + destruct (Py.truthy abs_url); injection Hrun as <- <-; congruence.
    + assert (Hj' : j' = j1).
      { destruct r1 as [q|]; [destruct (Py.truthy q)|]; by injection Hrun. }
      subst j'.
      destruct (session_get (length (requests j)) abs_url) as [resp|];
        [|destruct Hcase as [-> ->]; cbn in Hp; congruence].
      destruct (status_code resp =? 200);
        [|destruct Hcase as [-> ->]; cbn in Hp; congruence].
      destruct (save_resource_cases abs_url (content resp)
                  (resp_content_type resp) (emit (EvGet abs_url) j))
        as [(p1 & Hp1 & _)|[(_ & _ & Hs1)|[(_ & _ & _ & Hs1)
            |[(_ & _ & f & _ & _ & Hs1)|(_ & _ & f & _ & _ & Hs1)]]]].
      * cbn in Hp1. congruence.
      * rewrite Hs1 in Hcase. destruct Hcase as [-> ->]. cbn in Hp. congruence.
      * rewrite Hs1 in Hcase. destruct Hcase as [-> ->]. cbn in Hp. congruence.
      * rewrite Hs1 in Hcase. destruct Hcase as [-> ->]. cbn in Hp. congruence.
      * rewrite Hs1 in Hcase. destruct Hcase as [-> ->].
        cbn in Hp. rewrite lookup_insert_eq in Hp. injection Hp as <-.
        cbn in Hrun. by injection Hrun as <-.
Qed.

End Tiers.

(** ** Filenames *)

Lemma len_str l : Py.len (Py.str l) = length l.
Proof. unfold Py.len. by rewrite chars_str. Qed.

Lemma hexdigit_hex x : hex_char (MD5.hexdigit (x mod 16)) = true.
Proof.
  pose proof (Z.mod_pos_bound x 16 eq_refl) as Hn.
  rewrite <- (Z2Nat.id (x mod 16)) by lia.
  assert (Hk : (Z.to_nat (x mod 16) < 16)%nat) by lia.
  revert Hk. generalize (Z.to_nat (x mod 16)). intros k Hk.
  do 16 (destruct k as [|k]; [reflexivity|]). lia.
Qed.

Lemma hexbytes_length (l : list Z) : length (l ≫= MD5.hexbyte) = (2 * length l)%nat.
Proof. induction l as [|b l IH]; [done|]. cbn. rewrite IH. lia. Qed.

Lemma hexbytes_hex (l : list Z) :
  Forall (fun c => hex_char c = true) (l ≫= MD5.hexbyte).
Proof.
  induction l as [|b l IH]; [constructor|].
  cbn. repeat constructor; try apply hexdigit_hex. exact IH.
Qed.

Lemma digest_length msg : length (MD5.digest msg) = 16%nat.
Proof.
  unfold MD5.digest.
  destruct (MD5.blocks _ MD5.init (MD5.padding msg)) as [a b c d].
  reflexivity.
Qed.

(** The digest in hexadecimal is 32 lower-case hexadecimal digits. *)
Lemma hexdigest_shape s :
  Py.len (MD5.hexdigest s) = 32%nat
  /\ Forall (fun c => hex_char c = true) (Py.chars (MD5.hexdigest s)).
Proof.
  unfold MD5.hexdigest. rewrite len_str, chars_str, hexbytes_length, digest_length.
  split; [done|]. apply hexbytes_hex.
Qed.

Lemma url_hash_length u : Py.len (url_hash u) = 12%nat.
Proof.
  unfold url_hash, Py.slice_to. rewrite len_str, length_take.
  destruct (hexdigest_shape u) as [Hl _]. unfold Py.len in Hl. lia.
Qed.

Lemma url_hash_hex u : Forall (fun c => hex_char c = true) (Py.chars (url_hash u)).
Proof.
  unfold url_hash, Py.slice_to. rewrite chars_str.
  apply Forall_take, hexdigest_shape.
Qed.

Section FilenameFacts.

Context {E : Env}.

Lemma sanitize_chars s :
  Forall (fun c => name_char c = true) (Py.chars (sanitize s)).
Proof.
  unfold sanitize. rewrite chars_str. apply Forall_fmap, Forall_forall.
  intros c _. cbn. by destruct (name_char c) eqn:Hc.
Qed.

Lemma base_name_chars p :
  Forall (fun c => name_char c = true) (Py.chars (base_name p)).
Proof.
  unfold base_name. destruct (Py.truthy _).
  - unfold Py.slice_to. rewrite chars_str. apply Forall_take, sanitize_chars.
  - cbn. repeat constructor.
Qed.

Lemma base_name_length p : (Py.len (base_name p) <= 30)%nat.
Proof.
  unfold base_name. destruct (Py.truthy _).
  - unfold Py.slice_to. rewrite len_str, length_take. lia.
  - cbn. lia.
Qed.

Lemma splitext_ext_dot p :
  OsPath.splitext_ext p = "" \/ Py.startswith "." (OsPath.splitext_ext p) = true.
Proof.
  unfold OsPath.splitext_ext.
  destruct (bool_decide _); [|by left].
  destruct (forallb _ _); [by left|right].
  unfold Py.startswith. by rewrite chars_str.
Qed.

Lemma get_extension_dot u ct ext :
  (forall mime e, guess_extension mime = Some e -> Py.startswith "." e = true) ->
  _get_extension u ct = Ret ext ->
  ext = "" \/ Py.startswith "." ext = true.
Proof.
  intros Hg. unfold _get_extension, parse.
  destruct (urlparse u) as [parsed|]; [|done]. cbn.
  destruct (Py.truthy (OsPath.splitext_ext _) && _) eqn:Hown.
  { intros [= <-].
    destruct (splitext_ext_dot (Urllib.p_path parsed)) as [Hz|Hd]; [|by right].
    rewrite Hz in Hown. done. }
  destruct (Py.truthy ct); [|intros [= <-]; by left].
  destruct (guess_extension _) as [g|] eqn:Hgu; [|intros [= <-]; by left].
  destruct (Py.truthy g); intros [= <-]; [|by left].
  right. by eapply Hg.
Qed.

End FilenameFacts.

(** A text free of dots followed by an extension splits in one way only. *)
Lemma dotless_app_inj (a1 a2 e1 e2 : list ascii) :
  "."%char ∉ a1 -> "."%char ∉ a2 ->
  (e1 = [] \/ exists r, e1 = "."%char :: r) ->
  (e2 = [] \/ exists r, e2 = "."%char :: r) ->
  a1 ++ e1 = a2 ++ e2 -> a1 = a2 /\ e1 = e2.
Proof.
  revert a2. induction a1 as [|c a1 IH]; intros a2 H1 H2 He1 He2 Heq.
  - destruct a2 as [|d a2]; [done|]. exfalso. cbn in Heq.
    destruct He1 as [->|[r ->]]; [done|]. injection Heq as <- _.
    apply H2. by left.
  - destruct a2 as [|d a2].
    + exfalso. cbn in Heq.
      destruct He2 as [->|[r ->]]; [done|]. injection Heq as -> _.
      apply H1. by left.
    + cbn in Heq. injection Heq as -> Heq.
      destruct (IH a2) as [-> ->]; try done.
      * intros Hin. apply H1. by right.
      * intros Hin. apply H2. by right.
Qed.

Lemma startswith_dot e :
  Py.startswith "." e = true -> exists r, Py.chars e = "."%char :: r.
Proof.
  unfold Py.startswith. destruct (Py.chars e) as [|c r]; [done|].
  cbn. destruct (decide ("."%char = c)) as [<-|]; [eauto|done].
Qed.

Lemma name_char_not_dot l :
  Forall (fun c => name_char c = true) l -> "."%char ∉ l.
Proof.
  intros Hall Hin. rewrite Forall_forall in Hall. by apply Hall in Hin.
Qed.

Lemma hex_char_not_dot l :
  Forall (fun c => hex_char c = true) l -> "."%char ∉ l.
Proof.
  intros Hall Hin. rewrite Forall_forall in Hall. by apply Hall in Hin.
Qed.

Section FilenameInjective.

Context {E : Env}.

(** Two filenames are equal only when their three parts are. *)
Lemma generate_filename_parts u1 c1 u2 c2 f :
  (forall mime e, guess_extension mime = Some e -> Py.startswith "." e = true) ->
  _generate_filename u1 c1 = Ret f ->
  _generate_filename u2 c2 = Ret f ->
  exists p1 p2 ext,
    urlparse u1 = Some p1 /\ urlparse u2 = Some p2
    /\ base_name (Urllib.p_path p1) = base_name (Urllib.p_path p2)
    /\ url_hash u1 = url_hash u2
    /\ _get_extension u1 c1 = Ret ext /\ _get_extension u2 c2 = Ret ext.
Proof.
  intros Hg H1 H2.
  destruct (generate_filename_cases u1 c1)
    as [(p1 & e1 & Hp1 & He1 & Hn1)|[_ Hn1]]; [|congruence].
  destruct (generate_filename_cases u2 c2)
    as [(p2 & e2 & Hp2 & He2 & Hn2)|[_ Hn2]]; [|congruence].
  assert (Heq : base_name (Urllib.p_path p1) +:+ "_" +:+ url_hash u1 +:+ e1
                = base_name (Urllib.p_path p2) +:+ "_" +:+ url_hash u2 +:+ e2)
    by congruence.
  apply (f_equal Py.chars) in Heq. rewrite !chars_app in Heq.
  rewrite !(app_assoc (Py.chars (base_name _))) in Heq.
  rewrite !(app_assoc (_ ++ _) (Py.chars (url_hash _))) in Heq.
  assert (Hext : forall u c e, _get_extension u c = Ret e ->
                   Py.chars e = [] \/ exists r, Py.chars e = "."%char :: r).
  { intros u c e He. destruct (get_extension_dot u c e Hg He) as [->|Hd];
      [by left|]. right. by apply startswith_dot. }
  assert (Hnodot : forall p u,
             "."%char ∉ (Py.chars (base_name p) ++ Py.chars "_") ++ Py.chars (url_hash u)).
  { intros p u. rewrite !elem_of_app. intros [[H|H]|H].
    - by apply (name_char_not_dot _ (base_name_chars p)).
    - cbn in H. apply list_elem_of_singleton in H. done.
    - by apply (hex_char_not_dot _ (url_hash_hex u)). }
  apply dotless_app_inj in Heq as [Hstem Hexts]; eauto.
  apply app_inj_2 in Hstem as [Hname Hhash].
  2:{ pose proof (url_hash_length u1). pose proof (url_hash_length u2).
      unfold Py.len in *. congruence. }
  apply app_inj_2 in Hname as [Hname _]; [|done].
  apply chars_inj in Hname, Hhash, Hexts. subst e2.
  exists p1, p2, e1. done.
Qed.

End FilenameInjective.


(** ** C3: a reference that no tier resolves *)

Section Unresolvable.

Context {E : Env}.

Lemma not_fetchable_false url :
  not_fetchable url = false ->
  Py.truthy url = true /\ Py.startswith "data:" url = false
  /\ Py.startswith "blob:" url = false /\ Py.startswith "#" url = false.
Proof.
  unfold not_fetchable. intros H.
  apply orb_false_elim in H as [H H3]. apply orb_false_elim in H as [H H2].
  apply orb_false_elim in H as [H H1]. apply negb_false_iff in H. done.
Qed.

Lemma resolved_to_same v : resolved_to (Some v) v = None.
Proof.
  unfold resolved_to. rewrite bool_decide_true by done.
  by rewrite andb_false_r.
Qed.


End Unresolvable.



(** ** Later states of a job *)

Lemma grows_refl j : grows j j.
Proof. exists []. rewrite app_nil_r. split_and!; done. Qed.

Lemma grows_trans j1 j2 j3 : grows j1 j2 -> grows j2 j3 -> grows j1 j3.
Proof.
  intros (e1 & Ht1 & Hs1 & Hn1 & Ha1) (e2 & Ht2 & Hs2 & Hn2 & Ha2).
  exists (e1 ++ e2). split_and!.
  - by rewrite Ht2, Ht1, app_assoc.
  - by etrans.
  - rewrite List.filter_app, length_app. lia.
  - congruence.
Qed.

Lemma extends_grows j j' : extends j j' -> grows j j'.
Proof.
  intros (evs & Ht & Hs & _ & Hn & _ & _ & Ha). exists evs. done.
Qed.

Lemma grows_emit j e : is_write e = false -> grows j (emit e j).
Proof.
  intros He. exists [e]. split_and!; try done. cbn. rewrite He. cbn. lia.
Qed.

Lemma keeps_of_steady {A} (c : M A) : steady c -> keeps c.
Proof. intros Hc j. apply extends_grows, Hc. Qed.

Lemma keeps_ret {A} (a : A) : keeps (mret a).
Proof. intros j. apply grows_refl. Qed.

Lemma keeps_bind {A B} (c : M A) (k : A -> M B) :
  keeps c -> (forall a, keeps (k a)) -> keeps (c ≫= k).
Proof.
  intros Hc Hk j. run_M. specialize (Hc j).
  destruct (c j) as [[a|e] j1]; cbn in *; [|done].
  eapply grows_trans; [exact Hc|]. apply Hk.
Qed.

Lemma keeps_try {A} (c h : M A) : keeps c -> keeps h -> keeps (try_except c h).
Proof.
  intros Hc Hh j. run_M. specialize (Hc j).
  destruct (c j) as [[a|e] j1]; cbn in *; [done|].
  eapply grows_trans; [exact Hc|]. apply Hh.
Qed.

Lemma keeps_get : keeps get.
Proof. intros j. apply grows_refl. Qed.

Lemma keeps_log m : keeps (log m).
Proof. intros j. by apply grows_emit. Qed.

Lemma keeps_lift {A} (r : res A) : keeps (lift r).
Proof. intros j. apply grows_refl. Qed.

Lemma keeps_mapM {A B} (f : A -> M B) l :
  (forall a, keeps (f a)) -> keeps (mapM f l).
Proof.
  intros Hf. induction l as [|a l IH]; [apply keeps_ret|].
  cbn [mapM]. apply keeps_bind; [apply Hf|]. intros b.
  apply keeps_bind; [exact IH|]. intros bs. apply keeps_ret.
Qed.

Lemma node_induction (Q : node -> Prop) :
  (forall s, Q (Text s)) ->
  (forall nm attrs ch, Forall Q ch -> Q (Tag nm attrs ch)) ->
  forall n, Q n.
Proof.
  intros Htext Htag. fix IH 1. intros [nm attrs ch|s]; [|apply Htext].
  apply Htag. induction ch as [|c ch IHch]; constructor; [apply IH|exact IHch].
Qed.

Lemma keeps_visit f n :
  (forall nm attrs, keeps (f nm attrs)) -> keeps (visit f n).
Proof.
  intros Hf. induction n as [s|nm attrs ch IH] using node_induction.
  { cbn. apply keeps_ret. }
  cbn [visit]. apply keeps_bind; [apply Hf|]. intros attrs'.
  apply keeps_bind; [|intros; apply keeps_ret].
  induction IH as [|c ch Hc _ IHch]; [apply keeps_ret|].
  apply keeps_bind; [exact Hc|]. intros c'.
  apply keeps_bind; [exact IHch|]. intros l. apply keeps_ret.
Qed.

(** goes through the structure of a method *)
Ltac keep :=
  repeat first
    [ simple apply keeps_ret
    | simple apply keeps_get
    | simple apply keeps_log
    | simple apply keeps_lift
    | simple apply keeps_bind; [|intros]
    | simple apply keeps_try
    | match goal with
      | |- keeps (match ?x with _ => _ end) => destruct x
      | |- keeps (if ?b then _ else _) => destruct b
      end ].

Section KeepsPasses.

Context {E : Env}.

Lemma keeps_http_get u : keeps (http_get u).
Proof.
  intros j. unfold http_get. run_M.
  destruct (session_get (length (requests j)) u); cbn; by apply grows_emit.
Qed.

Lemma keeps_join base u : keeps (join base u).
Proof. apply keeps_of_steady, steady_join. Qed.

Lemma keeps_save_resource u c ct : keeps (_save_resource u c ct).
Proof. apply keeps_of_steady, steady_save_resource. Qed.

Lemma keeps_get_resource u base : keeps (_get_resource u base).
Proof. apply keeps_of_steady, steady_get_resource. Qed.

Lemma keeps_rewrite_css_urls css css_url : keeps (_rewrite_css_urls css css_url).
Proof.
  unfold _rewrite_css_urls. keep.
  apply keeps_mapM. intros [c|inner]; cbn [rewrite_piece]; [keep|].
  unfold replacer. keep; first [apply keeps_join|apply keeps_get_resource].
Qed.

Lemma keeps_rewrite_attr attr v attrs : keeps (rewrite_attr attr v attrs).
Proof. unfold rewrite_attr. keep. apply keeps_get_resource. Qed.

Lemma keeps_process_stylesheet nm attrs : keeps (process_stylesheet nm attrs).
Proof.
  unfold process_stylesheet. keep;
    first [ apply keeps_join | apply keeps_http_get
          | apply keeps_rewrite_css_urls | apply keeps_save_resource ].
Qed.

Lemma keeps_process_script nm attrs : keeps (process_script nm attrs).
Proof. unfold process_script. keep. apply keeps_get_resource. Qed.

Lemma keeps_lazy_loop names attrs src : keeps (lazy_loop names attrs src).
Proof.
  induction names as [|a names IH]; cbn [lazy_loop]; [keep|].
  destruct (attr_truthy a attrs); [|exact IH].
  keep. apply keeps_get_resource.
Qed.

Lemma keeps_process_src attrs : keeps (process_src attrs).
Proof.
  unfold process_src. keep;
    first [apply keeps_lazy_loop|apply keeps_rewrite_attr].
Qed.

Lemma keeps_process_srcset srcset base : keeps (_process_srcset srcset base).
Proof.
  unfold _process_srcset. keep.
  apply keeps_mapM. intros part. unfold process_candidate. keep.
  apply keeps_get_resource.
Qed.

Lemma keeps_process_media nm attrs : keeps (process_media nm attrs).
Proof.
  unfold process_media, process_srcset_attr. keep;
    first [ apply keeps_process_src | apply keeps_process_srcset
          | apply keeps_rewrite_attr ].
Qed.

Lemma keeps_process_style_attr nm attrs : keeps (process_style_attr nm attrs).
Proof. unfold process_style_attr. keep. apply keeps_rewrite_css_urls. Qed.

Lemma keeps_process_icon_link nm attrs : keeps (process_icon_link nm attrs).
Proof. unfold process_icon_link. keep; apply keeps_rewrite_attr. Qed.

Lemma keeps_process_meta nm attrs : keeps (process_meta nm attrs).
Proof. unfold process_meta. keep; apply keeps_rewrite_attr. Qed.

Lemma keeps_process_background nm attrs : keeps (process_background nm attrs).
Proof. unfold process_background. keep; apply keeps_rewrite_attr. Qed.

Lemma keeps_process_style_tags n : keeps (process_style_tags n).
Proof.
  induction n as [s|nm attrs ch IH] using node_induction.
  { cbn. apply keeps_ret. }
  assert (Hdefault : keeps
            (((fix go (l : list node) : M (list node) :=
                 match l with
                 | [] => mret []
                 | c :: l' =>
                     c' ← process_style_tags c;
                     l'' ← go l';
                     mret (c' :: l'')
                 end) ch) ≫= fun ch' => mret (Tag nm attrs ch'))).
  { apply keeps_bind; [|intros; apply keeps_ret].
    induction IH as [|c ch' Hc _ IHch]; [apply keeps_ret|].
    apply keeps_bind; [exact Hc|]. intros c'.
    apply keeps_bind; [exact IHch|]. intros l. apply keeps_ret. }
  clear IH. cbn [process_style_tags].
  destruct (bool_decide (nm = "style")); [|exact Hdefault].
  destruct ch as [|[nm' at' ch'|s] [|c2 ch2]]; try exact Hdefault.
  keep. apply keeps_rewrite_css_urls.
Qed.

Lemma keeps_element_pass f nm attrs : f ∈ element_passes -> keeps (f nm attrs).
Proof.
  unfold element_passes. intros Hin.
  repeat (apply elem_of_cons in Hin as [->|Hin];
          [first [ apply keeps_process_stylesheet | apply keeps_process_script
                 | apply keeps_process_media | apply keeps_process_style_attr
                 | apply keeps_process_icon_link | apply keeps_process_meta
                 | apply keeps_process_background ]|]).
  by apply elem_of_nil in Hin.
Qed.

Lemma keeps_passes doc : keeps (passes doc).
Proof.
  unfold passes. keep;
    first [ apply keeps_process_style_tags
          | apply keeps_visit; intros;
            first [ apply keeps_process_stylesheet | apply keeps_process_script
                  | apply keeps_process_media | apply keeps_process_style_attr
                  | apply keeps_process_icon_link | apply keeps_process_meta
                  | apply keeps_process_background ] ].
Qed.

Lemma keeps_resolve_all refs : keeps (resolve_all refs).
Proof. apply keeps_of_steady, steady_resolve_all. Qed.

End KeepsPasses.

(** ** C1: resolving a URL again *)

Lemma fetches_app u t1 t2 : fetches u (t1 ++ t2) = (fetches u t1 + fetches u t2)%nat.
Proof. unfold fetches. by rewrite List.filter_app, length_app. Qed.

Lemma fetches_absent u t : EvGet u ∉ t -> fetches u t = 0%nat.
Proof.
  unfold fetches. induction t as [|e t IH]; intros Hn; [done|].
  cbn. apply not_elem_of_cons in Hn as [Hne Hn].
  rewrite bool_decide_false by done. by apply IH.
Qed.

Section Idempotent.

Context {E : Env}.

(** C1, as the code has it.  For a reference that joins to the absolute
    URL [abs_url], resolved in the state [j] of a job:
    - the path the cache holds for [abs_url] after the call is the path the
      call returned;
    - a call that can obtain a payload (from the captured map, or by a
      request answered 200) and write it returns the path of the saved file
      and records it under [abs_url];
    - once the cache holds a path for [abs_url], in every later state of
      the job every call that resolves to [abs_url] returns that very path
      and leaves the job untouched (no request, no file), and the cache has
      gained exactly one entry for every file written: one saved file per
      URL;
    - the later states of a job are those its methods reach: the call
      itself, any run of further calls, each pass over an element, all
      passes over a document, and what follows a later state;
    - a run of calls of [_get_resource] sends no request for [abs_url] once
      the cache holds it.
    A request that failed is not remembered: a later reference to the same
    URL sends it again. *)
Theorem resolution_idempotent url base j abs_url r j' :
  not_fetchable url = false ->
  urljoin (base_or base j) url = Some abs_url ->
  _get_resource url base j = (r, j') ->
  (forall p, resource_cache j' !! abs_url = Some p -> r = Ret (Some p))
  /\ (forall data ct f,
         resource_cache j !! abs_url = None ->
         obtainable j abs_url = Some (data, ct) ->
         _generate_filename abs_url ct = Ret f ->
         writable j f = true ->
         r = Ret (Some ("assets/" +:+ f))
         /\ resource_cache j' !! abs_url = Some ("assets/" +:+ f))
  /\ (forall p j2 url2 base2,
         resource_cache j' !! abs_url = Some p ->
         grows j' j2 ->
         not_fetchable url2 = false ->
         urljoin (base_or base2 j2) url2 = Some abs_url ->
         _get_resource url2 base2 j2 = (Ret (Some p), j2)
         /\ (size (resource_cache j2) + length (writes j'))%nat
            = (size (resource_cache j') + length (writes j2))%nat)
  /\ grows j j'
  /\ (forall refs j1, grows j1 (resolve_all refs j1).2)
  /\ (forall f nm attrs j1, f ∈ element_passes -> grows j1 (f nm attrs j1).2)
  /\ (forall doc j1, grows j1 (process_style_tags doc j1).2)
  /\ (forall doc j1, grows j1 (passes doc j1).2)
  /\ (forall j1 j2 j3, grows j1 j2 -> grows j2 j3 -> grows j1 j3)
  /\ (forall p refs,
         resource_cache j' !! abs_url = Some p ->
         fetches abs_url (trace (resolve_all refs j').2)
         = fetches abs_url (trace j')).
Proof.
  intros Hf Hj Hrun. split_and!.
  - intros p Hp. by eapply get_resource_returns_stored.
  - intros data ct f Hc Ho Hname Hw.
    destruct (get_resource_stores url base j abs_url data ct f Hf Hj Hc Ho Hname Hw)
      as (j1 & Hrun1 & Hcache & _).
    rewrite Hrun in Hrun1. injection Hrun1 as -> ->.
    split; [done|]. rewrite Hcache. apply lookup_insert_eq.
  - intros p j2 url2 base2 Hp (evs & Ht & Hsub & Hsize & _) Hf2 Habs.
    assert (Hp2 : resource_cache j2 !! abs_url = Some p)
      by (eapply lookup_weaken; eauto).
    split.
    + by eapply get_resource_hit.
    + unfold writes. rewrite Ht, List.filter_app, length_app. lia.
  - pose proof (keeps_get_resource url base j) as Hk. by rewrite Hrun in Hk.
  - intros refs j1. apply keeps_resolve_all.
  - intros f nm attrs j1 Hin. by apply keeps_element_pass.
  - intros doc j1. apply keeps_process_style_tags.
  - intros doc j1. apply keeps_passes.
  - apply grows_trans.
  - intros p refs Hp.
    destruct (steady_resolve_all refs j') as (evs & Ht & _ & Hget & _).
    rewrite Ht, fetches_app, (fetches_absent abs_url evs); [lia|].
    intros Hin. apply Hget in Hin. congruence.
Qed.

End Idempotent.

(** C1 at an image the server has: fetched and saved by the first
    reference, answered from the cache when it is referenced again by another
    spelling, after the passes have gone over the sample page. *)
Lemma resolution_idempotent_witness :
  let E := library_env sample_site in
  let j := new_job "https://a.test/index.html" in
  let j1 := (_get_resource "img/y.png" None j).2 in
  let j2 := (passes sample_page j1).2 in
  _get_resource "/img/y.png" None j2 = (Ret (Some "assets/y_49c3b8b8ed8f.png"), j2)
  /\ fetches "https://a.test/img/y.png" (trace j2) = 1%nat.
Proof.
  intros E j j1 j2.
  destruct (@resolution_idempotent E "img/y.png" None j "https://a.test/img/y.png"
              (_get_resource "img/y.png" None j).1 j1 eq_refl eq_refl)
    as (_ & _ & Hlater & _ & _ & _ & _ & Hpasses & _).
  { unfold j1. by destruct (_get_resource "img/y.png" None j). }
  destruct (Hlater "assets/y_49c3b8b8ed8f.png" j2 "/img/y.png" None)
    as (Hcall & _).
  - vm_compute. reflexivity.
  - apply Hpasses.
  - reflexivity.
  - vm_compute. reflexivity.
  - split; [exact Hcall|]. vm_compute. reflexivity.
Defined.

(** C1 as stated fails on its last clause, "at most one fetch per distinct
    absolute URL per job": two references to an image the server does not
    have send two requests for the same URL. *)
Lemma repeated_fetch_counterexample :
  let E := library_env not_found in
  let j := new_job "https://a.test/index.html" in
  let run := resolve_all [("x.png", None); ("x.png", None)] j in
  run.1 = Ret [Some "x.png"; Some "x.png"]
  /\ ~ (fetches "https://a.test/x.png" (trace run.2) <= 1)%nat.
Proof.
  intros E j run. split.
  - vm_compute. reflexivity.
  - assert (H : fetches "https://a.test/x.png" (trace run.2) = 2%nat)
      by (vm_compute; reflexivity).
    rewrite H. lia.
Qed.

(** ** C2: the filename of a saved resource *)

(** C2.  The claim that any two distinct URLs get distinct filenames fails:
    these two URLs, of different hosts, have the same last path segment and
    MD5 digests with the same first 12 hexadecimal digits
    ([1eabb7e4817a8b08...] and [1eabb7e4817af96e...]), so
    [_generate_filename], whose docstring promises a unique filename, gives
    both the name [logo_1eabb7e4817a.png].  Saved
    in one job, the second payload is written over the first, and the cache
    sends both URLs to the one file that is left. *)
Theorem filename_collision :
  let E := library_env offline in
  let u1 := "https://cdn3224109.test/img/logo.png" in
  let u2 := "https://cdn9623327.test/img/logo.png" in
  let file := ["downloads"; "job"; "assets"; "logo_1eabb7e4817a.png"] in
  let j := new_job "https://a.test/index.html" in
  let j1 := (_save_resource u1 "FIRST" "image/png" j).2 in
  let j2 := (_save_resource u2 "SECOND" "image/png" j1).2 in
  u1 <> u2
  /\ MD5.hexdigest u1 = "1eabb7e4817a8b08f2d9a9f84b23af36"
  /\ MD5.hexdigest u2 = "1eabb7e4817af96e0982f3d2cf2324d5"
  /\ _generate_filename u1 "image/png" = Ret "logo_1eabb7e4817a.png"
  /\ _generate_filename u2 "image/png" = Ret "logo_1eabb7e4817a.png"
  /\ fs j1 !! file = Some (FFile "FIRST")
  /\ fs j2 !! file = Some (FFile "SECOND")
  /\ resource_cache j2 !! u1 = Some "assets/logo_1eabb7e4817a.png"
  /\ resource_cache j2 !! u2 = Some "assets/logo_1eabb7e4817a.png".
Proof.
  intros E u1 u2 file j j1 j2.
  split; [discriminate|]. split_and!; vm_compute; reflexivity.
Qed.

(** ** C10: the constructor *)

Lemma makedirs_from_spec todo : forall t above t',
  makedirs_from t above todo = Ret t' ->
  (forall k, (1 <= k <= length todo)%nat ->
             t' !! (above ++ take k todo) = Some FDir)
  /\ (forall q, (forall k, (1 <= k <= length todo)%nat -> q <> above ++ take k todo) ->
                t' !! q = t !! q).
Proof.
  induction todo as [|c rest IH]; intros t above t' Hrun.
  { cbn in Hrun. injection Hrun as <-. split; [cbn; lia|done]. }
  cbn [makedirs_from] in Hrun.
  assert (Hstep : exists t1,
             makedirs_from t1 (above ++ [c]) rest = Ret t'
             /\ t1 !! (above ++ [c]) = Some FDir
             /\ (forall q, q <> above ++ [c] -> t1 !! q = t !! q)).
  { destruct (t !! (above ++ [c])) as [[|d]|] eqn:Hp.
    - destruct rest as [|c' rest']; [done|]. exists t. done.
    - by destruct rest.
    - exists (<[above ++ [c] := FDir]> t). split_and!.
      + by destruct rest.
      + apply lookup_insert_eq.
      + intros q Hq. by apply lookup_insert_ne. }
  destruct Hstep as (t1 & Hrec & Hp1 & Hother).
  destruct (IH _ _ _ Hrec) as [IHa IHb].
  assert (Hk1 : t' !! (above ++ [c]) = Some FDir).
  { rewrite IHb; [done|]. intros k Hk Heq.
    apply (f_equal length) in Heq. rewrite !length_app, length_take in Heq.
    cbn in Heq. lia. }
  split.
  - intros [|k] Hk; [lia|]. cbn [take]. destruct k as [|k].
    + by rewrite take_0.
    + rewrite cons_middle, app_assoc. apply IHa. cbn in Hk. lia.
  - intros q Hq. rewrite IHb.
    + apply Hother. specialize (Hq 1%nat). cbn in Hq. rewrite take_0 in Hq.
      apply Hq. lia.
    + intros k Hk. specialize (Hq (S k)). cbn in Hq.
      rewrite cons_middle, app_assoc in Hq. apply Hq. lia.
Qed.

Lemma makedirs_from_succeeds todo : forall above t,
  todo <> [] ->
  (forall k, (1 <= k < length todo)%nat ->
             forall d, t !! (above ++ take k todo) <> Some (FFile d)) ->
  t !! (above ++ todo) = None ->
  exists t', makedirs_from t above todo = Ret t'.
Proof.
  induction todo as [|c rest IH]; intros above t Hne Hnf Hlast; [done|].
  cbn [makedirs_from]. destruct rest as [|c' rest'].
  { rewrite Hlast. cbn. eauto. }
  assert (Hsplit : forall l, above ++ c :: l = (above ++ [c]) ++ l)
    by (intros l; by rewrite <- app_assoc).
  destruct (t !! (above ++ [c])) as [[|d]|] eqn:Hp.
  - apply IH; [done| |by rewrite <- Hsplit].
    intros k Hk d. rewrite <- Hsplit. apply (Hnf (S k)). cbn in *. lia.
  - exfalso. by apply (Hnf 1%nat ltac:(cbn; lia) d).
  - apply IH; [done| |].
    + intros k Hk d. rewrite lookup_insert_ne.
      * rewrite <- Hsplit. apply (Hnf (S k)). cbn in *. lia.
      * intros Heq. apply (f_equal length) in Heq.
        rewrite !length_app, length_take in Heq. cbn in *. lia.
    + rewrite lookup_insert_ne; [by rewrite <- Hsplit|].
      intros Heq. apply (f_equal length) in Heq.
      rewrite !length_app in Heq. cbn in *. lia.
Qed.

Lemma makedirs_nonempty t (p : list string) :
  p <> [] -> makedirs t p = makedirs_from t [] p.
Proof. by destruct p. Qed.

Lemma is_dir_lookup t (p : list string) :
  p <> [] -> is_dir t p = true -> t !! p = Some FDir.
Proof.
  intros Hp. destruct p as [|c p]; [done|]. cbn.
  by destruct (t !! (c :: p)) as [[|d]|].
Qed.

(** In a well-formed tree nothing lies below a name that is not there. *)
Lemma wf_absent_below t (out : list string) :
  tree_wf t -> out <> [] -> t !! out = None ->
  forall q, t !! (out ++ q) = None.
Proof.
  intros Hwf Hout Habs q. induction q as [|c q IH] using rev_ind.
  { by rewrite app_nil_r. }
  destruct (t !! (out ++ q ++ [c])) as [x|] eqn:Hx; [|done]. exfalso.
  apply Hwf in Hx. rewrite app_assoc, parent_snoc in Hx.
  apply is_dir_lookup in Hx; [congruence|].
  destruct out; [done|]. discriminate.
Qed.

Lemma rmtree_lookup t out t1 :
  rmtree t out = Ret t1 ->
  forall p, t1 !! p = if decide (out `prefix_of` p) then None else t !! p.
Proof.
  unfold rmtree. destruct (t !! out) as [[|d]|]; try done.
  intros [= <-] p. case_decide as Hpre.
  - apply map_lookup_filter_None. right. intros x _ Hnot. by apply Hnot.
  - destruct (t !! p) as [x|] eqn:Hx.
    + apply map_lookup_filter_Some. done.
    + apply map_lookup_filter_None. by left.
Qed.

Lemma path_exists_lookup t (p : list string) :
  p <> [] -> path_exists t p = bool_decide (is_Some (t !! p)).
Proof. by destruct p. Qed.

(** C10.  For an output directory [out] in a well-formed tree, a constructor
    that returns leaves [out] as a directory that holds the empty directory
    [assets] and nothing else, whatever was below [out] before -- a
    directory that was there has been deleted with all it held -- and the
    rest of the tree as it was, apart from the directories made on the way
    to [out]; the job's cache and captured map are empty.  The constructor
    does return whenever no file stands at [out] or on the way to it. *)
Theorem init_fresh_output url (out : list string) t :
  out <> [] ->
  tree_wf t ->
  (forall j, __init__ url out t = Ret j ->
     fs j !! out = Some FDir
     /\ fs j !! (out ++ ["assets"]) = Some FDir
     /\ (forall q, q <> [] -> q <> ["assets"] -> fs j !! (out ++ q) = None)
     /\ (forall p, ~ p `prefix_of` (out ++ ["assets"]) -> ~ out `prefix_of` p ->
                   fs j !! p = t !! p)
     /\ resource_cache j = ∅
     /\ network_resources j = ∅
     /\ output_dir j = out
     /\ assets_dir j = out ++ ["assets"]
     /\ base_url j = url
     /\ trace j = [])
  /\ ((forall p d, p `prefix_of` out -> t !! p <> Some (FFile d)) ->
      exists j, __init__ url out t = Ret j).
Proof.
  intros Hout Hwf.
  (* the tree once the old directory is gone *)
  assert (Hclean : forall t1,
             (if path_exists t out then rmtree t out else Ret t) = Ret t1 ->
             (forall q, t1 !! (out ++ q) = None)
             /\ (forall p, ~ out `prefix_of` p -> t1 !! p = t !! p)).
  { intros t1 H1. rewrite path_exists_lookup in H1 by done.
    case_bool_decide as Hex.
    - pose proof (rmtree_lookup _ _ _ H1) as Hl. split.
      + intros q. rewrite Hl. rewrite decide_True; [done|]. by exists q.
      + intros p Hp. rewrite Hl. by rewrite decide_False.
    - injection H1 as <-. split; [|done].
      apply wf_absent_below; try done.
      by apply eq_None_not_Some. }
  split.
  - intros j Hinit. unfold __init__ in Hinit.
    destruct (if path_exists t out then rmtree t out else Ret t)
      as [t1|e] eqn:H1; [|done].
    destruct (Hclean t1 eq_refl) as [Hbelow Hrest].
    destruct (makedirs t1 (out ++ ["assets"])) as [t2|e] eqn:H2; [|done].
    injection Hinit as <-. cbn.
    rewrite makedirs_nonempty in H2 by (by destruct out).
    destruct (makedirs_from_spec _ _ _ _ H2) as [Ha Hb]. cbn in Ha, Hb.
    assert (Hlen : length (out ++ ["assets"]) = S (length out))
      by (rewrite length_app; cbn; lia).
    split_and!; try done.
    + specialize (Ha (length out)). rewrite take_app_length in Ha.
      apply Ha. destruct out; [done|]. cbn in *. lia.
    + specialize (Ha (S (length out))). rewrite <- Hlen, firstn_all in Ha.
      apply Ha. lia.
    + intros q Hq Hqa. rewrite Hb; [apply Hbelow|].
      intros k Hk Heq.
      destruct (decide (k <= length out)%nat) as [Hle|Hgt].
      * rewrite take_app_le in Heq by done.
        apply (f_equal length) in Heq. rewrite length_app, length_take in Heq.
        destruct q; [done|]. cbn in Heq. lia.
      * rewrite take_ge in Heq by lia. by apply app_inv_head in Heq.
    + intros p Hp1 Hp2. rewrite Hb; [by apply Hrest|].
      intros k Hk ->. apply Hp1. apply prefix_take.
  - intros Hfiles. unfold __init__.
    assert (Hrm : exists t1,
               (if path_exists t out then rmtree t out else Ret t) = Ret t1).
    { rewrite path_exists_lookup by done. case_bool_decide as Hex; [|eauto].
      unfold rmtree. destruct Hex as [[|d] Hx]; rewrite Hx; [eauto|].
      by destruct (Hfiles out d). }
    destruct Hrm as [t1 H1]. rewrite H1.
    destruct (Hclean t1 H1) as [Hbelow Hrest].
    destruct (makedirs_from_succeeds (out ++ ["assets"]) [] t1) as [t2 H2].
    + by destruct out.
    + intros k Hk d. cbn. rewrite length_app in Hk. cbn in Hk.
      rewrite take_app_le by lia.
      destruct (decide (k = length out)) as [->|Hneq].
      * rewrite firstn_all. specialize (Hbelow []).
        rewrite app_nil_r in Hbelow. by rewrite Hbelow.
      * rewrite Hrest; [apply Hfiles, prefix_take|].
        intros Hpre%prefix_length. rewrite length_take in Hpre. lia.
    + apply Hbelow.
    + rewrite makedirs_nonempty, H2 by (by destruct out). eauto.
Qed.

(** C10 on a tree that holds the output of an earlier job: the constructor
    returns the new job, the old files are gone, a file beside the output
    directory is still there. *)
Lemma init_fresh_output_witness :
  ["downloads"; "job"] <> ([] : list string)
  /\ tree_wf used_tree
  /\ exists j,
       __init__ "https://a.test/index.html" ["downloads"; "job"] used_tree = Ret j
       /\ fs j !! ["downloads"; "job"; "index.html"] = None
       /\ fs j !! ["downloads"; "job"; "assets"; "a_000000000000.png"] = None
       /\ fs j !! ["downloads"; "job"; "assets"] = Some FDir
       /\ fs j !! ["downloads"; "other.zip"] = Some (FFile "PK")
       /\ resource_cache j = ∅.
Proof.
  assert (Hout : ["downloads"; "job"] <> ([] : list string)) by done.
  assert (Hwf : tree_wf used_tree).
  { apply (bool_decide_unpack (tree_wf used_tree)). vm_compute. exact I. }
  split; [exact Hout|]. split; [exact Hwf|].
  destruct (init_fresh_output "https://a.test/index.html" ["downloads"; "job"]
              used_tree Hout Hwf) as [Hpost Hret].
  destruct Hret as [j Hj].
  { intros p d [k Hk]. destruct p as [|a [|b [|c p]]]; try done.
    - injection Hk as <-. vm_compute. done.
    - injection Hk as <- <-. vm_compute. done. }
  exists j. destruct (Hpost j Hj) as (_ & Hassets & Hbelow & Hrest & Hcache & _).
  split; [exact Hj|]. split.
  { apply (Hbelow ["index.html"]); discriminate. }
  split.
  { apply (Hbelow ["assets"; "a_000000000000.png"]); discriminate. }
  split; [exact Hassets|]. split; [|exact Hcache].
  rewrite Hrest.
  - vm_compute. reflexivity.
  - intros [k Hk]. discriminate.
  - intros [k Hk]. discriminate.
Defined.

(** The constructor on an empty tree makes the job the examples start
    from. *)
Example init_on_empty_tree page :
  __init__ page ["downloads"; "job"] ∅ = Ret (new_job page).
Proof. reflexivity. Qed.

(** ** C8: the scroll probe *)

(** The loop begins at most as many iterations as the cap leaves. *)
Lemma scroll_loop_bound pg viewport_height s :
  (length (positions (scroll_loop pg viewport_height s))
   <= max_iterations - iteration s)%nat
  /\ (iteration (final (scroll_loop pg viewport_height s))
      <= Nat.max (iteration s) max_iterations)%nat.
Proof.
  funelim (scroll_loop pg viewport_height s); try clear Heqcall;
    unfold max_iterations in *; cbn in *;
    repeat match goal with H : _ /\ _ |- _ => destruct H end; lia.
Qed.

(** [_scroll_page] returns whatever the page does. *)
Lemma scroll_page_returns pg j : exists j', _scroll_page pg j = (Ret tt, j').
Proof.
  unfold _scroll_page, try_except.
  destruct (scroll_probe pg j) as [[[]|e] j1].
  - eauto.
  - unfold log. run_M. eauto.
Qed.

(** C8.  From its start ([current = 0], [iteration = 0]) the loop of
    [_scroll_page] begins at most 20 iterations, whatever the page answers
    -- heights that grow at every measurement, a viewport of height 0,
    exceptions -- and [_scroll_page] itself always returns.  The cap is
    reached: on a page that grows faster than the probe scrolls the loop runs
    exactly 20 times. *)
Theorem scroll_probe_bounded pg viewport_height total :
  let r := scroll_loop pg viewport_height
             {| current := 0; total_height := total; iteration := 0 |} in
  max_iterations = 20%nat
  /\ (length (positions r) <= 20)%nat
  /\ (iteration (final r) <= 20)%nat
  /\ (forall j, exists j', _scroll_page pg j = (Ret tt, j'))
  /\ length (positions
               (scroll_loop (growing_page 1000 500 100) 100
                  {| current := 0; total_height := 1000; iteration := 0 |}))
     = 20%nat.
Proof.
  intros r.
  destruct (scroll_loop_bound pg viewport_height
              {| current := 0; total_height := total; iteration := 0 |})
    as [Hp Hi].
  fold r in Hp, Hi. cbn in Hp, Hi. unfold max_iterations in *.
  split_and!.
  - reflexivity.
  - lia.
  - lia.
  - intros j. apply scroll_page_returns.
  - vm_compute. reflexivity.
Qed.

(** ** Attributes and positions *)

Lemma attr_get_set k v attrs : attr_get k (attr_set k v attrs) = Some v.
Proof.
  induction attrs as [|[k' v'] attrs IH]; cbn.
  - by rewrite decide_True.
  - destruct (decide (k' = k)) as [->|Hne]; cbn.
    + by rewrite decide_True.
    + by rewrite decide_False.
Qed.

Lemma attr_get_set_ne k k' v attrs :
  k' <> k -> attr_get k' (attr_set k v attrs) = attr_get k' attrs.
Proof.
  intros Hne. induction attrs as [|[k0 v0] attrs IH]; cbn.
  - by rewrite decide_False.
  - destruct (decide (k0 = k)) as [->|Hne0]; cbn.
    + by rewrite !decide_False.
    + destruct (decide (k0 = k')); [done|exact IH].
Qed.

Lemma attr_get_del k attrs : attr_get k (attr_del k attrs) = None.
Proof.
  unfold attr_del. induction attrs as [|[k0 v0] attrs IH]; [done|].
  rewrite filter_cons. cbn. destruct (decide (k0 <> k)) as [Hne|Heq]; [|exact IH].
  cbn. by rewrite decide_False.
Qed.

Lemma attr_get_del_ne k k' attrs :
  k' <> k -> attr_get k' (attr_del k attrs) = attr_get k' attrs.
Proof.
  intros Hne. unfold attr_del. induction attrs as [|[k0 v0] attrs IH]; [done|].
  rewrite filter_cons. cbn. destruct (decide (k0 <> k)) as [Hne0|Heq]; cbn.
  - destruct (decide (k0 = k')); [done|exact IH].
  - apply dec_stable in Heq. subst k0. by rewrite decide_False.
Qed.

(** A pass over the attributes changes the element at a position and
    leaves it where it is. *)
Lemma element_at_map f pos : forall doc nm attrs,
  element_at doc pos = Some (nm, attrs) ->
  element_at (map_elements f doc) pos = Some (nm, f nm attrs).
Proof.
  induction pos as [|i pos IH]; intros [nm0 at0 ch|s] nm attrs H; cbn in *;
    try done.
  - by injection H as <- <-.
  - rewrite list_lookup_fmap. destruct (ch !! i) as [c|]; [|done].
    cbn. by apply IH.
Qed.

Lemma startswith_slash_of_scheme h :
  Py.startswith "http://" h = true \/ Py.startswith "https://" h = true ->
  Py.startswith "/" h = false.
Proof.
  unfold Py.startswith. destruct (Py.chars h) as [|c l]; [by intros [|]|].
  cbn. destruct (decide ("/"%char = c)) as [<-|]; [|done].
  by intros [|].
Qed.

(** ** C5: navigation links *)

(** C5.  An [a] element whose [href] is [/] or another root-relative path
    (it starts with [/] but not with [//]) stays where it is in the
    document, with [href] equal to [#] and its other attributes as they
    were.  An [a] element whose [href] is an absolute URL -- or any other
    text that does not start with a single slash -- is left as it was, and
    so is every element that is not an [a]. *)
Theorem root_links_become_anchors doc pos nm attrs :
  element_at doc pos = Some (nm, attrs) ->
  (forall href,
      nm = "a" ->
      attr_get "href" attrs = Some href ->
      href = "/"
      \/ (Py.startswith "/" href = true /\ Py.startswith "//" href = false) ->
      exists attrs',
        element_at (fix_navigation doc) pos = Some ("a", attrs')
        /\ attr_get "href" attrs' = Some "#"
        /\ forall k, k <> "href" -> attr_get k attrs' = attr_get k attrs)
  /\ (forall href,
         nm = "a" ->
         attr_get "href" attrs = Some href ->
         Py.startswith "http://" href = true
         \/ Py.startswith "https://" href = true
         \/ Py.startswith "/" href = false
         \/ Py.startswith "//" href = true ->
         element_at (fix_navigation doc) pos = Some ("a", attrs))
  /\ (nm <> "a" -> element_at (fix_navigation doc) pos = Some (nm, attrs)).
Proof.
  intros Hat. apply (element_at_map fix_anchor) in Hat.
  fold (fix_navigation doc) in Hat. split_and!.
  - intros href -> Hhref Hroot. exists (attr_set "href" "#" attrs).
    split_and!.
    + rewrite Hat. unfold fix_anchor. rewrite decide_True by done.
      rewrite Hhref. destruct (decide (href = "/")); [done|].
      destruct Hroot as [?|[-> ->]]; done.
    + apply attr_get_set.
    + intros k Hk. by apply attr_get_set_ne.
  - intros href -> Hhref Habs. rewrite Hat. unfold fix_anchor.
    rewrite decide_True by done. rewrite Hhref.
    assert (Hno : Py.startswith "/" href = false \/ Py.startswith "//" href = true).
    { destruct Habs as [H|[H|[H|H]]]; eauto using startswith_slash_of_scheme. }
    destruct (decide (href = "/")) as [->|_].
    + by destruct Hno.
    + by destruct Hno as [-> | ->]; rewrite ?andb_false_r.
  - intros Hne. rewrite Hat. unfold fix_anchor. by rewrite decide_False.
Qed.

(** C5 on the sample page: [/about] becomes [#], the link to another site
    stays. *)
Lemma root_links_become_anchors_witness :
  element_at (fix_navigation sample_page) [1; 1]%nat
  = Some ("a", [("href", "#"); ("class", "nav")])
  /\ element_at (fix_navigation sample_page) [1; 3]%nat
     = Some ("a", [("href", "https://other.test/page")]).
Proof.
  destruct (root_links_become_anchors sample_page [1; 1]%nat "a"
              [("href", "/about"); ("class", "nav")] eq_refl)
    as (Hroot & _ & _).
  destruct (Hroot "/about" eq_refl eq_refl) as (attrs' & Hat & _).
  { right. split; reflexivity. }
  destruct (root_links_become_anchors sample_page [1; 3]%nat "a"
              [("href", "https://other.test/page")] eq_refl)
    as (_ & Habs & _).
  split.
  - rewrite Hat. vm_compute in Hat. by injection Hat as <-.
  - apply (Habs "https://other.test/page" eq_refl eq_refl).
    right. left. reflexivity.
Defined.

(** ** C6: lazy-loading attributes *)

Section LazyAttributes.

Context {E : Env}.

(** The loop passes over the attributes that are absent or empty. *)
Lemma lazy_loop_skip before : forall rest attrs src j,
  Forall (fun a => attr_truthy a attrs = None) before ->
  lazy_loop (before ++ rest) attrs src j = lazy_loop rest attrs src j.
Proof.
  induction before as [|a before IH]; intros rest attrs src j Hall; [done|].
  apply Forall_cons in Hall as [Ha Hall]. cbn [app lazy_loop]. rewrite Ha.
  by apply IH.
Qed.

Lemma lazy_attrs_not_src a : a ∈ lazy_attrs -> a <> "src".
Proof.
  unfold lazy_attrs. intros Hin ->.
  repeat (apply elem_of_cons in Hin as [Hin|Hin]; [done|]).
  by apply elem_of_nil in Hin.
Qed.

Lemma lazy_attrs_nodup : NoDup lazy_attrs.
Proof. apply (bool_decide_unpack (NoDup lazy_attrs)). vm_compute. exact I. Qed.

(** The loop touches [src] and the attribute it stops at, nothing else. *)
Lemma lazy_loop_other names : forall attrs src j r j' k,
  lazy_loop names attrs src j = (Ret r, j') ->
  k <> "src" -> k ∉ names -> attr_get k r.1 = attr_get k attrs.
Proof.
  induction names as [|a names IH]; intros attrs src j r j' k Hrun Hk Hnin.
  { cbn in Hrun. run_M. by injection Hrun as <- <-. }
  apply not_elem_of_cons in Hnin as [Hka Hnin]. cbn [lazy_loop] in Hrun.
  destruct (attr_truthy a attrs) as [v|]; [|by eapply IH].
  run_M. destruct (_get_resource v None j) as [[lp|e] j1]; [|done].
  destruct (resolved_to lp v); injection Hrun as <- <-; cbn; [|done].
  rewrite attr_get_del_ne by done. by apply attr_get_set_ne.
Qed.

Lemma process_src_other attrs j r j' k :
  process_src attrs j = (Ret r, j') ->
  k <> "src" -> k ∉ lazy_attrs -> attr_get k r = attr_get k attrs.
Proof.
  unfold process_src. run_M. intros Hrun Hk Hnin.
  destruct (lazy_loop lazy_attrs attrs (attr_get "src" attrs) j)
    as [[[attrs1 src1]|e] j1] eqn:Hloop; [|done].
  pose proof (lazy_loop_other _ _ _ _ _ _ k Hloop Hk Hnin) as H1.
  cbn [fst snd] in *.
  assert (Hrw : forall v, rewrite_attr "src" v attrs1 j1 = (Ret r, j') ->
                          attr_get k r = attr_get k attrs).
  { intros v. unfold rewrite_attr. run_M.
    destruct (_get_resource v None j1) as [[lp|e] j2]; [|done].
    destruct (resolved_to lp v); intros [= <- <-]; [|done].
    by rewrite attr_get_set_ne. }
  destruct src1 as [s|]; [|by injection Hrun as <- <-].
  destruct (Py.truthy s && negb (Py.startswith "data:" s)); [by eapply Hrw|].
  by injection Hrun as <- <-.
Qed.

Lemma attr_truthy_none k attrs : attr_get k attrs = None -> attr_truthy k attrs = None.
Proof. unfold attr_truthy. by intros ->. Qed.


End LazyAttributes.



(** ** C4: [url()] tokens of a stylesheet *)

Lemma css_pieces_skip a rest : css_pieces (length a) (a ++ rest) = css_pieces 0 rest.
Proof. induction a as [|c a IH]; [done|]. exact IH. Qed.

Lemma upto_paren_app inner rest :
  ")"%char ∉ inner -> upto_paren (inner ++ ")"%char :: rest) = Some inner.
Proof.
  induction inner as [|c inner IH]; intros Hn; cbn.
  - by rewrite decide_True.
  - apply not_elem_of_cons in Hn as [Hc Hn].
    rewrite decide_False by done. by rewrite IH.
Qed.

Lemma full_match_unfold inner rest :
  full_match inner ++ rest
  = "u"%char :: "r"%char :: "l"%char :: "("%char :: inner ++ ")"%char :: rest.
Proof. unfold full_match. cbn. by rewrite <- app_assoc. Qed.

Lemma url_match_token inner rest :
  inner <> [] -> ")"%char ∉ inner ->
  url_match (full_match inner ++ rest) = Some inner.
Proof.
  intros Hne Hn. rewrite full_match_unfold. unfold url_match.
  change (Py.starts (Py.chars "url(")
            ("u"%char :: "r"%char :: "l"%char :: "("%char :: inner ++ ")"%char :: rest))
    with true.
  change (drop 4 ("u"%char :: "r"%char :: "l"%char :: "("%char
                  :: inner ++ ")"%char :: rest))
    with (inner ++ ")"%char :: rest).
  rewrite upto_paren_app by done. by destruct inner.
Qed.

Lemma css_pieces_cons c l :
  css_pieces 0 (c :: l)
  = match url_match (c :: l) with
    | Some inner => UrlToken inner :: css_pieces (length inner + 4) l
    | None => Lit c :: css_pieces 0 l
    end.
Proof. reflexivity. Qed.

(** The scan finds a token that stands at the head of the text, whatever
    blanks and quotes are between its parentheses, and resumes after it. *)
Lemma css_pieces_token inner rest :
  inner <> [] -> ")"%char ∉ inner ->
  css_pieces 0 (full_match inner ++ rest) = UrlToken inner :: css_pieces 0 rest.
Proof.
  intros Hne Hn.
  pose proof (url_match_token inner rest Hne Hn) as Hm.
  rewrite full_match_unfold in Hm |- *. rewrite css_pieces_cons, Hm. f_equal.
  replace ("r"%char :: "l"%char :: "("%char :: inner ++ ")"%char :: rest)
    with (("r"%char :: "l"%char :: "("%char :: inner ++ [")"%char]) ++ rest)
    by (cbn; by rewrite <- app_assoc).
  replace (length inner + 4)%nat
    with (length ("r"%char :: "l"%char :: "("%char :: inner ++ [")"%char]))
    by (cbn; rewrite length_app; cbn; lia).
  apply css_pieces_skip.
Qed.

Lemma url_match_none l : Py.starts (Py.chars "url(") l = false -> url_match l = None.
Proof. unfold url_match. by intros ->. Qed.

(** A window of the text that starts before a token and is no match. *)
Lemma starts_url_before c pre rest :
  Py.starts (Py.chars "url(") (c :: pre) = false ->
  Py.starts (Py.chars "url(") (c :: pre ++ Py.chars "url(" ++ rest) = false.
Proof.
  destruct pre as [|c1 [|c2 [|c3 pre]]]; cbn.
  - intros _. destruct (decide ("u"%char = c)) as [<-|]; [|done]. reflexivity.
  - destruct (decide ("u"%char = c)) as [<-|]; [|done].
    destruct (decide ("r"%char = c1)) as [<-|]; [|done]. reflexivity.
  - destruct (decide ("u"%char = c)) as [<-|]; [|done].
    destruct (decide ("r"%char = c1)) as [<-|]; [|done].
    destruct (decide ("l"%char = c2)) as [<-|]; [|done]. reflexivity.
  - done.
Qed.

(** The text before the first token is passed over character by
    character. *)
Lemma css_pieces_before pre inner rest :
  Py.occurs (Py.chars "url(") pre = false ->
  css_pieces 0 (pre ++ full_match inner ++ rest)
  = (Lit <$> pre) ++ css_pieces 0 (full_match inner ++ rest).
Proof.
  induction pre as [|c pre IH]; [done|]. intros Hocc.
  cbn [Py.occurs] in Hocc. apply orb_false_elim in Hocc as [Hs Hocc].
  cbn [app fmap list_fmap]. rewrite css_pieces_cons.
  rewrite url_match_none.
  - by rewrite IH.
  - unfold full_match. rewrite <- !app_assoc. by apply starts_url_before.
Qed.

Lemma css_pieces_plain l :
  Py.occurs (Py.chars "url(") l = false -> css_pieces 0 l = Lit <$> l.
Proof.
  induction l as [|c l IH]; [done|]. intros Hocc.
  cbn [Py.occurs] in Hocc. apply orb_false_elim in Hocc as [Hs Hocc].
  rewrite css_pieces_cons, url_match_none by done. cbn. by rewrite IH.
Qed.

(** The text before the first [url(] is passed over character by
    character, whatever follows it. *)
Lemma css_pieces_before_url pre rest :
  Py.occurs (Py.chars "url(") pre = false ->
  css_pieces 0 (pre ++ Py.chars "url(" ++ rest)
  = (Lit <$> pre) ++ css_pieces 0 (Py.chars "url(" ++ rest).
Proof.
  induction pre as [|c pre IH]; [done|]. intros Hocc.
  cbn [Py.occurs] in Hocc. apply orb_false_elim in Hocc as [Hs Hocc].
  cbn [app fmap list_fmap]. rewrite css_pieces_cons.
  rewrite url_match_none; [by rewrite IH|]. by apply starts_url_before.
Qed.

(** [url()] is no token: the scan passes over it. *)
Lemma css_pieces_empty_parens post :
  css_pieces 0 (Py.chars "url()" ++ post) = (Lit <$> Py.chars "url()") ++ css_pieces 0 post.
Proof. reflexivity. Qed.

Lemma upto_paren_none l : ")"%char ∉ l -> upto_paren l = None.
Proof.
  induction l as [|c l IH]; [done|]. intros [Hc Hl]%not_elem_of_cons.
  cbn. rewrite decide_False by done. by rewrite IH.
Qed.

Lemma elem_of_drop_list {A} (x : A) n l : x ∈ drop n l -> x ∈ l.
Proof.
  revert n. induction l as [|a l IH]; intros [|n]; cbn; try done.
  intros Hin. right. by eapply IH.
Qed.

(** A text without a closing parenthesis holds no token. *)
Lemma css_pieces_unclosed l : ")"%char ∉ l -> css_pieces 0 l = Lit <$> l.
Proof.
  induction l as [|c l IH]; [done|]. intros Hn.
  assert (Hm : url_match (c :: l) = None).
  { unfold url_match. destruct (Py.starts _ _); [|done].
    rewrite upto_paren_none; [done|]. intros Hin. apply Hn.
    by eapply elem_of_drop_list. }
  rewrite css_pieces_cons, Hm. cbn [fmap list_fmap]. f_equal.
  apply IH. by apply not_elem_of_cons in Hn as [_ Hn].
Qed.

Lemma starts_split p l : Py.starts p l = true -> exists r, l = p ++ r.
Proof.
  revert l. induction p as [|a p IH]; intros l; [by exists l|].
  destruct l as [|b l]; [done|]. cbn.
  destruct (decide (a = b)) as [->|]; [|done].
  intros [r ->]%IH. by exists r.
Qed.

Lemma starts_longer p l r : Py.starts p l = true -> Py.starts p (l ++ r) = true.
Proof.
  revert l. induction p as [|a p IH]; intros l; [done|].
  destruct l as [|b l]; [done|]. cbn.
  destruct (decide (a = b)); [apply IH|done].
Qed.

(** A text in which [sub] occurs, cut at the first occurrence. *)
Lemma occurs_first a sub l :
  Py.occurs (a :: sub) l = true ->
  exists pre rest,
    l = pre ++ (a :: sub) ++ rest /\ Py.occurs (a :: sub) pre = false.
Proof.
  induction l as [|c l IH]; [done|]. cbn [Py.occurs].
  destruct (Py.starts (a :: sub) (c :: l)) eqn:Hs.
  - intros _. apply starts_split in Hs as [r ->]. by exists [], r.
  - cbn [orb]. intros (pre & rest & -> & Hpre)%IH.
    exists (c :: pre), rest. split; [done|]. cbn [Py.occurs]. rewrite Hpre.
    destruct (Py.starts (a :: sub) (c :: pre)) eqn:Hs'; [|done].
    apply (starts_longer _ _ (a :: sub ++ rest)) in Hs'.
    cbn [app] in Hs, Hs'. congruence.
Qed.

(** *** The target of a token *)

Lemma lstrip_blanks ws l :
  Forall (fun c => Py.isspace c = true) ws ->
  Py.lstrip_chars (ws ++ l) = Py.lstrip_chars l.
Proof.
  induction 1 as [|c ws Hc _ IH]; [done|]. cbn. by rewrite Hc.
Qed.

Lemma lstrip_head l c :
  head l = Some c -> Py.isspace c = false -> Py.lstrip_chars l = l.
Proof. destruct l as [|c' l]; [done|]. intros [= ->] Hc. cbn. by rewrite Hc. Qed.

Lemma head_rev {A} (l : list A) : head (rev l) = last l.
Proof.
  induction l as [|a l IH] using rev_ind; [done|].
  by rewrite rev_app_distr, last_snoc.
Qed.

Lemma elem_rev {A} (x : A) l : x ∈ rev l <-> x ∈ l.
Proof. rewrite !list_elem_of_In. symmetry. apply in_rev. Qed.

Lemma Forall_rev_blank (ws : list ascii) :
  Forall (fun c => Py.isspace c = true) ws ->
  Forall (fun c => Py.isspace c = true) (rev ws).
Proof.
  rewrite !Forall_forall. intros H c Hin. apply H. by apply elem_rev.
Qed.

(** [strip] takes the blanks off both ends and nothing else. *)
Lemma strip_blanks ws1 content ws2 c d :
  Forall (fun c => Py.isspace c = true) ws1 ->
  Forall (fun c => Py.isspace c = true) ws2 ->
  head content = Some c -> last content = Some d ->
  Py.isspace c = false -> Py.isspace d = false ->
  Py.strip_chars (ws1 ++ content ++ ws2) = content.
Proof.
  intros H1 H2 Hh Hl Hc Hd. unfold Py.strip_chars.
  rewrite lstrip_blanks by done.
  assert (Hne : content ++ ws2 = c :: tail content ++ ws2)
    by (destruct content; [done|]; by injection Hh as ->).
  rewrite (lstrip_head (content ++ ws2) c); [|by rewrite Hne|done].
  rewrite rev_app_distr, lstrip_blanks by (by apply Forall_rev_blank).
  rewrite (lstrip_head (rev content) d); [apply rev_involutive| |done].
  by rewrite head_rev.
Qed.

Lemma quote_not_blank c : quote_char c = true -> Py.isspace c = false.
Proof.
  unfold quote_char. intros [H|H]%orb_true_iff; apply bool_decide_eq_true in H;
    by subst c.
Qed.

Lemma starts_quote l c :
  head l = Some c ->
  Py.starts (Py.chars "'") l || Py.starts [dquote] l = quote_char c.
Proof.
  destruct l as [|c' l]; [done|]. intros [= ->]. unfold quote_char. cbn.
  destruct (decide ("'"%char = c)) as [<-|H1]; [done|].
  destruct (decide (dquote = c)) as [<-|H2]; [done|].
  rewrite !bool_decide_false by congruence. done.
Qed.

Lemma token_quotes content c d :
  head content = Some c -> last content = Some d ->
  (Py.startswith "'" (Py.str content) || Py.starts [dquote] (Py.chars (Py.str content)))
  && (Py.endswith "'" (Py.str content)
      || Py.starts [dquote] (rev (Py.chars (Py.str content))))
  = quote_char c && quote_char d.
Proof.
  intros Hh Hl. unfold Py.startswith, Py.endswith. rewrite chars_str.
  rewrite (starts_quote content c Hh).
  change (rev (Py.chars "'")) with (Py.chars "'").
  rewrite (starts_quote (rev content) d); [done|]. by rewrite head_rev.
Qed.

(** The target of a token is the text between the parentheses without the
    blanks around it and without the quotes around that. *)
Lemma token_target_quoted ws1 q1 u q2 ws2 :
  Forall (fun c => Py.isspace c = true) ws1 ->
  Forall (fun c => Py.isspace c = true) ws2 ->
  quote_char q1 = true -> quote_char q2 = true ->
  token_target (ws1 ++ (q1 :: u ++ [q2]) ++ ws2) = Py.str u.
Proof.
  intros H1 H2 Hq1 Hq2. unfold token_target, Py.strip. rewrite chars_str.
  rewrite (strip_blanks ws1 (q1 :: u ++ [q2]) ws2 q1 q2); try done.
  2:{ change (q1 :: u ++ [q2]) with ((q1 :: u) ++ [q2]). apply last_snoc. }
  2,3: by apply quote_not_blank.
  rewrite (token_quotes (q1 :: u ++ [q2]) q1 q2); try done.
  2:{ change (q1 :: u ++ [q2]) with ((q1 :: u) ++ [q2]). apply last_snoc. }
  rewrite Hq1, Hq2. cbn [andb]. unfold Py.strip_ends. rewrite chars_str.
  f_equal. cbn [drop length]. rewrite length_app. cbn [length].
  replace (S (length u + 1) - 2)%nat with (length u) by lia.
  rewrite drop_0. apply take_app_length.
Qed.

Lemma token_target_bare ws1 content ws2 c d :
  Forall (fun c => Py.isspace c = true) ws1 ->
  Forall (fun c => Py.isspace c = true) ws2 ->
  head content = Some c -> last content = Some d ->
  Py.isspace c = false -> Py.isspace d = false ->
  quote_char c && quote_char d = false ->
  token_target (ws1 ++ content ++ ws2) = Py.str content.
Proof.
  intros H1 H2 Hh Hl Hc Hd Hq. unfold token_target, Py.strip. rewrite chars_str.
  rewrite (strip_blanks ws1 content ws2 c d) by done.
  by rewrite (token_quotes content c d), Hq.
Qed.

(** *** The text around a token *)

Lemma mapM_app {A B} (f : A -> M B) l1 l2 j :
  mapM f (l1 ++ l2) j
  = (b1 ← mapM f l1; b2 ← mapM f l2; mret (b1 ++ b2)) j.
Proof.
  revert j. induction l1 as [|a l1 IH]; intros j.
  - cbn. run_M. by destruct (mapM f l2 j) as [[b|e] j'].
  - cbn [app mapM]. run_M. destruct (f a j) as [[b|e] j1]; [|done].
    specialize (IH j1). run_M. rewrite IH.
    destruct (mapM f l1 j1) as [[b1|e] j2]; [|done].
    by destruct (mapM f l2 j2) as [[b2|e] j3].
Qed.

Lemma concat_singletons (l : list ascii) : concat ((fun c => [c]) <$> l) = l.
Proof. induction l as [|c l IH]; [done|]. cbn. by rewrite IH. Qed.

Section StylesheetTokens.

Context {E : Env}.

Lemma rewrite_literals css_url l j :
  mapM (rewrite_piece css_url) (Lit <$> l) j = (Ret ((fun c => [c]) <$> l), j).
Proof.
  induction l as [|c l IH]; [done|]. cbn [fmap list_fmap mapM rewrite_piece].
  run_M. cbn in IH. by rewrite IH.
Qed.

(** What [replacer] does with one token. *)
Lemma replacer_spec css_url inner j :
  let target := token_target inner in
  (target = "" \/ Py.startswith "data:" target = true ->
   replacer css_url inner j = (Ret (full_match inner), j))
  /\ (target <> "" -> Py.startswith "data:" target = false ->
      (urljoin css_url target = None ->
       replacer css_url inner j = (Raise ValueError, j))
      /\ forall abs_url r j',
        urljoin css_url target = Some abs_url ->
        _get_resource abs_url None j = (r, j') ->
        replacer css_url inner j
        = match r with
          | Ret (Some p) =>
              if Py.truthy p && Py.startswith "assets/" p
              then (Ret (quoted_url (OsPath.basename p)), j')
              else (Ret (full_match inner), j')
          | Ret None => (Ret (full_match inner), j')
          | Raise e => (Raise e, j')
          end).
Proof.
  intros target. split.
  - intros Hskip. unfold replacer. fold target.
    destruct Hskip as [Hs | Hs]; rewrite Hs; [reflexivity|].
    by rewrite orb_true_r.
  - intros Hne Hdata.
    assert (Ht : Py.truthy target = true) by (by destruct target).
    split.
    + intros Hj. unfold replacer. fold target. rewrite Ht, Hdata.
      cbn [negb orb]. run_M. by rewrite (join_fails _ _ _ Hj).
    + intros abs_url r j' Hj Hres. unfold replacer. fold target.
      rewrite Ht, Hdata. cbn [negb orb]. run_M.
      rewrite (join_ok _ _ _ _ Hj), Hres.
      destruct r as [[p|]|e]; try reflexivity.
      unfold quoted_url.
      by destruct (Py.truthy p && Py.startswith "assets/" p).
Qed.

(** The text with its first token taken out: what stands before the token
    stays, the token is handed to [replacer], the rest is rewritten in the
    job that [replacer] leaves. *)
Lemma rewrite_css_first_token css_url pre inner post j :
  Py.occurs (Py.chars "url(") pre = false ->
  inner <> [] -> ")"%char ∉ inner ->
  _rewrite_css_urls (Py.str (pre ++ full_match inner ++ post)) css_url j
  = (token ← replacer css_url inner;
     rest ← _rewrite_css_urls (Py.str post) css_url;
     mret (Py.str (pre ++ token ++ Py.chars rest))) j.
Proof.
  intros Hpre Hne Hin. unfold _rewrite_css_urls. rewrite !chars_str.
  rewrite css_pieces_before, css_pieces_token by done.
  run_M. pose proof (mapM_app (rewrite_piece css_url) (Lit <$> pre)
                       (UrlToken inner :: css_pieces 0 post) j) as Happ.
  run_M. rewrite Happ, rewrite_literals. cbn [mapM rewrite_piece]. run_M.
  destruct (replacer css_url inner j) as [[token|e] j1]; [|done].
  destruct (mapM (rewrite_piece css_url) (css_pieces 0 post) j1)
    as [[parts|e] j2]; [|done].
  rewrite chars_str, concat_app, concat_singletons. reflexivity.
Qed.

(** A text in which [url(] does not occur comes back as it was. *)
Lemma rewrite_css_plain css css_url j :
  Py.contains "url(" css = false ->
  _rewrite_css_urls css css_url j = (Ret css, j).
Proof.
  intros Hno. unfold _rewrite_css_urls. run_M.
  rewrite css_pieces_plain by exact Hno.
  rewrite rewrite_literals, concat_singletons. by rewrite str_chars.
Qed.

(** [url()] is passed over, and the text after it is rewritten. *)
Lemma rewrite_css_empty_parens css_url pre post j :
  Py.occurs (Py.chars "url(") pre = false ->
  _rewrite_css_urls (Py.str (pre ++ Py.chars "url()" ++ post)) css_url j
  = (rest ← _rewrite_css_urls (Py.str post) css_url;
     mret (Py.str (pre ++ Py.chars "url()" ++ Py.chars rest))) j.
Proof.
  intros Hpre. unfold _rewrite_css_urls. rewrite !chars_str.
  change (Py.chars "url()" ++ post) with (Py.chars "url(" ++ ")"%char :: post).
  rewrite css_pieces_before_url by done.
  change (Py.chars "url(" ++ ")"%char :: post) with (Py.chars "url()" ++ post).
  rewrite css_pieces_empty_parens, app_assoc, <- fmap_app.
  run_M. pose proof (mapM_app (rewrite_piece css_url)
                       (Lit <$> (pre ++ Py.chars "url()"))
                       (css_pieces 0 post) j) as Happ.
  run_M. rewrite Happ, rewrite_literals.
  destruct (mapM (rewrite_piece css_url) (css_pieces 0 post) j)
    as [[parts|e] j2]; [|done].
  rewrite chars_str, concat_app, concat_singletons, <- app_assoc. reflexivity.
Qed.

(** A [url(] that is never closed: the text comes back as it was. *)
Lemma rewrite_css_unclosed css_url pre rest j :
  Py.occurs (Py.chars "url(") pre = false -> ")"%char ∉ rest ->
  _rewrite_css_urls (Py.str (pre ++ Py.chars "url(" ++ rest)) css_url j
  = (Ret (Py.str (pre ++ Py.chars "url(" ++ rest)), j).
Proof.
  intros Hpre Hrest. unfold _rewrite_css_urls. rewrite !chars_str.
  rewrite css_pieces_before_url by done.
  rewrite (css_pieces_unclosed (Py.chars "url(" ++ rest)).
  2:{ intros [Hin|Hin]%elem_of_app; [|done].
      revert Hin. apply (bool_decide_unpack (")"%char ∉ Py.chars "url(")).
      vm_compute. exact I. }
  rewrite <- fmap_app. run_M. rewrite rewrite_literals.
  by rewrite concat_singletons.
Qed.

End StylesheetTokens.

(** Every text is of one of four shapes: [url(] does not occur in it; or
    its first [url(] is never closed, is closed at once, or is a token. *)
Lemma css_text_shapes l :
  Py.occurs (Py.chars "url(") l = false
  \/ exists pre rest,
       l = pre ++ Py.chars "url(" ++ rest
       /\ Py.occurs (Py.chars "url(") pre = false
       /\ ((")"%char ∉ rest)
           \/ (exists post, rest = ")"%char :: post)
           \/ exists inner post,
                rest = inner ++ ")"%char :: post
                /\ inner <> [] /\ ")"%char ∉ inner).
Proof.
  destruct (Py.occurs (Py.chars "url(") l) eqn:Hocc; [right|by left].
  apply occurs_first in Hocc as (pre & rest & -> & Hpre).
  exists pre, rest. split_and!; try done.
  destruct (decide (")"%char ∈ rest)) as [Hin|Hn]; [|by left]. right.
  apply list_elem_of_split_l in Hin as (inner & post & -> & Hinner).
  destruct inner as [|c inner]; [left; by exists post|].
  right. by exists (c :: inner), post.
Qed.

(** C4.  Take any stylesheet text and its first token: the text is
    [pre url(inner) post] where [url(] does not occur in [pre] and [inner]
    is not empty and holds no closing parenthesis.  With [css_url] the URL
    the text is rewritten for:
    - the target of the token is [inner] without the blanks around it and
      without the quotes around that;
    - a token whose target is empty or starts with [data:] is left as it is,
      the job is untouched, and the rest of the text is rewritten in turn;
    - for any other token the target is joined to [css_url] and the
      result is handed to the resolver (a target that cannot be joined
      raises [ValueError]); when the resolver returns a path under
      [assets/] the token becomes [url("name")] with the file name of that
      path, otherwise the token is left as it is; the rest of the text is
      rewritten in the job the resolver leaves;
    - the pass over the stylesheet links rewrites the text of a sheet --
      the captured body, or else the answer to its own request -- with
      [css_url] the link's [href] joined to the page URL, that is the
      sheet's own absolute URL, and saves the result under that URL;
    - every text is of one of four shapes, and the other three have no
      first token: [url(] does not occur in it, or its first [url(] is never
      closed -- both come back as they are, the job untouched -- or its
      first [url(] is closed at once, and then [url()] stays and the text
      after it is rewritten in turn.
    For the sheet [https://a.test/css/x.css] linked from a page of
    [b.test], the token [../img/y.png] is fetched from
    [https://a.test/img/y.png] and rewritten; nothing is asked of
    [b.test]. *)
Theorem stylesheet_tokens_use_sheet_url {E : Env} css_url pre inner post j :
  Py.occurs (Py.chars "url(") pre = false ->
  inner <> [] -> ")"%char ∉ inner ->
  let css := Py.str (pre ++ full_match inner ++ post) in
  let target := token_target inner in
  let rest_with token :=
    rest ← _rewrite_css_urls (Py.str post) css_url;
    mret (Py.str (pre ++ token ++ Py.chars rest)) in
  (forall ws1 q1 u q2 ws2,
      Forall (fun c => Py.isspace c = true) ws1 ->
      Forall (fun c => Py.isspace c = true) ws2 ->
      quote_char q1 = true -> quote_char q2 = true ->
      inner = ws1 ++ (q1 :: u ++ [q2]) ++ ws2 ->
      target = Py.str u)
  /\ (forall ws1 content ws2 c d,
         Forall (fun c => Py.isspace c = true) ws1 ->
         Forall (fun c => Py.isspace c = true) ws2 ->
         head content = Some c -> last content = Some d ->
         Py.isspace c = false -> Py.isspace d = false ->
         quote_char c && quote_char d = false ->
         inner = ws1 ++ content ++ ws2 ->
         target = Py.str content)
  /\ (target = "" \/ Py.startswith "data:" target = true ->
      _rewrite_css_urls css css_url j = rest_with (full_match inner) j)
  /\ (target <> "" -> Py.startswith "data:" target = false ->
      (urljoin css_url target = None ->
       _rewrite_css_urls css css_url j = (Raise ValueError, j))
      /\ forall abs_url r j1,
           urljoin css_url target = Some abs_url ->
           _get_resource abs_url None j = (r, j1) ->
           _rewrite_css_urls css css_url j
           = match r with
             | Ret (Some p) =>
                 if Py.truthy p && Py.startswith "assets/" p
                 then rest_with (quoted_url (OsPath.basename p)) j1
                 else rest_with (full_match inner) j1
             | Ret None => rest_with (full_match inner) j1
             | Raise e => (Raise e, j1)
             end)
  /\ (forall attrs href sheet_url,
         "stylesheet" ∈ from_option words [] (attr_get "rel" attrs) ->
         attr_truthy "href" attrs = Some href ->
         Py.startswith "data:" href = false ->
         urljoin (base_url j) href = Some sheet_url ->
         let finish sheet :=
           css' ← _rewrite_css_urls sheet sheet_url;
           local_path ← _save_resource sheet_url (encode_utf8 css') "text/css";
           match local_path with
           | Some p =>
               if Py.truthy p then mret (attr_set "href" p attrs)
               else mret attrs
           | None => mret attrs
           end in
         (forall e,
             network_resources j !! sheet_url = Some e ->
             Py.truthy (decode_utf8 (body e)) = true ->
             process_stylesheet "link" attrs j = finish (decode_utf8 (body e)) j)
         /\ (forall resp,
                match network_resources j !! sheet_url with
                | Some e => decode_utf8 (body e) = ""
                | None => True
                end ->
                session_get (length (requests j)) sheet_url = Some resp ->
                status_code resp = 200 ->
                Py.truthy (text resp) = true ->
                process_stylesheet "link" attrs j
                = finish (text resp) (emit (EvGet sheet_url) j)))
  /\ (forall text,
         Py.contains "url(" text = false ->
         _rewrite_css_urls text css_url j = (Ret text, j))
  /\ (forall before after,
         Py.occurs (Py.chars "url(") before = false ->
         _rewrite_css_urls (Py.str (before ++ Py.chars "url()" ++ after)) css_url j
         = (rest ← _rewrite_css_urls (Py.str after) css_url;
            mret (Py.str (before ++ Py.chars "url()" ++ Py.chars rest))) j)
  /\ (forall before after,
         Py.occurs (Py.chars "url(") before = false -> ")"%char ∉ after ->
         _rewrite_css_urls (Py.str (before ++ Py.chars "url(" ++ after)) css_url j
         = (Ret (Py.str (before ++ Py.chars "url(" ++ after)), j))
  /\ (forall text,
         Py.contains "url(" text = false
         \/ exists before after,
              Py.chars text = before ++ Py.chars "url(" ++ after
              /\ Py.occurs (Py.chars "url(") before = false
              /\ ((")"%char ∉ after)
                  \/ (exists rest, after = ")"%char :: rest)
                  \/ exists token rest,
                       after = token ++ ")"%char :: rest
                       /\ token <> [] /\ ")"%char ∉ token))
  /\ Urllib.urljoin "https://a.test/css/x.css" "../img/y.png"
     = Some "https://a.test/img/y.png"
  /\ (let page_job := new_job "https://b.test/site/index.html" in
      let run := @process_stylesheet (library_env sample_site) "link"
                   [("rel", "stylesheet"); ("href", "https://a.test/css/x.css")]
                   page_job in
      run.1 = Ret [("rel", "stylesheet"); ("href", "assets/x_416d361a3f07.css")]
      /\ trace run.2
         = [EvGet "https://a.test/css/x.css";
            EvGet "https://a.test/img/y.png";
            EvWrite ["downloads"; "job"; "assets"; "y_49c3b8b8ed8f.png"] "PNGDATA";
            EvWrite ["downloads"; "job"; "assets"; "x_416d361a3f07.css"]
              rewritten_sheet]
      /\ fetches "https://b.test/img/y.png" (trace run.2) = 0%nat).
Proof.
  intros Hpre Hne Hin css target rest_with.
  pose proof (rewrite_css_first_token css_url pre inner post j Hpre Hne Hin)
    as Hfirst. fold css in Hfirst.
  destruct (replacer_spec css_url inner j) as [Hskip Hres]. fold target in Hskip, Hres.
  split.
  { intros ws1 q1 u q2 ws2 H1 H2 Hq1 Hq2 ->. by apply token_target_quoted. }
  split.
  { intros ws1 content ws2 c d H1 H2 Hh Hl Hc Hd Hq ->.
    by eapply token_target_bare. }
  split.
  { intros Hs. rewrite Hfirst. run_M. by rewrite (Hskip Hs). }
  split.
  { intros Ht Hd. destruct (Hres Ht Hd) as [Hnone Hsome]. split.
    - intros Hj. rewrite Hfirst. run_M. by rewrite (Hnone Hj).
    - intros abs_url r j1 Hj Hrun. rewrite Hfirst. run_M.
      rewrite (Hsome abs_url r j1 Hj Hrun).
      destruct r as [[p|]|e]; try reflexivity.
      by destruct (Py.truthy p && Py.startswith "assets/" p). }
  split.
  { intros attrs href sheet_url Hrel Hhref Hdata Hj finish. split.
    - intros e Hnet Hcss. unfold process_stylesheet.
      rewrite bool_decide_true by reflexivity.
      rewrite bool_decide_true by exact Hrel.
      cbn [andb]. rewrite Hhref, Hdata. run_M.
      rewrite (join_ok _ _ _ _ Hj), Hnet. cbn [default]. unfold id.
      rewrite Hcss. cbv beta iota. rewrite Hcss. reflexivity.
    - intros resp Hcap Hsess Hstatus Htext. unfold process_stylesheet.
      rewrite bool_decide_true by reflexivity.
      rewrite bool_decide_true by exact Hrel.
      cbn [andb]. rewrite Hhref, Hdata. unfold http_get. run_M.
      rewrite (join_ok _ _ _ _ Hj).
      destruct (network_resources j !! sheet_url) as [e|].
      + rewrite Hcap. cbn [default]. unfold id.
        change (Py.truthy "") with false. cbv beta iota.
        rewrite Hsess, Hstatus. change (200 =? 200) with true. cbv beta iota.
        rewrite Htext. reflexivity.
      + cbn [default]. unfold id.
        change (Py.truthy "") with false. cbv beta iota.
        rewrite Hsess, Hstatus. change (200 =? 200) with true. cbv beta iota.
        rewrite Htext. reflexivity. }
  split; [intros text; apply rewrite_css_plain|].
  split; [intros before after; apply rewrite_css_empty_parens|].
  split; [intros before after; apply rewrite_css_unclosed|].
  split; [intros text; apply css_text_shapes|].
  split; [vm_compute; reflexivity|].
  vm_compute. repeat split; reflexivity.
Qed.

(** C4 at the token of the sample stylesheet, rewritten for the sheet's URL
    in the job of a page of another site. *)
Lemma stylesheet_tokens_use_sheet_url_witness :
  let E := library_env sample_site in
  let j := new_job "https://b.test/site/index.html" in
  let run := _rewrite_css_urls "body{background:url(../img/y.png)}"
               "https://a.test/css/x.css" j in
  run.1 = Ret rewritten_sheet
  /\ trace run.2
     = [EvGet "https://a.test/img/y.png";
        EvWrite ["downloads"; "job"; "assets"; "y_49c3b8b8ed8f.png"] "PNGDATA"].
Proof.
  intros E j run.
  destruct (@stylesheet_tokens_use_sheet_url E "https://a.test/css/x.css"
              (Py.chars "body{background:") (Py.chars "../img/y.png")
              (Py.chars "}") j)
    as (_ & Hbare & _ & Hres & _).
  - reflexivity.
  - discriminate.
  - apply (bool_decide_unpack (")"%char ∉ Py.chars "../img/y.png")).
    vm_compute. exact I.
  - assert (Ht : token_target (Py.chars "../img/y.png") = "../img/y.png").
    { apply (Hbare [] (Py.chars "../img/y.png") [] "."%char "g"%char);
        try reflexivity; constructor. }
    destruct Hres as [_ Hsome].
    + rewrite Ht. discriminate.
    + rewrite Ht. reflexivity.
    + specialize (Hsome "https://a.test/img/y.png"
                    (_get_resource "https://a.test/img/y.png" None j).1
                    (_get_resource "https://a.test/img/y.png" None j).2).
      unfold run.
      change "body{background:url(../img/y.png)}"
        with (Py.str (Py.chars "body{background:"
                      ++ full_match (Py.chars "../img/y.png") ++ Py.chars "}")).
      rewrite Hsome.
      * vm_compute. split; reflexivity.
      * rewrite Ht. vm_compute. reflexivity.
      * vm_compute. reflexivity.
Defined.

(** ** C7: what [process] returns and what it raises *)

Section Behaved.

Variable P : exn -> Prop.

Lemma behaved_ret {A} (a : A) : behaved P (mret a).
Proof. intros j. split; [done|]. intros e H. discriminate. Qed.

Lemma behaved_bind {A B} (c : M A) (k : A -> M B) :
  behaved P c -> (forall a, behaved P (k a)) -> behaved P (c ≫= k).
Proof.
  intros Hc Hk j. run_M. destruct (Hc j) as [Ht He].
  destruct (c j) as [[a|e] j1]; cbn in *.
  - destruct (Hk a j1) as [Ht' He']. split; [by etrans|exact He'].
  - split; [done|]. intros e' [= <-]. by apply He.
Qed.

Lemma behaved_try {A} (c h : M A) :
  behaved (fun _ => True) c -> behaved P h -> behaved P (try_except c h).
Proof.
  intros Hc Hh j. run_M. destruct (Hc j) as [Ht _].
  destruct (c j) as [[a|e] j1]; cbn in *.
  - split; [done|]. intros e' H. discriminate.
  - destruct (Hh j1) as [Ht' He']. split; [by etrans|exact He'].
Qed.

Lemma behaved_get : behaved P get.
Proof. intros j. split; [done|]. intros e H. discriminate. Qed.

Lemma behaved_log m : behaved P (log m).
Proof.
  intros j. split; [by apply prefix_app_r|]. intros e H. discriminate.
Qed.

Lemma behaved_modify f :
  (forall j, trace (f j) = trace j) -> behaved P (modify f).
Proof.
  intros Hf j. split; [cbn; by rewrite Hf|]. intros e H. discriminate.
Qed.

Lemma behaved_lift {A} (r : res A) :
  (forall e, r = Raise e -> P e) -> behaved P (lift r).
Proof. intros Hr j. split; [done|]. cbn. exact Hr. Qed.

Lemma behaved_raise {A} e : P e -> behaved P (@raise A e).
Proof. intros He j. split; [done|]. cbn. by intros e' [= <-]. Qed.

Lemma behaved_write_file p data : P OSError -> behaved P (write_file p data).
Proof.
  intros P_os j. unfold write_file. run_M.
  destruct (is_dir (fs j) (parent p) && negb (is_dir (fs j) p)); cbn.
  - split; [by apply prefix_app_r|]. intros e H. discriminate.
  - split; [done|]. by intros e [= <-].
Qed.

Lemma behaved_mapM {A B} (f : A -> M B) l :
  (forall a, behaved P (f a)) -> behaved P (mapM f l).
Proof.
  intros Hf. induction l as [|a l IH]; [apply behaved_ret|].
  cbn [mapM]. apply behaved_bind; [apply Hf|]. intros b.
  apply behaved_bind; [exact IH|]. intros bs. apply behaved_ret.
Qed.

End Behaved.

Lemma behaved_weaken {A} (P Q : exn -> Prop) (c : M A) :
  (forall e, P e -> Q e) -> behaved P c -> behaved Q c.
Proof. intros HPQ Hc j. destruct (Hc j) as [Ht He]. split; [done|]. eauto. Qed.

(** goes through the structure of a method *)
Ltac behave :=
  repeat first
    [ simple apply behaved_ret
    | simple apply behaved_get
    | simple apply behaved_log
    | simple apply behaved_write_file; assumption
    | simple apply behaved_modify; intros; reflexivity
    | simple apply behaved_raise; assumption
    | simple apply behaved_bind; [|intros]
    | simple apply behaved_try
    | match goal with
      | |- behaved _ (match ?x with _ => _ end) => destruct x
      | |- behaved _ (if ?b then _ else _) => destruct b
      end ].

Section BehavedResolver.

Context {E : Env}.

Variable P : exn -> Prop.
Hypothesis P_os : P OSError.
Hypothesis P_value : P ValueError.

Lemma behaved_http_get u : behaved (fun _ => True) (http_get u).
Proof.
  intros j. unfold http_get. run_M.
  destruct (session_get (length (requests j)) u); cbn;
    (split; [by apply prefix_app_r|done]).
Qed.

Lemma behaved_join base u : behaved P (join base u).
Proof.
  intros j. unfold join. destruct (urljoin base u); cbn.
  - split; [done|]. intros e H. discriminate.
  - split; [done|]. by intros e [= <-].
Qed.

Lemma behaved_generate_filename u ct : behaved P (lift (_generate_filename u ct)).
Proof.
  apply behaved_lift. intros e He.
  destruct (generate_filename_cases u ct) as [(p & x & _ & _ & H)|[_ H]];
    rewrite H in He; [discriminate|]. by injection He as <-.
Qed.

Lemma behaved_save_resource u c ct : behaved P (_save_resource u c ct).
Proof. unfold _save_resource. behave. apply behaved_generate_filename. Qed.

Lemma behaved_download_fallback u : behaved P (_download_fallback u).
Proof.
  unfold _download_fallback. behave.
  - apply behaved_http_get.
  - unfold _save_resource. behave;
      first [ apply behaved_lift; intros; exact I
            | apply behaved_write_file; exact I ].
Qed.

Lemma behaved_get_resource url base : behaved P (_get_resource url base).
Proof.
  unfold _get_resource. behave.
  - apply behaved_join.
  - apply behaved_save_resource.
  - apply behaved_download_fallback.
Qed.

Lemma behaved_replacer css_url inner : behaved P (replacer css_url inner).
Proof.
  unfold replacer. behave; first [apply behaved_join|apply behaved_get_resource].
Qed.

Lemma behaved_rewrite_css_urls css css_url :
  behaved P (_rewrite_css_urls css css_url).
Proof.
  unfold _rewrite_css_urls. behave.
  apply behaved_mapM. intros [c|inner]; cbn [rewrite_piece]; [behave|].
  apply behaved_replacer.
Qed.

Lemma behaved_rewrite_attr attr v attrs : behaved P (rewrite_attr attr v attrs).
Proof. unfold rewrite_attr. behave. apply behaved_get_resource. Qed.

Lemma behaved_process_stylesheet nm attrs :
  behaved P (process_stylesheet nm attrs).
Proof.
  unfold process_stylesheet. behave;
    first [ apply behaved_join | apply behaved_http_get
          | apply behaved_rewrite_css_urls | apply behaved_save_resource ].
Qed.

Lemma behaved_process_script nm attrs : behaved P (process_script nm attrs).
Proof. unfold process_script. behave. apply behaved_get_resource. Qed.

Lemma behaved_lazy_loop names attrs src : behaved P (lazy_loop names attrs src).
Proof.
  induction names as [|a names IH]; cbn [lazy_loop]; [behave|].
  destruct (attr_truthy a attrs); [|exact IH].
  behave. apply behaved_get_resource.
Qed.

Lemma behaved_process_src attrs : behaved P (process_src attrs).
Proof.
  unfold process_src. behave;
    first [apply behaved_lazy_loop|apply behaved_rewrite_attr].
Qed.

Lemma behaved_process_srcset srcset base :
  behaved P (_process_srcset srcset base).
Proof.
  unfold _process_srcset. behave.
  apply behaved_mapM. intros part. unfold process_candidate. behave.
  apply behaved_get_resource.
Qed.

Lemma behaved_process_media nm attrs : behaved P (process_media nm attrs).
Proof.
  unfold process_media, process_srcset_attr. behave;
    first [ apply behaved_process_src | apply behaved_process_srcset
          | apply behaved_rewrite_attr ].
Qed.

Lemma behaved_process_style_attr nm attrs :
  behaved P (process_style_attr nm attrs).
Proof. unfold process_style_attr. behave. apply behaved_rewrite_css_urls. Qed.

Lemma behaved_process_icon_link nm attrs :
  behaved P (process_icon_link nm attrs).
Proof. unfold process_icon_link. behave; apply behaved_rewrite_attr. Qed.

Lemma behaved_process_meta nm attrs : behaved P (process_meta nm attrs).
Proof. unfold process_meta. behave; apply behaved_rewrite_attr. Qed.

Lemma behaved_process_background nm attrs :
  behaved P (process_background nm attrs).
Proof. unfold process_background. behave; apply behaved_rewrite_attr. Qed.

Lemma behaved_visit f n :
  (forall nm attrs, behaved P (f nm attrs)) -> behaved P (visit f n).
Proof.
  intros Hf. induction n as [s|nm attrs ch IH] using node_induction.
  { cbn. apply behaved_ret. }
  cbn [visit]. apply behaved_bind; [apply Hf|]. intros attrs'.
  apply behaved_bind; [|intros; apply behaved_ret].
  induction IH as [|c ch Hc _ IHch]; [apply behaved_ret|].
  apply behaved_bind; [exact Hc|]. intros c'.
  apply behaved_bind; [exact IHch|]. intros l. apply behaved_ret.
Qed.

Lemma behaved_process_style_tags n : behaved P (process_style_tags n).
Proof.
  induction n as [s|nm attrs ch IH] using node_induction.
  { cbn. apply behaved_ret. }
  assert (Hdefault : behaved P
            (((fix go (l : list node) : M (list node) :=
                 match l with
                 | [] => mret []
                 | c :: l' =>
                     c' ← process_style_tags c;
                     l'' ← go l';
                     mret (c' :: l'')
                 end) ch) ≫= fun ch' => mret (Tag nm attrs ch'))).
  { apply behaved_bind; [|intros; apply behaved_ret].
    induction IH as [|c ch' Hc _ IHch]; [apply behaved_ret|].
    apply behaved_bind; [exact Hc|]. intros c'.
    apply behaved_bind; [exact IHch|]. intros l. apply behaved_ret. }
  clear IH. cbn [process_style_tags].
  destruct (bool_decide (nm = "style")); [|exact Hdefault].
  destruct ch as [|[nm' at' ch'|s] [|c2 ch2]]; try exact Hdefault.
  behave. apply behaved_rewrite_css_urls.
Qed.

Lemma behaved_passes doc : behaved P (passes doc).
Proof.
  unfold passes. behave;
    first [ apply behaved_process_style_tags
          | apply behaved_visit; intros;
            first [ apply behaved_process_stylesheet | apply behaved_process_script
                  | apply behaved_process_media | apply behaved_process_style_attr
                  | apply behaved_process_icon_link | apply behaved_process_meta
                  | apply behaved_process_background ] ].
Qed.

End BehavedResolver.

Lemma behaved_capture_response P r : behaved P (capture_response r).
Proof. unfold capture_response. behave. Qed.

Lemma behaved_scroll_probe pg : behaved (fun _ => True) (scroll_probe pg).
Proof.
  unfold scroll_probe.
  behave; try (simple apply behaved_lift; intros; exact I).
  apply behaved_raise. exact I.
Qed.

Lemma behaved_scroll_page P pg : behaved P (_scroll_page pg).
Proof.
  unfold _scroll_page. apply behaved_try; [|apply behaved_log].
  apply behaved_scroll_probe.
Qed.

(** A probe that raises is logged, and [_scroll_page] returns. *)
Lemma scroll_page_logs pg j e j1 :
  scroll_probe pg j = (Raise e, j1) ->
  _scroll_page pg j = (Ret tt, emit (EvLog MsgScrollError) j1).
Proof. intros H. unfold _scroll_page, try_except. by rewrite H. Qed.

Section BehavedProcess.

Context {E : Env} {K : Markup}.

Lemma behaved_render br :
  behaved (fun e => e = OSError \/ e = ValueError \/ fatal_raises br e) (render br).
Proof.
  unfold render, _extract_iframe_content.
  behave;
    try (simple apply behaved_lift; intros e He; right; right;
         unfold fatal_raises; tauto);
    try (simple apply behaved_mapM; intros; apply behaved_capture_response);
    try apply behaved_scroll_page.
  simple apply behaved_lift. intros; exact I.
Qed.

Lemma behaved_rewrite P html :
  P OSError -> P ValueError -> behaved P (rewrite html).
Proof.
  intros HP HV. unfold rewrite. behave. by apply behaved_passes.
Qed.

Lemma behaved_process br :
  behaved (fun e => e = OSError \/ e = ValueError \/ fatal_raises br e) (process br).
Proof.
  unfold process. apply behaved_bind; [apply behaved_render|].
  intros html. apply behaved_rewrite; tauto.
Qed.

End BehavedProcess.

Lemma returns_ret {A} (a : A) : returns (mret a).
Proof. intros j. by exists a, j. Qed.

Lemma returns_bind {A B} (c : M A) (k : A -> M B) :
  returns c -> (forall a, returns (k a)) -> returns (c ≫= k).
Proof.
  intros Hc Hk j. run_M. destruct (Hc j) as (a & j1 & ->). apply Hk.
Qed.

Lemma returns_log m : returns (log m).
Proof. intros j. unfold log. run_M. eauto. Qed.

Lemma returns_capture l : returns (mapM capture_response l).
Proof.
  induction l as [|r l IH]; [apply returns_ret|]. cbn [mapM].
  apply returns_bind.
  - intros j. unfold capture_response. run_M.
    destruct (_ && _); [|by eauto]. destruct (c_body r); [|by eauto].
    destruct (bool_decide _); eauto.
  - intros u. apply returns_bind; [exact IH|]. intros. apply returns_ret.
Qed.

Lemma returns_goto r : returns (try_except (lift r) (log MsgLoadWarning)).
Proof. intros j. unfold try_except, lift, log. run_M. destruct r; eauto. Qed.

Lemma leaves_bind_l {A B} x (c : M A) (k : A -> M B) :
  leaves x c -> (forall a, behaved (fun _ => True) (k a)) -> leaves x (c ≫= k).
Proof.
  intros Hc Hk j. run_M. specialize (Hc j).
  destruct (c j) as [[a|e] j1]; cbn in *; [|done].
  destruct (Hk a j1) as [[t Ht] _]. rewrite Ht. apply elem_of_app. by left.
Qed.

Lemma leaves_bind_r {A B} x (c : M A) (k : A -> M B) :
  returns c -> (forall a, leaves x (k a)) -> leaves x (c ≫= k).
Proof.
  intros Hc Hk j. run_M. destruct (Hc j) as (a & j1 & ->). apply Hk.
Qed.

Lemma leaves_bind_value {A B} x (c : M A) (k : A -> M B) a :
  (forall j, exists j', c j = (Ret a, j')) -> leaves x (k a) -> leaves x (c ≫= k).
Proof. intros Hc Hk j. run_M. destruct (Hc j) as (j1 & ->). apply Hk. Qed.

Lemma returns_true_bind {A} (c : M A) (k : A -> M bool) :
  (forall a, returns_true (k a)) -> returns_true (c ≫= k).
Proof.
  intros Hk j b j'. run_M. destruct (c j) as [[a|e] j1]; [|done]. apply Hk.
Qed.

Lemma raises_bind_l {A B} e (c : M A) (k : A -> M B) :
  raises e c -> raises e (c ≫= k).
Proof.
  intros Hc j. run_M. specialize (Hc j).
  destruct (c j) as [[a|e'] j1]; cbn in *; [done|congruence].
Qed.

Lemma raises_bind_r {A B} e (c : M A) (k : A -> M B) :
  returns c -> (forall a, raises e (k a)) -> raises e (c ≫= k).
Proof.
  intros Hc Hk j. run_M. destruct (Hc j) as (a & j1 & ->). apply Hk.
Qed.

Lemma raises_bind_value {A B} e (c : M A) (k : A -> M B) a :
  (forall j, exists j', c j = (Ret a, j')) -> raises e (k a) -> raises e (c ≫= k).
Proof. intros Hc Hk j. run_M. destruct (Hc j) as (j1 & ->). apply Hk. Qed.

(** A probe that fails leaves its line in the log. *)
Lemma scroll_page_leaves pg :
  (forall j, (scroll_probe pg j).1 <> Ret tt) ->
  leaves (EvLog MsgScrollError) (_scroll_page pg).
Proof.
  intros Hfail j. specialize (Hfail j).
  destruct (scroll_probe pg j) as [[[]|e] j1] eqn:Hp; [done|].
  rewrite (scroll_page_logs pg j e j1 Hp). cbn.
  apply elem_of_app. right. by left.
Qed.

Section ProcessOutcome.

Context {E : Env} {K : Markup}.

Lemma rewrite_returns_true html : returns_true (rewrite html).
Proof.
  unfold rewrite. repeat (apply returns_true_bind; intros).
  intros j b j'. by intros [= <- _].
Qed.

Lemma process_returns_true br : returns_true (process br).
Proof. unfold process. apply returns_true_bind, rewrite_returns_true. Qed.

(** What comes after the navigation in [render] only adds to the trace. *)
Lemma behaved_render_tail br (frame : option string * bool) :
  behaved (fun _ => True)
    ((if negb frame.2 then
        log MsgScrolling;;
        _scroll_page (br_page br);;
        mapM capture_response (br_late_responses br);;
        lift (br_settle_scroll br)
      else mret tt);;
     lift (br_cookies br);;
     html_content ←
       (if frame.2 && Py.truthy (default "" frame.1)
        then log MsgUsingIframe;; mret (default "" frame.1)
        else lift (br_content br));
     j ← get;
     log (MsgCaptured (size (network_resources j)));;
     lift (br_close br);;
     mret html_content).
Proof.
  behave;
    try (simple apply behaved_lift; intros; exact I);
    try (simple apply behaved_mapM; intros; apply behaved_capture_response);
    try apply behaved_scroll_page.
Qed.

(** A navigation that raises leaves its warning in the log. *)
Lemma process_logs_warning br :
  br_start br = Ret tt -> br_launch br = Ret tt ->
  (exists e, br_goto br = Raise e) ->
  leaves (EvLog MsgLoadWarning) (process br).
Proof.
  intros Hstart Hlaunch [e Hgoto]. unfold process.
  apply leaves_bind_l; [|intros; apply behaved_rewrite; exact I].
  unfold render.
  apply leaves_bind_r; [intros j; rewrite Hstart; cbn; eauto|]. intros _.
  apply leaves_bind_r; [apply returns_log|]. intros _.
  apply leaves_bind_r; [intros j; rewrite Hlaunch; cbn; eauto|]. intros _.
  apply leaves_bind_r; [intros j; cbn; eauto|]. intros j0.
  apply leaves_bind_r; [apply returns_log|]. intros _.
  apply leaves_bind_r; [apply returns_capture|]. intros _.
  apply leaves_bind_l.
  - intros j. rewrite Hgoto. cbn. apply elem_of_app. right. by left.
  - intros _. unfold _extract_iframe_content.
    behave;
      try (simple apply behaved_lift; intros; exact I);
      try (simple apply behaved_mapM; intros; apply behaved_capture_response);
      try apply behaved_scroll_page.
Qed.

(** A scroll probe that raises leaves its line in the log. *)
Lemma process_logs_probe_error br content base :
  br_start br = Ret tt -> br_launch br = Ret tt -> br_settle br = Ret tt ->
  br_frames br = Ret (content, false, base) ->
  (forall j, (scroll_probe (br_page br) j).1 <> Ret tt) ->
  leaves (EvLog MsgScrollError) (process br).
Proof.
  intros Hstart Hlaunch Hsettle Hframes Hprobe. unfold process.
  apply leaves_bind_l; [|intros; apply behaved_rewrite; exact I].
  unfold render.
  apply leaves_bind_r; [intros j; rewrite Hstart; cbn; eauto|]. intros _.
  apply leaves_bind_r; [apply returns_log|]. intros _.
  apply leaves_bind_r; [intros j; rewrite Hlaunch; cbn; eauto|]. intros _.
  apply leaves_bind_r; [intros j; cbn; eauto|]. intros j0.
  apply leaves_bind_r; [apply returns_log|]. intros _.
  apply leaves_bind_r; [apply returns_capture|]. intros _.
  apply leaves_bind_r; [apply returns_goto|]. intros _.
  apply leaves_bind_r; [intros j; cbn; eauto|]. intros _.
  apply leaves_bind_r; [intros j; rewrite Hsettle; cbn; eauto|]. intros _.
  apply (leaves_bind_value _ _ _ (content, false)).
  { intros j. unfold _extract_iframe_content. rewrite Hframes.
    unfold lift. run_M. cbn. destruct base; cbn; eauto. }
  cbn [snd negb].
  apply leaves_bind_l.
  - apply leaves_bind_r; [apply returns_log|]. intros _.
    apply leaves_bind_l; [by apply scroll_page_leaves|]. intros _.
    behave;
      try (simple apply behaved_lift; intros; exact I);
      try (simple apply behaved_mapM; intros; apply behaved_capture_response).
  - intros _.
    behave; try (simple apply behaved_lift; intros; exact I).
Qed.

(** A browser that cannot be launched: [process] raises what the launch
    raised. *)
Lemma process_raises_launch br e :
  br_start br = Raise e \/ (br_start br = Ret tt /\ br_launch br = Raise e) ->
  raises e (process br).
Proof.
  intros Hlaunch. unfold process. apply raises_bind_l. unfold render.
  destruct Hlaunch as [Hstart|[Hstart Hlaunch]].
  { apply raises_bind_l. intros j. by rewrite Hstart. }
  apply raises_bind_r; [intros j; rewrite Hstart; cbn; eauto|]. intros _.
  apply raises_bind_r; [apply returns_log|]. intros _.
  apply raises_bind_l. intros j. by rewrite Hlaunch.
Qed.

(** A document that cannot be obtained: when [page.content()] is reached --
    no frame gave the content -- and raises, [process] raises what it
    raised. *)
Lemma process_raises_content br content is_iframe base e :
  br_start br = Ret tt -> br_launch br = Ret tt -> br_settle br = Ret tt ->
  br_frames br = Ret (content, is_iframe, base) ->
  is_iframe && Py.truthy (default "" content) = false ->
  (is_iframe = false -> br_settle_scroll br = Ret tt) ->
  br_cookies br = Ret tt ->
  br_content br = Raise e ->
  raises e (process br).
Proof.
  intros Hstart Hlaunch Hsettle Hframes Hown Hscroll Hcookies Hcontent.
  unfold process. apply raises_bind_l. unfold render.
  apply raises_bind_r; [intros j; rewrite Hstart; cbn; eauto|]. intros _.
  apply raises_bind_r; [apply returns_log|]. intros _.
  apply raises_bind_r; [intros j; rewrite Hlaunch; cbn; eauto|]. intros _.
  apply raises_bind_r; [intros j; cbn; eauto|]. intros j0.
  apply raises_bind_r; [apply returns_log|]. intros _.
  apply raises_bind_r; [apply returns_capture|]. intros _.
  apply raises_bind_r; [apply returns_goto|]. intros _.
  apply raises_bind_r; [intros j; cbn; eauto|]. intros _.
  apply raises_bind_r; [intros j; rewrite Hsettle; cbn; eauto|]. intros _.
  apply (raises_bind_value _ _ _ (content, is_iframe)).
  { intros j. unfold _extract_iframe_content. rewrite Hframes.
    unfold lift. run_M. cbn. destruct base; cbn; eauto. }
  cbn [snd fst]. rewrite Hown.
  apply raises_bind_r.
  { destruct is_iframe; cbn [negb]; [apply returns_ret|].
    apply returns_bind; [apply returns_log|]. intros _.
    apply returns_bind;
      [intros j; destruct (scroll_page_returns (br_page br) j) as [j' ->]; eauto|].
    intros _.
    apply returns_bind; [apply returns_capture|]. intros _.
    intros j. rewrite Hscroll by reflexivity. cbn. eauto. }
  intros _.
  apply raises_bind_r; [intros j; rewrite Hcookies; cbn; eauto|]. intros _.
  apply raises_bind_l. intros j. by rewrite Hcontent.
Qed.


End ProcessOutcome.

Lemma flaky_browser_not_fatal e : ~ fatal_raises flaky_browser e.
Proof. unfold fatal_raises. cbn. intros H. repeat destruct H as [H|H]; discriminate. Qed.

Lemma broken_page_fails j : (scroll_probe broken_page j).1 <> Ret tt.
Proof. discriminate. Qed.



(* ===================================================================== *)
(** * Further properties of the code *)
(* ===================================================================== *)

Section FallbackErrors.

Context {E : Env}.

(** [_download_fallback] never raises: a request that raises, an answer
    other than 200, a name that cannot be made and a file that cannot be
    written all end in [None] (or in the path or URL it returns); what it
    returns for a URL the cache does not hold and that cannot be fetched
    (empty, [data:], [blob:], [#]) is the URL itself, with no request
    sent. *)
Theorem download_fallback_never_raises u j :
  (exists r j', _download_fallback u j = (Ret r, j'))
  /\ (resource_cache j !! u = None -> not_fetchable u = true ->
      _download_fallback u j = (Ret (Some u), j)).
Proof.
  destruct (download_fallback_cases u j)
    as [(p & Hc & Hr)|[(Hc & Hf & Hr)|(Hc & Hf & r & j' & Hr & _)]].
  - split; [eauto|]. intros Hn. congruence.
  - split; [eauto|]. done.
  - split; [eauto|]. intros _ Hf'. congruence.
Qed.

(** [_get_resource] raises in two situations only, and leaves the job as it
    was in both: [urljoin] rejects the reference ([ValueError]); or the URL
    is not in the cache, the captured map holds a payload for it that is not
    empty, and either the file name cannot be made ([ValueError] of
    [urlparse]) or the file cannot be written into the assets directory (the
    error of the file system).  In the fallback tier the same failures are
    swallowed. *)
Theorem get_resource_raises url base j e j' :
  _get_resource url base j = (Raise e, j') ->
  j' = j
  /\ not_fetchable url = false
  /\ ((e = ValueError /\ urljoin (base_or base j) url = None)
      \/ exists abs_url entry,
           urljoin (base_or base j) url = Some abs_url
           /\ resource_cache j !! abs_url = None
           /\ network_resources j !! abs_url = Some entry
           /\ body entry <> ""
           /\ ((e = ValueError
                /\ _generate_filename abs_url (content_type entry)
                   = Raise ValueError)
               \/ (e = OSError
                   /\ exists f,
                        _generate_filename abs_url (content_type entry) = Ret f
                        /\ writable j f = false))).
Proof.
  intros Hrun. destruct (not_fetchable url) eqn:Hf.
  { unfold _get_resource in Hrun. rewrite Hf in Hrun. discriminate. }
  destruct (urljoin (base_or base j) url) as [abs_url|] eqn:Hj.
  2:{ rewrite (get_resource_unjoinable url base j Hf Hj) in Hrun.
      injection Hrun as <- <-. split_and!; try done. by left. }
  rewrite (get_resource_joined url base j abs_url Hf Hj) in Hrun.
  destruct (resource_cache j !! abs_url) as [p|] eqn:Hc; [discriminate|].
  destruct (network_resources j !! abs_url) as [entry|] eqn:Hn.
  - destruct (save_resource_cases abs_url (body entry) (content_type entry) j)
      as [(p & Hp & Hs)|[(_ & _ & Hs)|[(_ & Hb & Hv & Hs)
          |[(_ & Hb & f & Hname & Hw & Hs)|(_ & _ & f & _ & _ & Hs)]]]];
      rewrite Hs in Hrun; try discriminate.
    + injection Hrun as <- <-. split_and!; try done. right.
      exists abs_url, entry. split_and!; try done. by left.
    + injection Hrun as <- <-. split_and!; try done. right.
      exists abs_url, entry. split_and!; try done. right. eauto.
  - destruct (download_fallback_cases abs_url j)
      as [(p & _ & Hd)|[(_ & _ & Hd)|(_ & _ & r & j1 & Hd & _)]];
      rewrite Hd in Hrun.
    + destruct (Py.truthy p); discriminate.
    + destruct (Py.truthy abs_url); discriminate.
    + destruct r as [p|]; [destruct (Py.truthy p)|]; discriminate.
Qed.

End FallbackErrors.

(** On a [blob:] URL, and on a server that is down. *)
Lemma download_fallback_never_raises_witness :
  let E := library_env offline in
  let j := new_job "https://a.test/index.html" in
  _download_fallback "blob:https://a.test/0a1b" j
  = (Ret (Some "blob:https://a.test/0a1b"), j)
  /\ (_download_fallback "https://a.test/x.png" j).1 = Ret None.
Proof.
  intros E j.
  destruct (@download_fallback_never_raises E "blob:https://a.test/0a1b" j)
    as [_ H].
  split; [apply H; reflexivity|]. vm_compute. reflexivity.
Defined.

(** On a job whose assets directory is gone. *)
Lemma get_resource_raises_witness :
  let E := library_env offline in
  let j := set_fs (fun _ => ∅)
             (captured_job "https://a.test/index.html"
                [("https://a.test/img/y.png",
                  {| body := "PNGDATA"; content_type := "image/png" |})]) in
  _get_resource "img/y.png" None j = (Raise OSError, j)
  /\ not_fetchable "img/y.png" = false.
Proof.
  intros E j.
  assert (Hrun : _get_resource "img/y.png" None j = (Raise OSError, j))
    by (vm_compute; reflexivity).
  destruct (@get_resource_raises E "img/y.png" None j OSError j Hrun)
    as (_ & Hf & _).
  split; [exact Hrun|exact Hf].
Defined.

(** [capture_response] records a response with status 200, a URL that
    is neither [data:] nor [blob:] and a body that can be read, under its
    final URL and under the URL of the request (a redirect gives two keys for
    one entry); the other entries, the cache, the files and the trace are
    untouched.  Any other response changes nothing.  It never raises. *)
Theorem capture_response_records r j :
  (capture_response r j).1 = Ret tt
  /\ (forall b,
         c_status r = 200 ->
         Py.startswith "data:" (c_url r) = false ->
         Py.startswith "blob:" (c_url r) = false ->
         c_body r = Some b ->
         let entry := {| body := b; content_type := c_content_type r |} in
         let j' := (capture_response r j).2 in
         network_resources j' !! c_url r = Some entry
         /\ network_resources j' !! c_request_url r = Some entry
         /\ (forall u, u <> c_url r -> u <> c_request_url r ->
                       network_resources j' !! u = network_resources j !! u)
         /\ resource_cache j' = resource_cache j
         /\ fs j' = fs j /\ trace j' = trace j)
  /\ (c_status r <> 200 \/ Py.startswith "data:" (c_url r) = true
      \/ Py.startswith "blob:" (c_url r) = true \/ c_body r = None ->
      capture_response r j = (Ret tt, j)).
Proof.
  split_and!.
  - unfold capture_response. run_M.
    destruct (_ && _); [|done]. destruct (c_body r); [|done].
    by destruct (bool_decide _).
  - intros b Hs Hd Hb Hbody entry j'. unfold j', capture_response. run_M.
    rewrite Hs, Hd, Hb, Hbody. cbn [orb negb andb]. fold entry.
    change (200 =? 200) with true. cbn [andb].
    case_bool_decide as Hne; cbn.
    + split_and!; try done.
      * rewrite lookup_insert_ne by done. apply lookup_insert_eq.
      * apply lookup_insert_eq.
      * intros u Hu1 Hu2. by rewrite !lookup_insert_ne.
    + rewrite Hne. split_and!; try done.
      * apply lookup_insert_eq.
      * apply lookup_insert_eq.
      * intros u Hu1 Hu2. by rewrite lookup_insert_ne.
  - intros Hskip. unfold capture_response.
    destruct Hskip as [Hs|[Hd|[Hb|Hbody]]].
    + apply Z.eqb_neq in Hs. by rewrite Hs.
    + rewrite Hd. by rewrite andb_false_r.
    + rewrite Hb. by rewrite orb_true_r, andb_false_r.
    + rewrite Hbody. by destruct (_ && _).
Qed.

(** On a redirected response. *)
Lemma capture_response_records_witness :
  let r := {| c_url := "https://cdn.test/logo.png";
              c_request_url := "https://a.test/logo.png";
              c_status := 200; c_body := Some "PNGDATA";
              c_content_type := "image/png" |} in
  let j' := (capture_response r (new_job "https://a.test/index.html")).2 in
  network_resources j' !! "https://cdn.test/logo.png"
  = Some {| body := "PNGDATA"; content_type := "image/png" |}
  /\ network_resources j' !! "https://a.test/logo.png"
     = Some {| body := "PNGDATA"; content_type := "image/png" |}.
Proof.
  intros r j'.
  destruct (capture_response_records r (new_job "https://a.test/index.html"))
    as (_ & Hrec & _).
  destruct (Hrec "PNGDATA" eq_refl eq_refl eq_refl eq_refl) as (H1 & H2 & _).
  split; [exact H1|exact H2].
Defined.


Section ScriptPass.

Context {E : Env}.

(** When the [src] of a [script] resolves to a path, the pass writes
    the path into [src] and removes [integrity], [crossorigin] and [nonce];
    every other attribute keeps its value. *)
Theorem script_integrity_stripped attrs src p j j' :
  attr_truthy "src" attrs = Some src ->
  Py.startswith "data:" src = false ->
  _get_resource src None j = (Ret (Some p), j') ->
  Py.truthy p = true -> p <> src ->
  exists attrs',
    process_script "script" attrs j = (Ret attrs', j')
    /\ attr_get "src" attrs' = Some p
    /\ attr_get "integrity" attrs' = None
    /\ attr_get "crossorigin" attrs' = None
    /\ attr_get "nonce" attrs' = None
    /\ forall k, k <> "src" -> k <> "integrity" -> k <> "crossorigin" ->
                 k <> "nonce" -> attr_get k attrs' = attr_get k attrs.
Proof.
  intros Hsrc Hdata Hres Hp Hne. eexists. split.
  { unfold process_script. rewrite bool_decide_true by reflexivity.
    rewrite Hsrc, Hdata. run_M. rewrite Hres. unfold resolved_to.
    rewrite Hp, bool_decide_false by done. reflexivity. }
  split_and!.
  - rewrite !attr_get_del_ne by discriminate. apply attr_get_set.
  - rewrite !attr_get_del_ne by discriminate. apply attr_get_del.
  - rewrite attr_get_del_ne by discriminate. apply attr_get_del.
  - apply attr_get_del.
  - intros k H1 H2 H3 H4. rewrite !attr_get_del_ne by done.
    by apply attr_get_set_ne.
Qed.

End ScriptPass.

(** On a script with a subresource-integrity hash. *)
Lemma script_integrity_stripped_witness :
  let E := library_env sample_site in
  let j := new_job "https://a.test/index.html" in
  (process_script "script"
     [("src", "img/y.png"); ("integrity", "sha384-abc"); ("defer", "")] j).1
  = Ret [("src", "assets/y_49c3b8b8ed8f.png"); ("defer", "")].
Proof.
  intros E j.
  destruct (@script_integrity_stripped E
              [("src", "img/y.png"); ("integrity", "sha384-abc"); ("defer", "")]
              "img/y.png" "assets/y_49c3b8b8ed8f.png" j
              (_get_resource "img/y.png" None j).2)
    as (attrs' & Hrun & _).
  - reflexivity.
  - reflexivity.
  - vm_compute. reflexivity.
  - reflexivity.
  - discriminate.
  - rewrite Hrun. vm_compute in Hrun. injection Hrun as <-. reflexivity.
Defined.

(** ** The navigation pass twice *)

Lemma fix_anchor_twice nm attrs :
  fix_anchor nm (fix_anchor nm attrs) = fix_anchor nm attrs.
Proof.
  assert (Hset : forall a,
             fix_anchor "a" (attr_set "href" "#" a) = attr_set "href" "#" a).
  { intros a. unfold fix_anchor. rewrite decide_True by reflexivity.
    rewrite attr_get_set. rewrite decide_False by discriminate.
    reflexivity. }
  unfold fix_anchor at 2 3. destruct (decide (nm = "a")) as [->|Hnm].
  - destruct (attr_get "href" attrs) as [href|] eqn:Hh.
    + destruct (decide (href = "/")) as [Hroot|Hroot]; [apply Hset|].
      destruct (Py.startswith "/" href && negb (Py.startswith "//" href))
        eqn:Hrel; [apply Hset|].
      unfold fix_anchor. rewrite decide_True by reflexivity.
      rewrite Hh, decide_False by exact Hroot. rewrite Hrel. reflexivity.
    + unfold fix_anchor. rewrite decide_True by reflexivity.
      rewrite Hh. reflexivity.
  - unfold fix_anchor. rewrite decide_False by exact Hnm. reflexivity.
Qed.

(** The navigation pass is idempotent: run on its own result it
    changes nothing ([#] is not a root-relative path). *)
Theorem fix_navigation_idempotent doc :
  fix_navigation (fix_navigation doc) = fix_navigation doc.
Proof.
  unfold fix_navigation.
  induction doc as [s|nm attrs ch IH] using node_induction; [reflexivity|].
  cbn [map_elements]. rewrite fix_anchor_twice. f_equal.
  induction IH as [|c ch' Hc _ IHch]; [reflexivity|].
  cbn [fmap list_fmap] in *. rewrite Hc. f_equal. exact IHch.
Qed.

(** ** Where the probe scrolls *)

Lemma scroll_offsets_shift (c vh : Z) (n : nat) :
  (fun k => c + vh + Z.of_nat k * vh) <$> seq 0 n
  = (fun k => c + Z.of_nat k * vh) <$> seq 1 n.
Proof.
  rewrite <- (fmap_S_seq 0 n), <- list_fmap_compose.
  apply list_fmap_ext. intros i k _. cbn. lia.
Qed.

(** The positions the probe scrolls to are the multiples of the
    viewport height counted from where it starts: the [k]-th scroll (from
    0) goes to [current + k * viewport_height], whatever heights the page
    reports and whether or not a call into the browser raises. *)
Theorem scroll_positions_step pg viewport_height s :
  positions (scroll_loop pg viewport_height s)
  = (fun k => current s + Z.of_nat k * viewport_height)
      <$> seq 0 (length (positions (scroll_loop pg viewport_height s))).
Proof.
  funelim (scroll_loop pg viewport_height s); try clear Heqcall;
    try reflexivity;
    try (cbn [positions length seq fmap list_fmap]; f_equal; lia).
  cbn [began positions length seq fmap list_fmap] in *.
  f_equal; [lia|].
  rewrite <- scroll_offsets_shift. exact H.
Qed.


(** ** File names *)

Lemma before_elem sep c l : c ∈ Py.before sep l -> c ∈ l /\ c <> sep.
Proof.
  induction l as [|d l IH]; cbn; [by intros ?%elem_of_nil|].
  destruct (decide (d = sep)) as [->|Hd]; [by intros ?%elem_of_nil|].
  intros [->|Hin]%elem_of_cons.
  - split; [left|exact Hd].
  - destruct (IH Hin). split; [by right|done].
Qed.

Lemma after_last_elem sep c l : c ∈ Py.after_last sep l -> c ∈ l /\ c <> sep.
Proof.
  unfold Py.after_last. rewrite elem_rev. intros [Hin Hne]%before_elem.
  by rewrite elem_rev in Hin.
Qed.

Lemma splitext_ext_no_slash p : "/"%char ∉ Py.chars (OsPath.splitext_ext p).
Proof.
  unfold OsPath.splitext_ext.
  destruct (bool_decide _); [|by intros ?%elem_of_nil].
  destruct (forallb _ _); [by intros ?%elem_of_nil|].
  rewrite chars_str. intros [Hd|Hin]%elem_of_cons; [discriminate|].
  apply after_last_elem in Hin as [Hin _].
  by apply after_last_elem in Hin as [_ Hne].
Qed.

Section FilenamePolicy.

Context {E : Env}.

(** A generated file name is one path component: provided the MIME table
    answers no extension with a slash in it, the name holds no [/],
    whatever the URL and the content type, and it has at least the 13
    characters of the underscore and the hash.  So the file written under it
    lies directly in the assets directory. *)
Theorem generated_filename_flat u ct f :
  (forall mime e, guess_extension mime = Some e -> "/"%char ∉ Py.chars e) ->
  _generate_filename u ct = Ret f ->
  ("/"%char ∉ Py.chars f) /\ (13 <= length (Py.chars f))%nat.
Proof.
  intros Hg Hname.
  destruct (generate_filename_cases u ct)
    as [(parsed & ext & Hp & He & Hn)|[_ Hn]]; [|congruence].
  assert (f = base_name (Urllib.p_path parsed) +:+ "_" +:+ url_hash u +:+ ext)
    as -> by congruence.
  rewrite !chars_app. split.
  - rewrite !elem_of_app. intros [Hin|[Hin|[Hin|Hin]]].
    + pose proof (base_name_chars (Urllib.p_path parsed)) as Hall.
      rewrite Forall_forall in Hall. by apply Hall in Hin.
    + cbn in Hin. by apply list_elem_of_singleton in Hin.
    + pose proof (url_hash_hex u) as Hall. rewrite Forall_forall in Hall.
      by apply Hall in Hin.
    + destruct (get_extension_parsed u ct parsed Hp) as (ext' & He' & Hext).
      assert (ext' = ext) as -> by congruence. subst ext. revert Hin. cbn zeta.
      destruct (Py.truthy (OsPath.splitext_ext _) && _);
        [apply splitext_ext_no_slash|].
      destruct (Py.truthy ct); [|by intros ?%elem_of_nil].
      destruct (guess_extension _) as [e|] eqn:Hgu; [by apply (Hg _ _ Hgu)|].
      by intros ?%elem_of_nil.
  - rewrite !length_app. pose proof (url_hash_length u) as Hh.
    unfold Py.len in Hh. rewrite Hh. cbn [Py.chars String.list_ascii_of_string length].
    lia.
Qed.

(** The parts of a file name.  For a URL that parses, with [path] its path:
    - the base name is [resource] when the last path segment is empty, else
      the first 30 characters of the sanitized text before the first dot of
      that segment; it has at most 30 characters, all of [[a-zA-Z0-9_-]];
    - the hash is the first 12 characters of the MD5 digest of the URL in
      hexadecimal: 12 hexadecimal digits;
    - the extension is the suffix of the path when that is not empty and has
      at most 6 characters (the dot counted), whatever the content type;
      else what the declared content type gives, else empty.
    Two URLs get the same name only if base name, hash and extension are
    equal: URLs whose hashes differ have different names.  A URL that does
    not parse has no name: [_generate_filename] raises [ValueError]. *)
Theorem filename_policy
    (guess_dot : forall mime e,
        guess_extension mime = Some e -> Py.startswith "." e = true)
    url content_type :
  match urlparse url with
  | None => _generate_filename url content_type = Raise ValueError
  | Some parsed =>
      let path := Urllib.p_path parsed in
      let own := OsPath.splitext_ext path in
      exists ext,
        _get_extension url content_type = Ret ext
        /\ _generate_filename url content_type
           = Ret (base_name path +:+ "_" +:+ url_hash url +:+ ext)
        /\ (OsPath.basename path = "" -> base_name path = "resource")
        /\ (OsPath.basename path <> "" ->
            base_name path
            = Py.slice_to 30 (sanitize (Py.split_head "." (OsPath.basename path))))
        /\ (Py.len (base_name path) <= 30)%nat
        /\ Forall (fun c => name_char c = true) (Py.chars (base_name path))
        /\ Py.len (url_hash url) = 12%nat
        /\ Forall (fun c => hex_char c = true) (Py.chars (url_hash url))
        /\ (own <> "" -> (Py.len own <= 6)%nat ->
            forall ct, _get_extension url ct = Ret own)
        /\ (own = "" \/ (6 < Py.len own)%nat ->
            ext = if Py.truthy content_type
                  then default "" (guess_extension
                                     (Py.strip (Py.split_head ";" content_type)))
                  else "")
        /\ (forall url' content_type' f,
               _generate_filename url content_type = Ret f ->
               _generate_filename url' content_type' = Ret f ->
               url_hash url = url_hash url'
               /\ _get_extension url' content_type' = Ret ext
               /\ exists parsed',
                    urlparse url' = Some parsed'
                    /\ base_name path = base_name (Urllib.p_path parsed'))
        /\ (forall url' content_type' f f',
               url_hash url <> url_hash url' ->
               _generate_filename url content_type = Ret f ->
               _generate_filename url' content_type' = Ret f' ->
               f <> f')
  end.
Proof.
  destruct (generate_filename_cases url content_type)
    as [(parsed & ext & Hp & He & Hn)|[Hp Hn]]; rewrite Hp; [|exact Hn].
  intros path own. exists ext.
  destruct (get_extension_parsed url content_type parsed Hp) as (ext' & He' & Hext).
  assert (ext' = ext) as -> by congruence. fold path own in Hext.
  split_and!; try done.
  - intros Hb. unfold base_name. by rewrite Hb.
  - intros Hb. unfold base_name.
    destruct (OsPath.basename path); [done|reflexivity].
  - apply base_name_length.
  - apply base_name_chars.
  - apply url_hash_length.
  - apply url_hash_hex.
  - intros Hown Hlen ct.
    destruct (get_extension_parsed url ct parsed Hp) as (x & Hx & ->).
    rewrite Hx. fold path own. f_equal.
    destruct own; [done|]. cbn [Py.truthy andb].
    by rewrite (proj2 (Nat.leb_le _ _) Hlen).
  - intros Hown. rewrite Hext. cbv zeta.
    assert (Py.truthy own && (Py.len own <=? 6)%nat = false) as ->; [|done].
    destruct Hown as [->|Hlen]; [done|].
    rewrite (proj2 (Nat.leb_gt _ _) Hlen). apply andb_false_r.
  - intros url' ct' f H1 H2.
    destruct (generate_filename_parts url content_type url' ct' f guess_dot H1 H2)
      as (p1 & p2 & x & Hp1 & Hp2 & Hb & Hh & Hx1 & Hx2).
    assert (p1 = parsed) as -> by congruence.
    assert (x = ext) as -> by congruence.
    split_and!; try done. by exists p2.
  - intros url' ct' f f' Hne H1 H2 ->.
    destruct (generate_filename_parts url content_type url' ct' f' guess_dot H1 H2)
      as (_ & _ & _ & _ & _ & _ & Hh & _).
    done.
Qed.

End FilenamePolicy.

Lemma table_guess_dot mime e :
  table_guess mime = Some e -> Py.startswith "." e = true.
Proof.
  unfold table_guess, mime_table. cbn [List.find fst snd].
  repeat (destruct (bool_decide _); [by intros [= <-]|]).
  done.
Qed.

Lemma table_guess_no_slash mime e :
  table_guess mime = Some e -> "/"%char ∉ Py.chars e.
Proof.
  unfold table_guess, mime_table. cbn [List.find fst snd].
  repeat (destruct (bool_decide _);
          [intros [= <-]; apply (bool_decide_unpack _); vm_compute; exact I|]).
  done.
Qed.

(** On a stylesheet URL whose path ends in a slash. *)
Lemma generated_filename_flat_witness :
  let E := library_env offline in
  _generate_filename "https://a.test/theme/" "text/css"
  = Ret "resource_938501ed7890.css"
  /\ "/"%char ∉ Py.chars "resource_938501ed7890.css".
Proof.
  intros E.
  assert (H : _generate_filename "https://a.test/theme/" "text/css"
              = Ret "resource_938501ed7890.css") by (vm_compute; reflexivity).
  split; [exact H|].
  apply (@generated_filename_flat E "https://a.test/theme/" "text/css" _
           table_guess_no_slash H).
Defined.

(** On a stylesheet URL that carries a query. *)
Lemma filename_policy_witness :
  let E := library_env offline in
  _generate_filename "https://a.test/css/x.css?v=2" "text/css"
  = Ret "x_9a5701f842d0.css".
Proof.
  intros E.
  pose proof (@filename_policy E table_guess_dot
                "https://a.test/css/x.css?v=2" "text/css") as H.
  change (urlparse "https://a.test/css/x.css?v=2")
    with (Urllib.urlparse "https://a.test/css/x.css?v=2" "") in H.
  destruct (Urllib.urlparse "https://a.test/css/x.css?v=2" "") as [parsed|] eqn:Hp;
    [|vm_compute in Hp; discriminate].
  destruct H as (ext & _ & Hname & _).
  rewrite Hname. vm_compute in Hp. injection Hp as <-.
  revert Hname. vm_compute. by intros [= ->].
Defined.

(** ** The name of the archive *)

Lemma remove_all_length old l : forall skip,
  (length (remove_all old skip l) <= length l)%nat.
Proof.
  induction l as [|c l IH]; intros skip; cbn; [lia|].
  destruct skip as [|k]; [|specialize (IH k); lia].
  destruct (Py.starts old (c :: l)).
  - specialize (IH (length old - 1)%nat). lia.
  - cbn. specialize (IH 0%nat). lia.
Qed.

Lemma domain_clean_chars (l : list ascii) :
  Forall (fun c => file_char c = true)
    ((fun c => if domain_char c then c else "_"%char) <$> l).
Proof.
  apply Forall_fmap, Forall_forall. intros c _. cbn. unfold file_char.
  destruct (domain_char c) eqn:Hc; [by rewrite Hc|reflexivity].
Qed.

Lemma path_clean_chars (l : list ascii) :
  Forall (fun c => file_char c = true)
    ((fun c => if alnum_char c then c else "_"%char) <$> l).
Proof.
  apply Forall_fmap, Forall_forall. intros c _. cbn.
  unfold file_char, domain_char, alnum_char.
  destruct (Py.is_ascii_alpha c || Py.is_digit c) eqn:Hc; [by rewrite Hc|].
  reflexivity.
Qed.

Section SiteNameFacts.

Context {E : Env}.

(** [get_site_name] raises exactly when [urlparse] rejects the URL.
    Otherwise the name it gives holds only characters of
    [[a-zA-Z0-9._-]], so it is one path component whatever the URL; it is
    at most 31 characters longer than the host part of the URL, and no
    longer than the host part when the path of the URL is empty or [/]. *)
Theorem site_name_is_file_name url :
  match urlparse url with
  | None => get_site_name url = Raise ValueError
  | Some parsed =>
      exists name,
        get_site_name url = Ret name
        /\ Forall (fun c => file_char c = true) (Py.chars name)
        /\ (Py.len name <= Py.len (Urllib.p_netloc parsed) + 31)%nat
        /\ (Urllib.p_path parsed = "" \/ Urllib.p_path parsed = "/" ->
            (Py.len name <= Py.len (Urllib.p_netloc parsed))%nat)
  end.
Proof.
  unfold get_site_name, parse. destruct (urlparse url) as [parsed|]; [|done].
  cbn [mbind res_bind].
  set (domain := remove_all (Py.chars "www.") 0 (Py.chars (Urllib.p_netloc parsed))).
  assert (Hdom : (length domain <= Py.len (Urllib.p_netloc parsed))%nat)
    by apply remove_all_length.
  destruct (Py.truthy (Urllib.p_path parsed)
            && negb (bool_decide (Urllib.p_path parsed = "/"))) eqn:Hpath.
  - eexists. split; [reflexivity|]. rewrite len_str, chars_str. split_and!.
    + rewrite !Forall_app. split_and!.
      * apply domain_clean_chars.
      * repeat constructor.
      * apply Forall_take, path_clean_chars.
    + rewrite !length_app, length_fmap, length_take.
      change (length (Py.chars "_")) with 1%nat. lia.
    + intros [Hp|Hp]; rewrite Hp in Hpath; discriminate.
  - eexists. split; [reflexivity|]. rewrite len_str, chars_str. split_and!.
    + apply domain_clean_chars.
    + rewrite length_fmap. lia.
    + intros _. rewrite length_fmap. lia.
Qed.

End SiteNameFacts.

(** The names of some URLs, as the library and the code give them. *)
Example get_site_name_samples :
  let E := library_env offline in
  get_site_name "https://www.a.test/blog/post-1/" = Ret "a.test_blog_post_1"
  /\ get_site_name "http://wwww.www.x.org" = Ret "wx.org"
  /\ get_site_name "https://a.test/" = Ret "a.test"
  /\ get_site_name "https://user:pw@www.a.test:8080//x//y.html?q#f"
     = Ret "user_pw_a.test_8080_x__y_html"
  /\ get_site_name "a/b" = Ret "_a_b"
  /\ get_site_name "https://[bad/index.html" = Raise ValueError.
Proof. vm_compute. repeat split; reflexivity. Qed.
